(** * github-copilot-svcs: a shallow embedding of the proxy data plane
      and of the token lifecycle manager, with the properties of the
      specification proved over it.

    Sources embedded here:
    - [internal/proxy.go]  : coalescing cache, circuit breaker, proxy handler,
                             retry loop;
    - [internal/config.go] : the auth service (refresh, proactive refresh,
                             device-flow polling and single check);
    - [unnamed/part_007]   : the server file, for its worker pool;
    - [unnamed/part_006]   : the auth API file, for its stage-2 handler.

    Go [int]/[int64] values are integers of [Z] with the two's complement
    wrap-around written out ([Int64.wrap]); strings are [string]; request
    bodies are lists of bytes; [map[string]chan interface{}] is a [gmap].
    Effects (HTTP calls, timers, the clock) go through a state monad over
    the history of what was done, against an environment that answers as
    a function of that history; a computation returns or panics.
    Goroutines are interleaved step by step where a property depends on
    the interleaving (the coalescing cache). *)

From Stdlib Require Import ZArith Lia Bool Ascii String DecimalString List.
From stdpp Require Import base option strings list gmap.
Import ListNotations.

Local Open Scope Z_scope.
#[local] Set Warnings "-register-all".

(* ===================================================================== *)
(** ** Machine integers *)
(* ===================================================================== *)

Module Int64.

Definition modulus : Z := 2 ^ 64.
Definition min_int : Z := - 2 ^ 63.
Definition max_int : Z := 2 ^ 63 - 1.

(** Two's complement reduction of an integer to the [int64] range:
    what Go's [+], [*] and [++] compute on [int64]. *)
Definition wrap (x : Z) : Z := (x + 2 ^ 63) mod modulus - 2 ^ 63.

Definition in_range (x : Z) : Prop := min_int <= x <= max_int.

(** Saturation to the [int64] range, as [time.Time.Sub] returns
    [minDuration]/[maxDuration] when the difference does not fit. *)
Definition saturate (x : Z) : Z :=
  if x <? min_int then min_int
  else if max_int <? x then max_int
  else x.

End Int64.

(* ===================================================================== *)
(** ** Circuit breaker ([internal/proxy.go]) *)
(* ===================================================================== *)

Module Breaker.

(** [circuitBreakerFailureThreshold] *)
Definition circuitBreakerFailureThreshold : Z := 5.

(** [time.Second], in nanoseconds. *)
Definition time_Second : Z := 1000000000.

(** [CircuitBreakerState]: [CircuitClosed], [CircuitOpen],
    [CircuitHalfOpen]. *)
Inductive CircuitBreakerState : Type :=
| CircuitClosed
| CircuitOpen
| CircuitHalfOpen.

#[export] Instance CircuitBreakerState_eq_dec : EqDecision CircuitBreakerState.
Proof. solve_decision. Defined.

(** [type CircuitBreaker struct]; instants and durations are in
    nanoseconds.  The mutex is not modelled: every method below runs as
    one atomic step. *)
Record CircuitBreaker : Type := mkCB {
  failureCount    : Z;
  lastFailureTime : Z;
  state           : CircuitBreakerState;
  timeout         : Z
}.

(** The breaker built by [NewProxyService]:
    [timeout: time.Duration(cfg.Timeouts.CircuitBreaker) * time.Second]. *)
Definition NewCircuitBreaker (cfgCircuitBreaker : Z) : CircuitBreaker :=
  {| failureCount := 0;
     lastFailureTime := 0;
     state := CircuitClosed;
     timeout := Int64.wrap (cfgCircuitBreaker * time_Second) |}.

(** [time.Since(t)] when the clock reads [now]. *)
Definition time_Since (now t : Z) : Z := Int64.saturate (now - t).

(** [canExecute]: the admission decision and the breaker afterwards. *)
Definition canExecute (now : Z) (cb : CircuitBreaker) : bool * CircuitBreaker :=
  match state cb with
  | CircuitClosed => (true, cb)
  | CircuitOpen =>
      if timeout cb <? time_Since now (lastFailureTime cb)
      then (true, {| failureCount := failureCount cb;
                     lastFailureTime := lastFailureTime cb;
                     state := CircuitHalfOpen;
                     timeout := timeout cb |})
      else (false, cb)
  | CircuitHalfOpen => (true, cb)
  end.

(** [onSuccess] *)
Definition onSuccess (cb : CircuitBreaker) : CircuitBreaker :=
  {| failureCount := 0;
     lastFailureTime := lastFailureTime cb;
     state := CircuitClosed;
     timeout := timeout cb |}.

(** [onFailure] when the clock reads [now]. *)
Definition onFailure (now : Z) (cb : CircuitBreaker) : CircuitBreaker :=
  let n := Int64.wrap (failureCount cb + 1) in
  {| failureCount := n;
     lastFailureTime := now;
     state := if circuitBreakerFailureThreshold <=? n
              then CircuitOpen else state cb;
     timeout := timeout cb |}.

(** What can happen to a breaker: an admission check, or the outcome of
    an admitted request being recorded. *)
Inductive event : Type :=
| Admission (now : Z)
| Success
| Failure (now : Z).

Definition step (cb : CircuitBreaker) (e : event) : CircuitBreaker :=
  match e with
  | Admission now => snd (canExecute now cb)
  | Success => onSuccess cb
  | Failure now => onFailure now cb
  end.

Definition run (tr : list event) (cb : CircuitBreaker) : CircuitBreaker :=
  fold_left step tr cb.

(** Number of failures recorded since the last recorded success. *)
Definition count_step (n : Z) (e : event) : Z :=
  match e with
  | Admission _ => n
  | Success => 0
  | Failure _ => n + 1
  end.

Definition consecutive_failures (tr : list event) : Z :=
  fold_left count_step tr 0.

(** The invariant of every breaker reached from a fresh one: the counter
    is the number of failures since the last success, and the breaker is
    closed exactly while fewer than five of them were recorded. *)
Definition breaker_inv (tr : list event) (cb : CircuitBreaker) : Prop :=
  failureCount cb = consecutive_failures tr
  /\ 0 <= consecutive_failures tr <= Z.of_nat (length tr)
  /\ (state cb = CircuitClosed <->
      consecutive_failures tr < circuitBreakerFailureThreshold).

End Breaker.

(* ===================================================================== *)
(** ** Strings and errors *)
(* ===================================================================== *)

Module GoStrings.

Local Open Scope string_scope.

(** [strings.Contains(s, substr)] *)
Fixpoint Contains (s substr : string) : bool :=
  String.prefix substr s
  || match s with
     | EmptyString => false
     | String _ s' => Contains s' substr
     end.

(** [fmt.Sprintf("%d", n)] *)
Definition itoa (n : Z) : string := NilZero.string_of_int (Z.to_int n).

End GoStrings.

Module Errors.

Local Open Scope string_scope.

(** Go [error] values.  [ErrorString] stands for [errors.New] and for the
    errors of the standard library (transport, JSON, context), known by
    their message; [Wrapped p e] is [fmt.Errorf(p + "%w", e)]; the other
    three are the error structs built by [NewAuthError],
    [NewNetworkError] and [NewProxyError]. *)
Inductive error : Type :=
| ErrorString (msg : string)
| Wrapped (prefix : string) (cause : error)
| AuthenticationError (msg : string) (cause : option error)
| NetworkError (op url msg : string) (cause : option error)
| ProxyError (op msg : string) (cause : option error).

(** The [Error()] methods of the three error structs live in
    [internal/errors.go], which is not part of the sources at hand: the
    text they print is a parameter of the development. *)
Class ErrorText : Type := {
  authErrorText    : string -> option string -> string;
  networkErrorText : string -> string -> string -> option string -> string;
  proxyErrorText   : string -> string -> option string -> string
}.

(** [err.Error()] *)
Fixpoint Error `{T : ErrorText} (e : error) : string :=
  match e with
  | ErrorString msg => msg
  | Wrapped prefix cause => prefix ++ Error cause
  | AuthenticationError msg cause =>
      authErrorText msg
        (match cause with Some c => Some (Error c) | None => None end)
  | NetworkError op url msg cause =>
      networkErrorText op url msg
        (match cause with Some c => Some (Error c) | None => None end)
  | ProxyError op msg cause =>
      proxyErrorText op msg
        (match cause with Some c => Some (Error c) | None => None end)
  end.

(** Modelled from the spec: the [Error()] methods of
    [internal/errors.go] (missing).  The specification has the proxy
    handler recognise authentication failures by the substring
    [authentication error] and has the message of an [AuthError] contain
    the text it was built with; the other two are rendered the same way. *)
Definition specErrorText : ErrorText :=
  let with_cause (s : string) (c : option string) :=
    match c with Some t => s ++ ": " ++ t | None => s end in
  {| authErrorText msg c := with_cause ("authentication error: " ++ msg) c;
     networkErrorText op url msg c :=
       with_cause ("network error during " ++ op ++ " to " ++ url ++ ": " ++ msg) c;
     proxyErrorText op msg c :=
       with_cause ("proxy error in " ++ op ++ ": " ++ msg) c |}.

(** [context.Canceled] and [context.DeadlineExceeded] *)
Definition context_Canceled : error := ErrorString "context canceled".
Definition context_DeadlineExceeded : error :=
  ErrorString "context deadline exceeded".

End Errors.

(* ===================================================================== *)
(** ** The world around the service: upstream replies, timers, clock *)
(* ===================================================================== *)

Module World.
Import Errors.

(** [tokenResponse] *)
Record tokenResponse : Type := {
  AccessToken : string;
  tr_Error    : string;
  ErrorDesc   : string
}.

(** [copilotTokenResponse] *)
Record copilotTokenResponse : Type := {
  Token         : string;
  ctr_ExpiresAt : Z;
  ctr_RefreshIn : Z
}.

(** The [data] object of the credential store's answer. *)
Record storeData : Type := {
  sd_GithubToken  : string;
  sd_CopilotToken : string;
  sd_ExpiresAt    : Z;
  sd_RefreshIn    : Z
}.

(** Requests handed to [httpClient.Do]. *)
Inductive request : Type :=
| PostToken (deviceCode userAgent : string)
| GetCopilotToken (githubToken userAgent : string)
| StoreFetch (email : string)
| StoreUpdate (email githubToken copilotToken : string)
              (expiresAt refreshIn : Z)
| Upstream (method url : string) (headers : list (string * string))
           (body : list Byte.byte).

(** What the service does to the outside, in the order it does it;
    the duration of a wait is in nanoseconds, as [time.Duration].
    [Entered] is a ghost mark left on entry into a routine, so that
    "the routine was called" can be stated; [DoneSent] is the send of a
    worker's answer on the [done] channel of its request. *)
Inductive event : Type :=
| Do (r : request)
| Wait (duration : Z)
| CalledRefreshFunc
| Entered (routine : string)
| DoneSent (err : option error).

(** An answer of [httpClient.Do] followed by [json.Decode] into [A]:
    a transport error, or a response with its status, the outcome of
    reading its body as text and of decoding it. *)
Inductive reply (A : Type) : Type :=
| DoError (e : error)
| Response (status : Z) (text : error + string) (decoded : error + A).
Arguments DoError {A} e.
Arguments Response {A} status text decoded.

(** An answer of the upstream completions service. *)
Inductive upstreamReply : Type :=
| UpstreamError (e : error)
| UpstreamResponse (status : Z).

(** The environment: every answer is a function of what was done so
    far (most recent event first).  [clock] is [time.Now().Unix()],
    [nanotime] is [time.Now()] in nanoseconds, [ctxDone] tells whether the
    context is done before a timer fires, [copyBody] is the outcome of
    copying an upstream response body to the client. *)
Class Env : Type := {
  clock         : list event -> Z;
  replyToken    : list event -> reply tokenResponse;
  replyCopilot  : list event -> reply copilotTokenResponse;
  replyFetch    : list event -> reply (bool * storeData);
  replyUpdate   : list event -> reply bool;
  replyUpstream : list event -> upstreamReply;
  newRequestErr : request -> option error;
  ctxDone       : list event -> option error;
  databaseURL   : string;
  nanotime      : list event -> Z;
  copyBody      : list event -> option error
}.

(** A computation either returns or panics. *)
Inductive outcome (A : Type) : Type :=
| Ret (a : A)
| Panic (v : string).
Arguments Ret {A} a.
Arguments Panic {A} v.

(** State ([list event], most recent first) and panic monad. *)
Definition M (A : Type) : Type := list event -> outcome A * list event.

Definition ret {A} (a : A) : M A := fun h => (Ret a, h).

Definition bind {A B} (m : M A) (k : A -> M B) : M B :=
  fun h =>
    match m h with
    | (Ret a, h') => k a h'
    | (Panic v, h') => (Panic v, h')
    end.

Definition panic {A} (v : string) : M A := fun h => (Panic v, h).

Definition emit (e : event) : M unit := fun h => (Ret tt, e :: h).

Definition ask {A} (f : list event -> A) : M A := fun h => (Ret (f h), h).

(** A computation extends the history it starts from. *)
Definition grows {A} (m : M A) : Prop :=
  forall h, h `suffix_of` snd (m h).

Declare Scope go_scope.
Delimit Scope go_scope with go.
Notation "x <- m ;; k" := (bind m (fun x => k))
  (at level 100, m at next level, right associativity) : go_scope.
Notation "m ;;; k" := (bind m (fun _ => k))
  (at level 100, right associativity) : go_scope.

(** [context.Context]: [context.Background()] is never done; any other
    context is done when the environment says so. *)
Inductive Context : Type :=
| Background
| Cancellable.

(** [select { case <-time.After(d): ...; case <-ctx.Done(): ... }]:
    [None] when the timer fires, [Some ctx.Err()] when the context is
    done first. *)
Definition selectTimer `{E : Env} (ctx : Context) (duration : Z)
  : M (option error) :=
  (emit (Wait duration) ;;;
   match ctx with
   | Background => ret None
   | Cancellable => ask ctxDone
   end)%go.

(** [s.httpClient.Do(req)] and the decoding of its answer. *)
Definition httpDo `{E : Env} {A} (r : request)
  (answer : list event -> reply A) : M (reply A) :=
  (emit (Do r) ;;; ask answer)%go.

(** *** Reading a history *)

Definition isWait (e : event) : bool :=
  match e with Wait _ => true | _ => false end.

Definition isCopilotRequest (e : event) : bool :=
  match e with Do (GetCopilotToken _ _) => true | _ => false end.

Definition isTokenRequest (e : event) : bool :=
  match e with Do (PostToken _ _) => true | _ => false end.

(** Number of events of a kind in a history. *)
Fixpoint count (p : event -> bool) (h : list event) : Z :=
  match h with
  | [] => 0
  | e :: h' => (if p e then 1 else 0) + count p h'
  end.

Definition isRequest (e : event) : bool :=
match e with Do _ => true | _ => false end.

Definition isDoneSent (e : event) : bool :=
match e with DoneSent _ => true | _ => false end.

(** A computation adds no event of the kind [p] to the history. *)
Definition silent {A} (p : event -> bool) (m : M A) : Prop :=
forall h, count p (snd (m h)) = count p h.

(** Durations of the waits of a history, most recent first. *)
Fixpoint waits (h : list event) : list Z :=
  match h with
  | [] => []
  | Wait d :: h' => d :: waits h'
  | _ :: h' => waits h'
  end.

End World.

(* ===================================================================== *)
(** ** Auth service ([internal/config.go]) *)
(* ===================================================================== *)

Module Auth.
Import GoStrings Errors World.
Local Open Scope string_scope.

Definition copilotAPIKeyURL : string :=
  "https://api.github.com/copilot_internal/v2/token".

(** Retry configuration *)
Definition maxRefreshRetries : Z := 3.
Definition baseRetryDelay : Z := 2.

Definition time_Second : Z := 1000000000.

(** [Config.Headers] *)
Record HeadersConfig : Type := {
  UserAgent            : string;
  EditorVersion        : string;
  EditorPluginVersion  : string;
  CopilotIntegrationID : string;
  OpenaiIntent         : string;
  XInitiator           : string
}.

(** [Config.CORS] *)
Record CORSConfig : Type := {
  AllowedOrigins : list string;
  AllowedHeaders : list string
}.

(** [Config.Timeouts]: the two knobs the data plane reads. *)
Record TimeoutsConfig : Type := {
  ProxyContext   : Z;
  CircuitBreaker : Z
}.

(** [type Config struct] *)
Record Config : Type := {
  Port          : Z;
  GitHubToken   : string;
  CopilotToken  : string;
  ExpiresAt     : Z;
  RefreshIn     : Z;
  AllowedModels : list string;
  Headers       : HeadersConfig;
  CORS          : CORSConfig;
  Timeouts      : TimeoutsConfig
}.

(** [cfg.GitHubToken = t] *)
Definition setGitHubToken (cfg : Config) (t : string) : Config :=
  {| Port := Port cfg; GitHubToken := t; CopilotToken := CopilotToken cfg;
     ExpiresAt := ExpiresAt cfg; RefreshIn := RefreshIn cfg;
     AllowedModels := AllowedModels cfg; Headers := Headers cfg;
     CORS := CORS cfg; Timeouts := Timeouts cfg |}.

(** [cfg.CopilotToken = t; cfg.ExpiresAt = e; cfg.RefreshIn = r] *)
Definition setCopilotToken (cfg : Config) (t : string) (e r : Z) : Config :=
  {| Port := Port cfg; GitHubToken := GitHubToken cfg; CopilotToken := t;
     ExpiresAt := e; RefreshIn := r;
     AllowedModels := AllowedModels cfg; Headers := Headers cfg;
     CORS := CORS cfg; Timeouts := Timeouts cfg |}.

(** The [&Config{...}] built from a credential record: every other field
    has its zero value. *)
Definition configOfStore (d : storeData) : Config :=
  {| Port := 0; GitHubToken := sd_GithubToken d;
     CopilotToken := sd_CopilotToken d;
     ExpiresAt := sd_ExpiresAt d; RefreshIn := sd_RefreshIn d;
     AllowedModels := [];
     Headers := {| UserAgent := ""; EditorVersion := "";
                   EditorPluginVersion := ""; CopilotIntegrationID := "";
                   OpenaiIntent := ""; XInitiator := "" |};
     CORS := {| AllowedOrigins := []; AllowedHeaders := [] |};
     Timeouts := {| ProxyContext := 0; CircuitBreaker := 0 |} |}.

(** [type AuthService struct]: the injected refresh routine, if any.  It
    receives the configuration by pointer: it returns the configuration
    it leaves behind together with its error. *)
Record AuthService : Type := {
  refreshFunc : option (Config -> Config * option error)
}.

(** [getCopilotToken].  The log line takes [githubToken[:10]] before the
    request is sent, which panics on a shorter token. *)
Definition getCopilotToken `{E : Env} (cfg : Config) (githubToken : string)
  : M (string * Z * Z * option error) :=
  if (String.length githubToken <? 10)%nat
  then panic "runtime error: slice bounds out of range"
  else
    (r <- httpDo (GetCopilotToken githubToken (UserAgent (Headers cfg)))
                 replyCopilot ;;
     match r with
     | DoError e => ret ("", 0, 0, Some e)
     | Response status text decoded =>
         if negb (status =? 200)%Z
         then
           let errMsg :=
             match text with
             | inr (String c b) =>
                 Some (ErrorString ("response body: " ++ String c b))
             | _ => None
             end in
           ret ("", 0, 0,
                Some (NetworkError "get_copilot_token" copilotAPIKeyURL
                        ("HTTP " ++ itoa status ++ " response") errMsg))
         else
           match decoded with
           | inl e => ret ("", 0, 0, Some e)
           | inr ctr =>
               ret (Token ctr, ctr_ExpiresAt ctr, ctr_RefreshIn ctr, None)
           end
     end)%go.

(** [updateTokenInDatabase] *)
Definition updateTokenInDatabase `{E : Env} (email : string) (cfg : Config)
  : M (bool * option error) :=
  let req := StoreUpdate email (GitHubToken cfg) (CopilotToken cfg)
               (ExpiresAt cfg) (RefreshIn cfg) in
  match newRequestErr req with
  | Some e => ret (false, Some e)
  | None =>
    (r <- httpDo req replyUpdate ;;
     match r with
     | DoError e => ret (false, Some e)
     | Response status _ decoded =>
         if negb (status =? 200)%Z
         then ret (false,
                   Some (NetworkError "updateTokenInDatabase" databaseURL
                           ("HTTP " ++ itoa status ++ " response") None))
         else
           match decoded with
           | inl e => ret (false, Some e)
           | inr success =>
               if negb success
               then ret (false,
                         Some (AuthenticationError
                                 "failed to update token in database" None))
               else ret (true, None)
           end
     end)%go
  end.

(** [fetchTokenFromDatabase] *)
Definition fetchTokenFromDatabase `{E : Env} (email : string)
  : M (option Config * option error) :=
  let url := databaseURL ++ "?email=" ++ email in
  match newRequestErr (StoreFetch email) with
  | Some e => ret (None, Some e)
  | None =>
    (r <- httpDo (StoreFetch email) replyFetch ;;
     match r with
     | DoError e => ret (None, Some e)
     | Response status _ decoded =>
         if (status =? 404)%Z
         then ret (None,
                   Some (AuthenticationError "user not found in database"
                           None))
         else if negb (status =? 200)%Z
         then ret (None,
                   Some (NetworkError "fetchTokenFromDatabase" url
                           ("HTTP " ++ itoa status ++ " response") None))
         else
           match decoded with
           | inl e => ret (None, Some e)
           | inr (success, d) =>
               if negb success
               then ret (None,
                         Some (AuthenticationError
                                 "failed to fetch token from database" None))
               else ret (Some (configOfStore d), None)
           end
     end)%go
  end.

(** [time.Duration(baseRetryDelay*attempt*attempt) * time.Second] *)
Definition backoff (attempt : Z) : Z :=
  Int64.wrap (Int64.wrap (baseRetryDelay * attempt * attempt) * time_Second).

(** The body of the [for attempt := 1; attempt <= maxRefreshRetries;
    attempt++] loop of [RefreshTokenWithContext]; [n] is the number of
    iterations the loop condition still allows. *)
Fixpoint refreshLoop `{E : Env} (n : nat) (attempt : Z) (ctx : Context)
  (email : string) (cfg : Config) : M (Config * option error) :=
  match n with
  | O => ret (cfg, Some (AuthenticationError
                           "maximum retry attempts exceeded" None))
  | S n' =>
    (p <- getCopilotToken cfg (GitHubToken cfg) ;;
     let '(copilotToken, expiresAt, refreshIn, err) := p in
     match err with
     | Some e =>
         if (attempt =? maxRefreshRetries)%Z
         then ret (cfg, Some e)
         else
           let waitTime := backoff attempt in
           (c <- selectTimer ctx waitTime ;;
            match c with
            | None => refreshLoop n' (attempt + 1) ctx email cfg
            | Some ctxErr => ret (cfg, Some ctxErr)
            end)
     | None =>
         let cfg' := setCopilotToken cfg copilotToken expiresAt refreshIn in
         (u <- updateTokenInDatabase email cfg' ;;
          match snd u with
          | Some e =>
              ret (cfg', Some (Wrapped
                                 "failed to update token in database: " e))
          | None => ret (cfg', None)
          end)
     end)%go
  end.

(** [RefreshTokenWithContext] *)
Definition RefreshTokenWithContext `{E : Env} (s : AuthService) (ctx : Context)
  (email : string) (cfg : Config) : M (Config * option error) :=
  (emit (Entered "RefreshTokenWithContext") ;;;
   match refreshFunc s with
   | Some f => emit CalledRefreshFunc ;;; ret (f cfg)
   | None =>
       if GitHubToken cfg =? ""
       then ret (cfg, Some (AuthenticationError
                              "no GitHub token available for refresh" None))
       else refreshLoop (Z.to_nat maxRefreshRetries) 1 ctx email cfg
   end)%go.

(** [RefreshToken] *)
Definition RefreshToken `{E : Env} (s : AuthService) (email : string)
  (cfg : Config) : M (Config * option error) :=
  RefreshTokenWithContext s Background email cfg.

(** [EnsureValidTokenWithConfig] *)
Definition EnsureValidTokenWithConfig `{E : Env} (s : AuthService)
  (email : string) (cfg : Config) : M (option Config * option error) :=
  (now <- ask clock ;;
   if CopilotToken cfg =? ""
   then ret (None, Some (AuthenticationError
                           "no token available - authentication required"
                           None))
   else if (ExpiresAt cfg <=? Int64.wrap (now + 300))%Z
   then
     (r <- RefreshToken s email cfg ;;
      match snd r with
      | Some e => ret (None, Some e)
      | None => ret (Some (fst r), None)
      end)
   else ret (Some cfg, None))%go.

(** [EnsureValidToken] *)
Definition EnsureValidToken `{E : Env} (s : AuthService) (email : string)
  (baseConfig : option Config) : M (option Config * option error) :=
  (f <- fetchTokenFromDatabase email ;;
   match f with
   | (_, Some e) =>
       ret (None, Some (Wrapped "failed to fetch token from database: " e))
   | (None, None) => panic "runtime error: nil pointer dereference"
   | (Some cfg, None) =>
       let cfg :=
         match baseConfig with
         | Some b =>
             {| Port := Port b; GitHubToken := GitHubToken cfg;
                CopilotToken := CopilotToken cfg;
                ExpiresAt := ExpiresAt cfg; RefreshIn := RefreshIn cfg;
                AllowedModels := AllowedModels b; Headers := Headers b;
                CORS := CORS b; Timeouts := Timeouts b |}
         | None => cfg
         end in
       EnsureValidTokenWithConfig s email cfg
   end)%go.

(** [(expiresIn / interval) + 1], on Go's [int]: the quotient truncates. *)
Definition maxIterations (expiresIn interval : Z) : Z :=
Int64.wrap (Int64.wrap (Z.quot expiresIn interval) + 1).

(** The bound on the iterations as the specification words it:
    the ceiling of [expires_in / interval], plus one. *)
Definition spec_maxIterations (expiresIn interval : Z) : Z :=
(expiresIn + interval - 1) / interval + 1.

(** The body of the [for range maxIterations] loop of
    [pollForGitHubTokenWithContext]; [n] iterations are left. *)
Fixpoint pollLoop `{E : Env} (n : nat) (ctx : Context) (cfg : Config)
  (deviceCode : string) (interval : Z) : M (string * option error) :=
match n with
| O => ret ("", Some (AuthenticationError "authentication timed out" None))
| S n' =>
  (c <- selectTimer ctx (Int64.wrap (interval * time_Second)) ;;
   match c with
   | Some ctxErr => ret ("", Some ctxErr)
   | None =>
     (r <- httpDo (PostToken deviceCode (UserAgent (Headers cfg)))
                  replyToken ;;
      match r with
      | DoError _ => pollLoop n' ctx cfg deviceCode interval
      | Response _ _ (inl _) => pollLoop n' ctx cfg deviceCode interval
      | Response _ _ (inr tr) =>
          if negb (tr_Error tr =? "")
          then
            if tr_Error tr =? "authorization_pending"
            then pollLoop n' ctx cfg deviceCode interval
            else ret ("", Some (AuthenticationError
                                  ("authorization failed: " ++ tr_Error tr
                                   ++ " - " ++ ErrorDesc tr) None))
          else if negb (AccessToken tr =? "")
          then ret (AccessToken tr, None)
          else pollLoop n' ctx cfg deviceCode interval
      end)
   end)%go
end.

(** [pollForGitHubTokenWithContext] *)
Definition pollForGitHubTokenWithContext `{E : Env} (ctx : Context)
  (cfg : Config) (deviceCode : string) (interval expiresIn : Z)
  : M (string * option error) :=
if (interval =? 0)%Z
then panic "runtime error: integer divide by zero"
else pollLoop (Z.to_nat (maxIterations expiresIn interval)) ctx cfg
       deviceCode interval.

(** [pollForGitHubToken] *)
Definition pollForGitHubToken `{E : Env} (cfg : Config)
  (deviceCode : string) (interval expiresIn : Z)
  : M (string * option error) :=
pollForGitHubTokenWithContext Background cfg deviceCode interval expiresIn.

(** [checkGitHubTokenOnce] *)
Definition checkGitHubTokenOnce `{E : Env} (cfg : Config)
  (deviceCode : string) : M (string * option error) :=
(r <- httpDo (PostToken deviceCode (UserAgent (Headers cfg))) replyToken ;;
 match r with
 | DoError e => ret ("", Some e)
 | Response _ _ (inl e) => ret ("", Some e)
 | Response _ _ (inr tr) =>
     if negb (tr_Error tr =? "")
     then ret ("", Some (AuthenticationError (tr_Error tr) None))
     else if negb (AccessToken tr =? "")
     then ret (AccessToken tr, None)
     else ret ("", Some (AuthenticationError "no access token in response"
                           None))
 end)%go.

(** Steps 3 and 4 of [AuthenticateStage2], once the GitHub token is
    there: exchange it for a Copilot token and save the record. *)
Definition afterCheck `{E : Env} (email : string) (cfg : Config)
  (githubToken : string) : M (Config * option error) :=
let cfg := setGitHubToken cfg githubToken in
(c <- getCopilotToken cfg githubToken ;;
 let '(copilotToken, expiresAt, refreshIn, err) := c in
 match err with
 | Some e => ret (cfg, Some (Wrapped "failed to get Copilot token: " e))
 | None =>
   let cfg := setCopilotToken cfg copilotToken expiresAt refreshIn in
   (u <- updateTokenInDatabase email cfg ;;
    match snd u with
    | Some e =>
        ret (cfg, Some (Wrapped "failed to save token to database: " e))
    | None => ret (cfg, None)
    end)
 end)%go.

(** [AuthenticateStage2]; the configuration is updated in place and comes
    back with the error. *)
Definition AuthenticateStage2 `{E : Env} (email deviceCode : string)
  (interval expiresIn : Z) (cfg : Config) (pollMode : bool)
  : M (Config * option error) :=
(g <- (if pollMode
       then
         (p <- pollForGitHubToken cfg deviceCode interval expiresIn ;;
          match snd p with
          | Some e => ret (fst p, Some (Wrapped "failed to get GitHub token: " e))
          | None => ret (fst p, None)
          end)
       else
         (p <- checkGitHubTokenOnce cfg deviceCode ;;
          match snd p with
          | Some e => ret (fst p, Some (Wrapped "failed to check GitHub token: " e))
          | None => ret (fst p, None)
          end)) ;;
 match snd g with
 | Some e => ret (cfg, Some e)
 | None => afterCheck email cfg (fst g)
 end)%go.

End Auth.

(* ===================================================================== *)
(** ** Stage-2 HTTP handler ([unnamed/part_006]) *)
(* ===================================================================== *)

Module AuthAPI.
Import GoStrings Errors World Auth.
Local Open Scope string_scope.

(** [Stage2Request] *)
Record Stage2Request : Type := {
  Email      : string;
  DeviceCode : string;
  Interval   : Z;
  ExpiresIn  : Z;
  PollMode   : bool
}.

(** An incoming request: its method and what [io.ReadAll(r.Body)] gives. *)
Record httpRequest : Type := {
  Method : string;
  Body   : error + list Byte.byte
}.

(** [Stage2Response], with the status code it is written with. *)
Record Stage2Response : Type := {
  StatusCode : Z;
  Success    : bool;
  Message    : string;
  resp_Error : string;
  Data       : option (string * string * Z * Z)
}.

(** Library functions of the handler: [json.Unmarshal] into a
    [Stage2Request] and the match against [emailRegex]. *)
Class Lib : Type := {
  unmarshalStage2 : list Byte.byte -> error + Stage2Request;
  isValidEmail    : string -> bool
}.

(** [sendStage2ErrorResponse] *)
Definition sendStage2ErrorResponse (statusCode : Z) (message : string)
  : Stage2Response :=
{| StatusCode := statusCode; Success := false; Message := "";
   resp_Error := message; Data := None |}.

(** [sendStage2PendingResponse] *)
Definition sendStage2PendingResponse : Stage2Response :=
{| StatusCode := 202; Success := false; Message := "";
   resp_Error := "authorization_pending"; Data := None |}.

(** [Stage2Handler]: the response written, and the service's configuration
    as the call leaves it. *)
Definition Stage2Handler `{E : Env} `{T : ErrorText} `{L : Lib}
  (s : AuthService) (config : Config) (r : httpRequest)
  : M (Stage2Response * Config) :=
if negb (Method r =? "POST")
then ret (sendStage2ErrorResponse 405 "method not allowed", config)
else
  match Body r with
  | inl _ => ret (sendStage2ErrorResponse 400 "failed to read request body",
                  config)
  | inr body =>
    match unmarshalStage2 body with
    | inl _ => ret (sendStage2ErrorResponse 400 "invalid JSON format", config)
    | inr req =>
      if Email req =? ""
      then ret (sendStage2ErrorResponse 400 "email is required", config)
      else if negb (isValidEmail (Email req))
      then ret (sendStage2ErrorResponse 400 "invalid email format", config)
      else if DeviceCode req =? ""
      then ret (sendStage2ErrorResponse 400 "device_code is required", config)
      else if (Interval req <=? 0)%Z
      then ret (sendStage2ErrorResponse 400 "interval must be positive",
                config)
      else
        (a <- AuthenticateStage2 (Email req) (DeviceCode req) (Interval req)
                (ExpiresIn req) config (PollMode req) ;;
         let config := fst a in
         match snd a with
         | Some err =>
             if negb (PollMode req)
                && Contains (Error err) "authorization_pending"
             then ret (sendStage2PendingResponse, config)
             else ret (sendStage2ErrorResponse 500 (Error err), config)
         | None =>
           (f <- fetchTokenFromDatabase (Email req) ;;
            match f with
            | (Some cfg, None) =>
                ret ({| StatusCode := 200; Success := true;
                        Message := "authentication completed successfully";
                        resp_Error := "";
                        Data := Some (Email req, CopilotToken cfg,
                                      ExpiresAt cfg, RefreshIn cfg) |},
                     config)
            | _ =>
                ret (sendStage2ErrorResponse 500
                       "authentication succeeded but failed to retrieve token info",
                     config)
            end)
         end)%go
    end
  end.

End AuthAPI.

(* ===================================================================== *)
(** ** Proxy engine ([internal/proxy.go]) *)
(* ===================================================================== *)

Module Proxy.
Import GoStrings Errors World Auth Breaker.
Local Open Scope string_scope.

Definition copilotAPIBase : string := "https://api.githubcopilot.com".
Definition chatCompletionsPath : string := "/chat/completions".

(** Retry configuration for chat completions *)
Definition maxChatRetries : Z := 3.
Definition baseChatRetryDelay : Z := 1.

(** Request configuration *)
Definition maxRequestBodySize : Z := 5 * 1024 * 1024.

(** Status code ranges *)
Definition statusCodeServerError : Z := 500.
Definition statusCodeTooManyRequests : Z := 429.
Definition statusCodeRequestTimeout : Z := 408.

(** [isRetriableError] *)
Definition isRetriableError (statusCode : Z) (err : option error) : bool :=
match err with
| Some _ => true
| None =>
    (statusCodeServerError <=? statusCode)%Z
    || (statusCode =? statusCodeTooManyRequests)%Z
    || (statusCode =? statusCodeRequestTimeout)%Z
end.

(** [time.Duration(baseChatRetryDelay*attempt*attempt) * time.Second] *)
Definition retryDelay (attempt : Z) : Z :=
Int64.wrap (Int64.wrap (baseChatRetryDelay * attempt * attempt)
            * Auth.time_Second).

(** The [for attempt := 1; attempt <= maxChatRetries; attempt++] loop of
    [makeRequestWithRetry], with [n] iterations left; a response is its
    status code. *)
Fixpoint retryLoop `{E : Env} (n : nat) (attempt : Z) (ctx : Context)
  (req : request) (lastResp : option Z) (lastErr : option error)
  : M (option Z * option error) :=
match n with
| O => ret (lastResp, lastErr)
| S n' =>
  match newRequestErr req with
  | Some err => ret (None, Some err)
  | None =>
    (emit (Do req) ;;;
     r <- ask replyUpstream ;;
     match r with
     | UpstreamError err =>
         if (attempt =? maxChatRetries)%Z
         then ret (None, Some err)
         else
           (c <- selectTimer ctx (retryDelay attempt) ;;
            match c with
            | None => retryLoop n' (attempt + 1) ctx req lastResp (Some err)
            | Some ctxErr => ret (None, Some ctxErr)
            end)
     | UpstreamResponse status =>
         if negb (isRetriableError status None)
         then ret (Some status, None)
         else if (attempt =? maxChatRetries)%Z
         then ret (Some status, None)
         else
           (c <- selectTimer ctx (retryDelay attempt) ;;
            match c with
            | None => retryLoop n' (attempt + 1) ctx req (Some status) lastErr
            | Some ctxErr => ret (None, Some ctxErr)
            end)
     end)%go
  end
end.

(** [makeRequestWithRetry] *)
Definition makeRequestWithRetry `{E : Env} (ctx : Context) (req : request)
  : M (option Z * option error) :=
retryLoop (Z.to_nat maxChatRetries) 1 ctx req None None.

(** An incoming proxy request: method, path, and the bytes of its body as
    the client sends them (or the error of reading them). *)
Record proxyRequest : Type := {
  Method : string;
  Path   : string;
  Body   : error + list Byte.byte
}.

(** [io.ReadAll] on [http.MaxBytesReader(w, r.Body, maxRequestBodySize)] *)
Definition readBody (r : proxyRequest) : error + list Byte.byte :=
match Body r with
| inl e => inl e
| inr b =>
    if (maxRequestBodySize <? Z.of_nat (length b))%Z
    then inl (ErrorString "http: request body too large")
    else inr b
end.

(** [json.Unmarshal] of the body into [struct { Model string }]. *)
Class ProxyLib : Type := {
  unmarshalModel : list Byte.byte -> error + string
}.

(** [type ProxyService struct].  [proxy.go] calls
    [s.authService.EnsureValidToken(s.config)], with one argument and an
    error for result, which is not the method of the same name in
    [config.go]: the call is a field here. *)
Record ProxyService : Type := {
  config           : Config;
  ensureValidToken : Config -> M (option error)
}.

(** What a request changes: the breaker, the [headersSent] flag of the
    [responseWrapper], and the status written on the underlying writer. *)
Record requestState : Type := {
  circuitBreaker : CircuitBreaker;
  headersSent    : bool;
  wroteHeader    : option Z
}.

(** [(rw *responseWrapper) WriteHeader] *)
Definition WriteHeader (statusCode : Z) (st : requestState) : requestState :=
if headersSent st then st
else {| circuitBreaker := circuitBreaker st; headersSent := true;
        wroteHeader := match wroteHeader st with
                       | Some c => Some c
                       | None => Some statusCode
                       end |}.

(** [http.Error(w, msg, code)] on the underlying writer. *)
Definition http_Error (code : Z) (st : requestState) : requestState :=
{| circuitBreaker := circuitBreaker st; headersSent := headersSent st;
   wroteHeader := match wroteHeader st with
                  | Some c => Some c
                  | None => Some code
                  end |}.

Definition withBreaker (cb : CircuitBreaker) (st : requestState)
  : requestState :=
{| circuitBreaker := cb; headersSent := headersSent st;
   wroteHeader := wroteHeader st |}.

(** The headers set on the upstream request. *)
Definition upstreamHeaders (cfg : Config) : list (string * string) :=
[("Authorization", "Bearer " ++ CopilotToken cfg);
 ("Content-Type", "application/json");
 ("Accept", "application/json");
 ("User-Agent", UserAgent (Headers cfg));
 ("Editor-Version", EditorVersion (Headers cfg));
 ("Editor-Plugin-Version", EditorPluginVersion (Headers cfg));
 ("Copilot-Integration-Id", CopilotIntegrationID (Headers cfg));
 ("Openai-Intent", OpenaiIntent (Headers cfg));
 ("X-Initiator", XInitiator (Headers cfg))].

(** [processProxyRequest].  The copy of the response body
    ([handleStreamingResponse], [handleRegularResponse]) is the
    environment's [copyBody]. *)
Definition processProxyRequest `{E : Env} `{T : ErrorText} `{P : ProxyLib}
  (s : ProxyService) (ctx : Context) (r : proxyRequest) (st : requestState)
  : M (option error * requestState) :=
if negb (Method r =? "POST")
then ret (Some (ErrorString ("method not allowed: " ++ Method r)), st)
else
  match readBody r with
  | inl err =>
      if Contains (Error err) "http: request body too large"
      then ret (Some (Wrapped "payload too large: " err), st)
      else ret (Some (Wrapped "bad request: failed to read request body: "
                        err), st)
  | inr body =>
    if (length body =? 0)%nat
    then ret (Some (ErrorString "bad request: empty request body"), st)
    else
      match unmarshalModel body with
      | inl jsonErr =>
          ret (Some (Wrapped "bad request: invalid JSON: " jsonErr), st)
      | inr model =>
        if (0 <? length (AllowedModels (config s)))%nat
           && negb (existsb (String.eqb model) (AllowedModels (config s)))
        then ret (Some (ErrorString
                          ("bad request: model '" ++ model
                           ++ "' is not allowed by allowed_models in config")),
                  st)
        else
          (tokenErr <- ensureValidToken s (config s) ;;
           match tokenErr with
           | Some e =>
               ret (Some (AuthenticationError "token validation failed"
                            (Some e)), st)
           | None =>
             let target :=
               if Path r =? "/v1/completions"
               then Some (copilotAPIBase ++ "/completions")
               else if Path r =? "/v1/chat/completions"
               then Some (copilotAPIBase ++ chatCompletionsPath)
               else None in
             match target with
             | None =>
                 ret (Some (ErrorString ("unsupported proxy path: "
                                         ++ Path r)), st)
             | Some targetURL =>
               let req := Upstream (Method r) targetURL
                            (upstreamHeaders (config s)) body in
               match newRequestErr req with
               | Some err =>
                   ret (Some (ProxyError "create_request"
                                "failed to create proxy request" (Some err)),
                        st)
               | None =>
                 (p <- makeRequestWithRetry ctx req ;;
                  now <- ask nanotime ;;
                  match p with
                  | (_, Some err) =>
                      ret (Some (NetworkError "proxy_request" targetURL
                                   "failed to complete request after retries"
                                   (Some err)),
                           withBreaker (onFailure now (circuitBreaker st)) st)
                  | (None, None) =>
                      panic "runtime error: nil pointer dereference"
                  | (Some status, None) =>
                      let cb :=
                        if (status <? statusCodeServerError)%Z
                        then onSuccess (circuitBreaker st)
                        else onFailure now (circuitBreaker st) in
                      let st := WriteHeader status (withBreaker cb st) in
                      (copyErr <- ask copyBody ;;
                       ret (copyErr, st))
                  end)
               end
             end
           end)%go
      end
  end.

(** The error-to-status switch of [Handler]. *)
Definition statusOfError (msg : string) : Z :=
if Contains msg "authentication error" then 401
else if Contains msg "token validation failed" then 401
else if Contains msg "bad request" then 400
else if Contains msg "method not allowed" then 405
else 500.

(** The closure [Handler] submits to the worker pool: it sends on [done]
    the error of [processProxyRequest], or a proxy error when that
    panicked.  Only the token check can panic, before the breaker or the
    writer are touched. *)
Definition job `{E : Env} `{T : ErrorText} `{P : ProxyLib}
  (s : ProxyService) (ctx : Context) (r : proxyRequest) (st : requestState)
  : M (option error * requestState) :=
fun h =>
  match processProxyRequest s ctx r st h with
  | (Ret res, h') => (Ret res, h')
  | (Panic v, h') =>
      (Ret (Some (ProxyError "request_processing"
                    "worker panic during request processing"
                    (Some (ErrorString ("panic: " ++ v)))), st), h')
  end.

(** The same closure as the worker pool sees it, a [func()]: its answer
    goes on the [done] channel. *)
Definition closure `{E : Env} `{T : ErrorText} `{P : ProxyLib}
  (s : ProxyService) (ctx : Context) (r : proxyRequest) (st : requestState)
  : M unit :=
(d <- job s ctx r st ;; emit (DoneSent (fst d)))%go.

(** Which case of the final [select] of [Handler] fires: the worker's
    answer on [done], or the deadline, the worker having or not having
    sent the headers by then. *)
Inductive selected : Type :=
| DoneReceived
| DeadlineExpired (headersSentByThen : bool).

(** [Handler]: the status line the client gets, if one was written by the
    time the handler returns, and the breaker afterwards. *)
Definition Handler `{E : Env} `{T : ErrorText} `{P : ProxyLib}
  (s : ProxyService) (sel : selected) (r : proxyRequest)
  (cb : CircuitBreaker) : M (option Z * CircuitBreaker) :=
(now <- ask nanotime ;;
 let (admitted, cb) := canExecute now cb in
 let st := {| circuitBreaker := cb; headersSent := false;
              wroteHeader := None |} in
 if negb admitted
 then ret (wroteHeader (http_Error 503 st), cb)
 else
   match sel with
   | DeadlineExpired sent =>
       if negb sent
       then ret (wroteHeader (http_Error 408 st), cb)
       else ret (None, cb)
   | DoneReceived =>
     (d <- job s Cancellable r st ;;
      let '(err, st) := d in
      match err with
      | Some e =>
          if negb (headersSent st)
          then ret (wroteHeader (http_Error (statusOfError (Error e)) st),
                    circuitBreaker st)
          else ret (wroteHeader st, circuitBreaker st)
      | None => ret (wroteHeader st, circuitBreaker st)
      end)
   end)%go.

End Proxy.

(* ===================================================================== *)
(** ** Worker pool ([unnamed/part_007]) *)
(* ===================================================================== *)

Module WorkerPool.
Import World.

(** A job is a [func()]. *)
Definition Job : Type := M unit.

(** The loop of one worker goroutine, [for { select { case job :=
    <-wp.jobQueue: job(); case <-wp.quit: return } }], on the jobs it
    receives before [quit].  A job is called as it is: when it panics, so
    does the goroutine, and nothing more is served. *)
Fixpoint worker (jobs : list Job) : M unit :=
match jobs with
| [] => ret tt
| job :: rest => (job ;;; worker rest)%go
end.

End WorkerPool.

(* ===================================================================== *)
(** ** SHA-256 ([crypto/sha256], FIPS 180-4) *)
(* ===================================================================== *)

Module SHA256.
Local Open Scope Z_scope.

Definition w32 (x : Z) : Z := x mod 2 ^ 32.
Definition add32 (a b : Z) : Z := w32 (a + b).
Definition rotr (n x : Z) : Z :=
w32 (Z.lor (Z.shiftr x n) (Z.shiftl x (32 - n))).
Definition shr (n x : Z) : Z := Z.shiftr x n.

Definition Ch (x y z : Z) : Z :=
Z.lxor (Z.land x y) (Z.land (Z.lxor x (2 ^ 32 - 1)) z).
Definition Maj (x y z : Z) : Z :=
Z.lxor (Z.lxor (Z.land x y) (Z.land x z)) (Z.land y z).
Definition Sigma0 (x : Z) : Z :=
Z.lxor (Z.lxor (rotr 2 x) (rotr 13 x)) (rotr 22 x).
Definition Sigma1 (x : Z) : Z :=
Z.lxor (Z.lxor (rotr 6 x) (rotr 11 x)) (rotr 25 x).
Definition sigma0 (x : Z) : Z :=
Z.lxor (Z.lxor (rotr 7 x) (rotr 18 x)) (shr 3 x).
Definition sigma1 (x : Z) : Z :=
Z.lxor (Z.lxor (rotr 17 x) (rotr 19 x)) (shr 10 x).

(** The primes below [n], by trial division. *)
Definition isPrime (p : Z) : bool :=
(1 <? p)
&& forallb (fun d => negb (p mod d =? 0))
     (map Z.of_nat (seq 2 (Z.to_nat (Z.sqrt p) - 1))).

Definition primesBelow (n : nat) : list Z :=
List.filter isPrime (map Z.of_nat (seq 0 n)).

(** Integer cube root, found bit by bit from bit [bits - 1] down. *)
Fixpoint cbrtBits (bits : nat) (x r : Z) : Z :=
match bits with
| O => r
| S b =>
    let c := r + 2 ^ Z.of_nat b in
    cbrtBits b x (if c * c * c <=? x then c else r)
end.

(** The round constants: the first 32 bits of the fractional parts of the
    cube roots of the first 64 primes. *)
Definition K : list Z :=
map (fun p => w32 (cbrtBits 36 (p * 2 ^ 96) 0)) (primesBelow 312).

(** The initial hash value: the first 32 bits of the fractional parts of
    the square roots of the first 8 primes. *)
Definition H0 : list Z :=
map (fun p => w32 (Z.sqrt (p * 2 ^ 64))) (primesBelow 20).

(** Big-endian words of a list of octets. *)
Fixpoint words (bs : list Z) : list Z :=
match bs with
| a :: b :: c :: d :: rest =>
    (a * 2 ^ 24 + b * 2 ^ 16 + c * 2 ^ 8 + d) :: words rest
| _ => []
end.

(** The message schedule, most recent word first. *)
Fixpoint extend (n : nat) (w : list Z) : list Z :=
match n with
| O => w
| S n' =>
    let x := add32 (add32 (sigma1 (nth 1 w 0)) (nth 6 w 0))
                   (add32 (sigma0 (nth 14 w 0)) (nth 15 w 0)) in
    extend n' (x :: w)
end.

Definition round (s : list Z) (kw : Z * Z) : list Z :=
match s with
| [a; b; c; d; e; f; g; h] =>
    let t1 := add32 (add32 (add32 h (Sigma1 e)) (add32 (Ch e f g) (fst kw)))
                    (snd kw) in
    let t2 := add32 (Sigma0 a) (Maj a b c) in
    [add32 t1 t2; a; b; c; add32 d t1; e; f; g]
| _ => s
end.

Definition compress (hs : list Z) (block : list Z) : list Z :=
let w := rev (extend 48 (rev (words block))) in
let s := fold_left round (combine K w) hs in
map (fun p => add32 (fst p) (snd p)) (combine hs s).

Fixpoint blocks (fuel : nat) (bs : list Z) : list (list Z) :=
match fuel, bs with
| S f, _ :: _ => firstn 64 bs :: blocks f (skipn 64 bs)
| _, _ => []
end.

Definition bytes_be (n : nat) (x : Z) : list Z :=
map (fun i => Z.shiftr x (8 * Z.of_nat i) mod 256) (rev (seq 0 n)).

Definition pad (msg : list Z) : list Z :=
let l := Z.of_nat (length msg) in
let zeros := Z.to_nat ((55 - l) mod 64) in
msg ++ [0x80] ++ repeat 0 zeros ++ bytes_be 8 (8 * l).

Definition digest (msg : list Byte.byte) : list Byte.byte :=
let bs := pad (map (fun b => Z.of_N (Byte.to_N b)) msg) in
let hs := fold_left compress (blocks (length bs) bs) H0 in
map (fun z => match Byte.of_N (Z.to_N z) with
              | Some b => b
              | None => Byte.x00
              end)
    (flat_map (bytes_be 4) hs).

End SHA256.

(* ===================================================================== *)
(** ** Coalescing cache ([internal/proxy.go]) *)
(* ===================================================================== *)

Module Coalescing.
Local Open Scope string_scope.

(** An [interface{}] value: [nil], a [[]byte], or something else. *)
Inductive any : Type :=
| Nil
| Bytes (b : list Byte.byte)
| Str (s : string)
| Other (tag : nat).

Definition hexDigit (n : N) : ascii :=
match n with
| 0 => "0" | 1 => "1" | 2 => "2" | 3 => "3" | 4 => "4" | 5 => "5"
| 6 => "6" | 7 => "7" | 8 => "8" | 9 => "9" | 10 => "a" | 11 => "b"
| 12 => "c" | 13 => "d" | 14 => "e" | _ => "f"
end%N%char.

(** [hex.EncodeToString] *)
Fixpoint hex_EncodeToString (b : list Byte.byte) : string :=
match b with
| [] => ""
| x :: rest =>
    String (hexDigit (Byte.to_N x / 16))
      (String (hexDigit (Byte.to_N x mod 16)) (hex_EncodeToString rest))
end.

(** The octets [GetRequestKey] writes to the hash: [[]byte(method)], then
    [[]byte(url)], then the body when it is a [[]byte]. *)
Definition keyOctets (method url : string) (body : any) : list Byte.byte :=
list_byte_of_string method ++ list_byte_of_string url
++ match body with
   | Bytes bodyBytes => bodyBytes
   | _ => []
   end.

(** [GetRequestKey] *)
Definition GetRequestKey (method url : string) (body : any) : string :=
hex_EncodeToString (SHA256.digest (keyOctets method url body)).

(** A [chan interface{}] of capacity 1: what is buffered, and whether it
    was closed. *)
Record chan : Type := {
  buf    : list any;
  closed : bool
}.

(** Where a goroutine stands in [CoalesceRequest]. *)
Inductive pc : Type :=
| Start                              (* before the first [cc.mutex.Lock()] *)
| Waiting (ch : nat)                 (* at [return <-ch] *)
| Running (ch : nat)                 (* at [result := fn()] *)
| Sending (ch : nat) (result : any)  (* at [ch <- result] *)
| Closing (ch : nat) (result : any)  (* at [close(ch)] *)
| Cleaning (ch : nat) (result : any) (* at the second [cc.mutex.Lock()] *)
| Returned (v : any).

(** The cache, the channels made so far, the goroutines, and the number
    of calls of [fn] so far. *)
Record state : Type := {
  requests    : gmap string nat;
  chans       : list chan;
  threads     : list pc;
  invocations : nat
}.

(** A caller: the key it passes, and what its [fn] returns. *)
Definition caller : Type := string * any.

Definition initial (callers : list caller) : state :=
{| requests := ∅; chans := []; threads := map (fun _ => Start) callers;
   invocations := 0 |}.

Definition setThread (i : nat) (p : pc) (st : state) : state :=
{| requests := requests st; chans := chans st;
   threads := <[i := p]> (threads st); invocations := invocations st |}.

(** One atomic step of goroutine [i]; [None] when it is blocked or has
    returned.  A critical section is one step. *)
Definition step (callers : list caller) (i : nat) (st : state)
  : option state :=
match callers !! i, threads st !! i with
| Some (key, result), Some p =>
  match p with
  | Start =>
      match requests st !! key with
      | Some ch => Some (setThread i (Waiting ch) st)
      | None =>
          let ch := length (chans st) in
          Some {| requests := <[key := ch]> (requests st);
                  chans := chans st ++ [{| buf := []; closed := false |}];
                  threads := <[i := Running ch]> (threads st);
                  invocations := invocations st |}
      end
  | Waiting ch =>
      match chans st !! ch with
      | Some {| buf := v :: rest; closed := c |} =>
          Some {| requests := requests st;
                  chans := <[ch := {| buf := rest; closed := c |}]> (chans st);
                  threads := <[i := Returned v]> (threads st);
                  invocations := invocations st |}
      | Some {| buf := []; closed := true |} =>
          Some (setThread i (Returned Nil) st)
      | _ => None
      end
  | Running ch =>
      Some {| requests := requests st; chans := chans st;
              threads := <[i := Sending ch result]> (threads st);
              invocations := S (invocations st) |}
  | Sending ch r =>
      match chans st !! ch with
      | Some {| buf := []; closed := false |} =>
          Some {| requests := requests st;
                  chans := <[ch := {| buf := [r]; closed := false |}]>
                             (chans st);
                  threads := <[i := Closing ch r]> (threads st);
                  invocations := invocations st |}
      | _ => None
      end
  | Closing ch r =>
      match chans st !! ch with
      | Some c =>
          Some {| requests := requests st;
                  chans := <[ch := {| buf := buf c; closed := true |}]>
                             (chans st);
                  threads := <[i := Cleaning ch r]> (threads st);
                  invocations := invocations st |}
      | None => None
      end
  | Cleaning ch r =>
      Some {| requests := delete key (requests st); chans := chans st;
              threads := <[i := Returned r]> (threads st);
              invocations := invocations st |}
  | Returned _ => None
  end
| _, _ => None
end.

(** A schedule is the list of the goroutines that step, in order. *)
Fixpoint run (callers : list caller) (schedule : list nat) (st : state)
  : option state :=
match schedule with
| [] => Some st
| i :: rest =>
    match step callers i st with
    | Some st' => run callers rest st'
    | None => None
    end
end.

(** The states goroutines can step to, and the states in which every
    schedule of at most [fuel] steps ends. *)
Definition enabled (callers : list caller) (st : state) : list state :=
omap (fun i => step callers i st) (seq 0 (length callers)).

Fixpoint explore (callers : list caller) (fuel : nat) (st : state)
  : list state :=
match fuel with
| O => [st]
| S f =>
    match enabled callers st with
    | [] => [st]
    | succs => flat_map (explore callers f) succs
    end
end.

(** The steps a goroutine has left at most. *)
Definition weight (p : pc) : nat :=
match p with
| Start => 5
| Running _ => 4
| Sending _ _ => 3
| Closing _ _ => 2
| Cleaning _ _ => 1
| Waiting _ => 1
| Returned _ => 0
end.

Fixpoint totalWeight (l : list pc) : nat :=
match l with
| [] => 0
| p :: l' => weight p + totalWeight l'
end.

Definition stepsLeft (st : state) : nat := totalWeight (threads st).

Definition gotNil (p : pc) : bool :=
match p with Returned Nil => true | _ => false end.

Definition hasReturned (p : pc) : bool :=
match p with Returned _ => true | _ => false end.

(** What each caller got back, once it has returned. *)
Definition results (st : state) : list (option any) :=
map (fun p => match p with Returned v => Some v | _ => None end)
  (threads st).

End Coalescing.

(* ===================================================================== *)
(** ** Concrete environments and records, for the scenarios below *)
(* ===================================================================== *)

Module Scenario.
Import Errors World Auth.
Local Open Scope string_scope.

(** An upstream that refuses every connection, a context that is never
    done, a clock stopped at [now]. *)
Definition unreachable (now : Z) : Env :=
  {| clock := fun _ => now;
     replyToken := fun _ => DoError (ErrorString "connection refused");
     replyCopilot := fun _ => DoError (ErrorString "connection refused");
     replyFetch := fun _ => DoError (ErrorString "connection refused");
     replyUpdate := fun _ => DoError (ErrorString "connection refused");
     replyUpstream := fun _ => UpstreamError (ErrorString "connection refused");
     newRequestErr := fun _ => None;
     ctxDone := fun _ => None;
     databaseURL := "http://localhost:3000/api/copilot-auth-status";
   nanotime := fun _ => 1000000000000;
   copyBody := fun _ => None |}.

(** The same, with a context cancelled during the first wait. *)
Definition cancelledInFirstWait : Env :=
  {| clock := fun _ => 1000;
     replyToken := fun _ => DoError (ErrorString "connection refused");
     replyCopilot := fun _ => DoError (ErrorString "connection refused");
     replyFetch := fun _ => DoError (ErrorString "connection refused");
     replyUpdate := fun _ => DoError (ErrorString "connection refused");
     replyUpstream := fun _ => UpstreamError (ErrorString "connection refused");
     newRequestErr := fun _ => None;
     ctxDone := fun h => if (count isWait h =? 1)%Z
                         then Some context_Canceled else None;
     databaseURL := "http://localhost:3000/api/copilot-auth-status";
   nanotime := fun _ => 1000000000000;
   copyBody := fun _ => None |}.

Definition defaultHeaders : HeadersConfig :=
  {| UserAgent := "GitHubCopilotChat/0.29.1";
     EditorVersion := "vscode/1.102.3";
     EditorPluginVersion := "copilot-chat/0.29.1";
     CopilotIntegrationID := "vscode-chat";
     OpenaiIntent := "conversation-edits";
     XInitiator := "user" |}.

(** A credential record with both tokens on file. *)
Definition record (expiresAt : Z) : Config :=
  {| Port := 8081;
     GitHubToken := "gho_0123456789abcdef";
     CopilotToken := "tid=0123456789";
     ExpiresAt := expiresAt;
     RefreshIn := 1500;
     AllowedModels := [];
     Headers := defaultHeaders;
     CORS := {| AllowedOrigins := ["*"]; AllowedHeaders := ["*"] |};
     Timeouts := {| ProxyContext := 300; CircuitBreaker := 30 |} |}.

Definition service : AuthService := {| refreshFunc := None |}.

(** An upstream on which the user has not authorised the device yet. *)
Definition pending : Env :=
{| clock := fun _ => 1000;
   replyToken := fun _ =>
     Response 200 (inr "error=authorization_pending")
       (inr {| AccessToken := ""; tr_Error := "authorization_pending";
               ErrorDesc := "" |});
   replyCopilot := fun _ => DoError (ErrorString "connection refused");
   replyFetch := fun _ => DoError (ErrorString "connection refused");
   replyUpdate := fun _ => DoError (ErrorString "connection refused");
   replyUpstream := fun _ => UpstreamError (ErrorString "connection refused");
   newRequestErr := fun _ => None;
   ctxDone := fun _ => None;
   databaseURL := "http://localhost:3000/api/copilot-auth-status";
   nanotime := fun _ => 1000000000000;
   copyBody := fun _ => None |}.

(** A stage-2 request of the browser: one check, no polling. *)
Definition stage2Request : AuthAPI.Stage2Request :=
{| AuthAPI.Email := "u@x.com"; AuthAPI.DeviceCode := "3584d83530557fdd1f46";
   AuthAPI.Interval := 5; AuthAPI.ExpiresIn := 900;
   AuthAPI.PollMode := false |}.

(** A JSON decoder that knows the request above only, and an e-mail check
    that looks for the [@]. *)
Definition lib : AuthAPI.Lib :=
{| AuthAPI.unmarshalStage2 := fun body =>
     match body with
     | [] => inl (ErrorString "unexpected end of JSON input")
     | _ => inr stage2Request
     end;
   AuthAPI.isValidEmail := fun email => GoStrings.Contains email "@" |}.

Definition stage2Post : AuthAPI.httpRequest :=
{| AuthAPI.Method := "POST"; AuthAPI.Body := inr [Byte.x7b; Byte.x7d] |}.

(** An upstream that answers 500 to every completion request. *)
Definition serverError : Env :=
{| clock := fun _ => 1000;
   replyToken := fun _ => DoError (ErrorString "connection refused");
   replyCopilot := fun _ => DoError (ErrorString "connection refused");
   replyFetch := fun _ => DoError (ErrorString "connection refused");
   replyUpdate := fun _ => DoError (ErrorString "connection refused");
   replyUpstream := fun _ => UpstreamResponse 500;
   newRequestErr := fun _ => None;
   ctxDone := fun _ => None;
   databaseURL := "http://localhost:3000/api/copilot-auth-status";
   nanotime := fun _ => 1000000000000;
   copyBody := fun _ => None |}.

Definition chatRequest : request :=
Upstream "POST" "https://api.githubcopilot.com/chat/completions" []
  [Byte.x7b; Byte.x7d].

(** The proxy, with a token check that succeeds without doing anything. *)
Definition proxyLib : Proxy.ProxyLib :=
{| Proxy.unmarshalModel := fun _ => inr "gpt-4o" |}.

Definition proxyService : Proxy.ProxyService :=
{| Proxy.config := record 2000000;
   Proxy.ensureValidToken := fun _ => ret None |}.

(** A request body of 5 MiB + 1 byte. *)
Definition oversizedBody : list Byte.byte :=
repeat Byte.x20 (Z.to_nat (5 * 1024 * 1024 + 1)).

Definition oversized : Proxy.proxyRequest :=
{| Proxy.Method := "POST"; Proxy.Path := "/v1/chat/completions";
   Proxy.Body := inr oversizedBody |}.

(** A proxy whose token check panics, as [getCopilotToken] does on a
    GitHub token shorter than 10 bytes. *)
Definition panickingService : Proxy.ProxyService :=
{| Proxy.config := record 2000000;
   Proxy.ensureValidToken := fun _ =>
     panic "runtime error: slice bounds out of range" |}.

Definition chatPost : Proxy.proxyRequest :=
{| Proxy.Method := "POST"; Proxy.Path := "/v1/chat/completions";
   Proxy.Body := inr [Byte.x7b; Byte.x7d] |}.

Definition freshState : Proxy.requestState :=
{| Proxy.circuitBreaker := Breaker.NewCircuitBreaker 30;
   Proxy.headersSent := false; Proxy.wroteHeader := None |}.

(** The key of the models endpoint, and the model list its [fn] returns. *)
Definition modelsKey : string :=
Coalescing.GetRequestKey "GET" "/v1/models" Coalescing.Nil.

Definition modelList : Coalescing.any := Coalescing.Other 7.

End Scenario.

(* ===================================================================== *)
(** ** The proxy handler on checked requests and on runs of requests *)
(* ===================================================================== *)

Module Serving.
Import GoStrings Errors World Auth Breaker Proxy.
Local Open Scope string_scope.

(** The upstream URL [processProxyRequest] builds for a path. *)
Definition targetURL (path : string) : option string :=
if path =? "/v1/completions"
then Some (copilotAPIBase ++ "/completions")
else if path =? "/v1/chat/completions"
then Some (copilotAPIBase ++ chatCompletionsPath)
else None.

(** The checks [processProxyRequest] makes before it asks for a token, in
    its order: the method, the read of the body under the size cap, the
    empty body, the JSON of the body, the allow-list of models.  The
    result is the body when all of them pass. *)
Definition checked `{P : ProxyLib} (s : ProxyService) (r : proxyRequest)
  : option (list Byte.byte) :=
if negb (Method r =? "POST") then None
else
  match readBody r with
  | inl _ => None
  | inr body =>
    if (length body =? 0)%nat then None
    else
      match unmarshalModel body with
      | inl _ => None
      | inr model =>
        if (0 <? length (AllowedModels (config s)))%nat
           && negb (existsb (String.eqb model) (AllowedModels (config s)))
        then None
        else Some body
      end
  end.

(** The request [processProxyRequest] sends upstream. *)
Definition upstreamRequest (s : ProxyService) (r : proxyRequest)
  (url : string) (body : list Byte.byte) : request :=
Upstream (Method r) url (upstreamHeaders (config s)) body.

(** [Handler] on requests that come one after the other, each answered
    by its worker: the statuses the clients get, first request first, and
    the breaker in the end. *)
Fixpoint serve `{E : Env} `{T : ErrorText} `{P : ProxyLib}
  (s : ProxyService) (rs : list proxyRequest) (cb : CircuitBreaker)
  : M (list (option Z) * CircuitBreaker) :=
match rs with
| [] => ret ([], cb)
| r :: rs' =>
    (a <- Handler s DoneReceived r cb ;;
     b <- serve s rs' (snd a) ;;
     ret (fst a :: fst b, snd b))%go
end.

End Serving.

(* ===================================================================== *)
(** ** More concrete environments and records *)
(* ===================================================================== *)

Module Cases.
Import Errors World Auth Scenario.
Local Open Scope string_scope.

(** An upstream that answers 404 to every completion request, and a
    client that hangs up while the body is copied to it. *)
Definition notFound : Env :=
{| clock := fun _ => 1000;
   replyToken := fun _ => DoError (ErrorString "connection refused");
   replyCopilot := fun _ => DoError (ErrorString "connection refused");
   replyFetch := fun _ => DoError (ErrorString "connection refused");
   replyUpdate := fun _ => DoError (ErrorString "connection refused");
   replyUpstream := fun _ => UpstreamResponse 404;
   newRequestErr := fun _ => None;
   ctxDone := fun _ => None;
   databaseURL := "http://localhost:3000/api/copilot-auth-status";
   nanotime := fun _ => 1000000000000;
   copyBody := fun _ => Some (ErrorString "write: broken pipe") |}.

(** A proxy that serves one model only. *)
Definition restricted : Proxy.ProxyService :=
{| Proxy.config :=
     {| Port := 8081;
        GitHubToken := "gho_0123456789abcdef";
        CopilotToken := "tid=0123456789";
        ExpiresAt := 2000000;
        RefreshIn := 1500;
        AllowedModels := ["claude-sonnet-4"];
        Headers := defaultHeaders;
        CORS := {| AllowedOrigins := ["*"]; AllowedHeaders := ["*"] |};
        Timeouts := {| ProxyContext := 300; CircuitBreaker := 30 |} |};
   Proxy.ensureValidToken := fun _ => ret None |}.

(** A proxy whose token check fails. *)
Definition expiredService : Proxy.ProxyService :=
{| Proxy.config := record 2000000;
   Proxy.ensureValidToken := fun _ =>
     ret (Some (ErrorString "token refresh failed")) |}.

Definition emptyPost : Proxy.proxyRequest :=
{| Proxy.Method := "POST"; Proxy.Path := "/v1/chat/completions";
   Proxy.Body := inr [] |}.

Definition chatGet : Proxy.proxyRequest :=
{| Proxy.Method := "GET"; Proxy.Path := "/v1/chat/completions";
   Proxy.Body := inr [] |}.

(** A breaker that has just opened. *)
Definition tripped : Breaker.CircuitBreaker :=
{| Breaker.failureCount := 5; Breaker.lastFailureTime := 1000000000000;
   Breaker.state := Breaker.CircuitOpen;
   Breaker.timeout := 30 * Breaker.time_Second |}.

(** A breaker that is probing the upstream after its timeout. *)
Definition probing : Breaker.CircuitBreaker :=
{| Breaker.failureCount := 5; Breaker.lastFailureTime := 0;
   Breaker.state := Breaker.CircuitHalfOpen;
   Breaker.timeout := 30 * Breaker.time_Second |}.

(** An upstream that issues a Copilot token and a credential store that
    can be read but not written. *)
Definition storeReadOnly : Env :=
{| clock := fun _ => 1000;
   replyToken := fun _ => DoError (ErrorString "connection refused");
   replyCopilot := fun _ =>
     Response 200 (inr "")
       (inr {| Token := "tid=fedcba9876"; ctr_ExpiresAt := 2800;
               ctr_RefreshIn := 1500 |});
   replyFetch := fun _ =>
     Response 200 (inr "")
       (inr (true, {| sd_GithubToken := "gho_0123456789abcdef";
                      sd_CopilotToken := "tid=0123456789";
                      sd_ExpiresAt := 1100; sd_RefreshIn := 1500 |}));
   replyUpdate := fun _ => DoError (ErrorString "connection refused");
   replyUpstream := fun _ => UpstreamError (ErrorString "connection refused");
   newRequestErr := fun _ => None;
   ctxDone := fun _ => None;
   databaseURL := "http://localhost:3000/api/copilot-auth-status";
   nanotime := fun _ => 1000000000000;
   copyBody := fun _ => None |}.

(** The same upstream, with a store that can be written. *)
Definition storeUp : Env :=
{| clock := fun _ => 1000;
   replyToken := fun _ => DoError (ErrorString "connection refused");
   replyCopilot := fun _ =>
     Response 200 (inr "")
       (inr {| Token := "tid=fedcba9876"; ctr_ExpiresAt := 2800;
               ctr_RefreshIn := 1500 |});
   replyFetch := fun _ =>
     Response 200 (inr "")
       (inr (true, {| sd_GithubToken := "gho_0123456789abcdef";
                      sd_CopilotToken := "tid=0123456789";
                      sd_ExpiresAt := 1100; sd_RefreshIn := 1500 |}));
   replyUpdate := fun _ => Response 200 (inr "") (inr true);
   replyUpstream := fun _ => UpstreamError (ErrorString "connection refused");
   newRequestErr := fun _ => None;
   ctxDone := fun _ => None;
   databaseURL := "http://localhost:3000/api/copilot-auth-status";
   nanotime := fun _ => 1000000000000;
   copyBody := fun _ => None |}.

(** A record with a GitHub token of 7 characters. *)
Definition shortRecord : Config :=
{| Port := 8081;
   GitHubToken := "gho_012";
   CopilotToken := "tid=0123456789";
   ExpiresAt := 1100;
   RefreshIn := 1500;
   AllowedModels := [];
   Headers := defaultHeaders;
   CORS := {| AllowedOrigins := ["*"]; AllowedHeaders := ["*"] |};
   Timeouts := {| ProxyContext := 300; CircuitBreaker := 30 |} |}.

End Cases.

(* ===================================================================== *)
(** * Properties *)
(* ===================================================================== *)

(** ** Facts on machine integers *)

Section Int64Facts.
Import Int64.

Lemma wrap_in_range x : in_range (wrap x).
Proof.
  unfold in_range, wrap, min_int, max_int, modulus.
  pose proof (Z.mod_pos_bound (x + 2 ^ 63) (2 ^ 64) ltac:(lia)). lia.
Qed.

Lemma wrap_small x : in_range x -> wrap x = x.
Proof.
  unfold in_range, wrap, min_int, max_int, modulus. intros H.
  rewrite Z.mod_small; lia.
Qed.

Lemma saturate_gt x t :
  min_int <= t < max_int -> (t <? saturate x) = (t <? x).
Proof.
  unfold saturate, min_int, max_int. intros Ht.
  destruct (x <? - 2 ^ 63) eqn:E1; [|destruct (2 ^ 63 - 1 <? x) eqn:E2]; lia.
Qed.

End Int64Facts.

(** ** Circuit breaker *)

Section BreakerProperties.
Import Breaker.

Lemma timeout_range secs :
  Int64.min_int <= timeout (NewCircuitBreaker secs) < Int64.max_int.
Proof.
  cbn [timeout NewCircuitBreaker].
  pose proof (wrap_in_range (secs * time_Second)) as Hr.
  unfold Int64.in_range in Hr.
  assert (Int64.wrap (secs * time_Second) <> Int64.max_int); [|lia].
  unfold Int64.wrap, Int64.max_int, Int64.modulus, time_Second.
  intros E.
  pose proof (Z.div_mod (secs * 1000000000 + 2 ^ 63) (2 ^ 64) ltac:(lia)).
  lia.
Qed.

Lemma run_snoc tr e cb : run (tr ++ [e]) cb = step (run tr cb) e.
Proof. unfold run. now rewrite fold_left_app. Qed.

Lemma consecutive_failures_snoc tr e :
  consecutive_failures (tr ++ [e])
  = count_step (consecutive_failures tr) e.
Proof. unfold consecutive_failures. now rewrite fold_left_app. Qed.

Lemma timeout_step cb e : timeout (step cb e) = timeout cb.
Proof.
  destruct e; cbn; try reflexivity.
  unfold canExecute. destruct (state cb); try reflexivity.
  now destruct (_ <? _).
Qed.

Lemma timeout_run tr cb : timeout (run tr cb) = timeout cb.
Proof.
  induction tr as [|e tr IH] using rev_ind; [reflexivity|].
  now rewrite run_snoc, timeout_step.
Qed.

Lemma breaker_inv_run secs tr :
  Z.of_nat (length tr) <= Int64.max_int ->
  breaker_inv tr (run tr (NewCircuitBreaker secs)).
Proof.
  unfold breaker_inv, circuitBreakerFailureThreshold.
  induction tr as [|e tr IH] using rev_ind; intros Hlen.
  - cbn. repeat split; try lia; intros _; reflexivity.
  - rewrite length_app in Hlen. cbn [length] in Hlen.
    destruct IH as (Hc & Hb & Hs); [lia|].
    rewrite run_snoc, consecutive_failures_snoc, length_app.
    cbn [length].
    set (cb := run tr (NewCircuitBreaker secs)) in *.
    destruct e as [now| |now]; cbn [step count_step].
    + unfold canExecute.
      destruct (state cb) eqn:Est; cbn [snd].
      * rewrite Est. repeat split; try lia; tauto.
      * destruct (_ <? _); cbn [snd failureCount state];
          rewrite ?Est; (split; [assumption|split; [lia|]]);
          split; try discriminate; intros; exfalso;
          assert (CircuitOpen = CircuitClosed) by tauto; discriminate.
      * rewrite Est. repeat split; try lia; tauto.
    + cbn. repeat split; lia.
    + unfold onFailure, circuitBreakerFailureThreshold.
      cbn [failureCount state].
      rewrite Hc, wrap_small by (unfold Int64.in_range, Int64.min_int, Int64.max_int in *; lia).
      split; [reflexivity|]. split; [lia|].
      destruct (5 <=? consecutive_failures tr + 1) eqn:E.
      * split; [discriminate|lia].
      * split; [lia|]. intros _. apply Hs. lia.
Qed.

(** C2.  From a fresh breaker ([NewProxyService]) and after any sequence
    of admission checks and recorded outcomes (short enough for the
    [int64] counter), the breaker is the three-state machine of the
    specification: it starts Closed with counter 0; its counter is the
    number of consecutive failures and it is Closed exactly below the
    threshold of 5; Closed admits every request; the failure that brings
    the count to 5 opens it and records the failure time; Open rejects an
    admission check within [timeout] of the last failure and, after
    [timeout], admits it and becomes HalfOpen; HalfOpen admits; a success
    recorded in Closed or HalfOpen gives Closed with counter 0; a failure
    recorded in HalfOpen gives Open with the new failure time. *)
Theorem breaker_three_state_machine (secs : Z) (tr : list event) :
  Z.of_nat (length tr) < Int64.max_int ->
  let cb0 := NewCircuitBreaker secs in
  let cb := run tr cb0 in
  let n := consecutive_failures tr in
  (state cb0 = CircuitClosed /\ failureCount cb0 = 0)
  /\ failureCount cb = n
  /\ (state cb = CircuitClosed <-> n < 5)
  /\ (state cb = CircuitClosed ->
      forall now, canExecute now cb = (true, cb))
  /\ (state cb = CircuitClosed ->
      forall now,
        failureCount (onFailure now cb) = n + 1
        /\ lastFailureTime (onFailure now cb) = now
        /\ state (onFailure now cb)
           = (if n + 1 =? 5 then CircuitOpen else CircuitClosed))
  /\ (state cb = CircuitOpen ->
      forall now,
        (now - lastFailureTime cb <= timeout cb ->
         canExecute now cb = (false, cb))
        /\ (timeout cb < now - lastFailureTime cb ->
            canExecute now cb
            = (true, {| failureCount := failureCount cb;
                        lastFailureTime := lastFailureTime cb;
                        state := CircuitHalfOpen;
                        timeout := timeout cb |})))
  /\ (state cb = CircuitHalfOpen ->
      forall now, canExecute now cb = (true, cb))
  /\ (state cb = CircuitClosed \/ state cb = CircuitHalfOpen ->
      failureCount (onSuccess cb) = 0
      /\ state (onSuccess cb) = CircuitClosed)
  /\ (state cb = CircuitHalfOpen ->
      forall now,
        state (onFailure now cb) = CircuitOpen
        /\ lastFailureTime (onFailure now cb) = now).
Proof.
  intros Hlen cb0 cb n.
  destruct (breaker_inv_run secs tr ltac:(lia)) as (Hc & Hb & Hs).
  fold cb0 cb n in Hc, Hb, Hs.
  unfold circuitBreakerFailureThreshold in Hs.
  assert (Hwrap : Int64.wrap (failureCount cb + 1) = n + 1).
  { rewrite Hc. apply wrap_small.
    unfold Int64.in_range, Int64.min_int, Int64.max_int in *. lia. }
  assert (Hto : Int64.min_int <= timeout cb < Int64.max_int).
  { unfold cb. rewrite timeout_run. apply timeout_range. }
  split; [split; reflexivity|].
  split; [exact Hc|]. split; [exact Hs|].
  split; [intros E now; unfold canExecute; now rewrite E|].
  split.
  { intros E now. unfold onFailure, circuitBreakerFailureThreshold.
    cbn [failureCount lastFailureTime state]. rewrite Hwrap, E.
    pose proof (proj1 Hs E) as Hlt.
    repeat split.
    destruct (5 <=? n + 1) eqn:E1, (n + 1 =? 5) eqn:E2;
      try reflexivity; lia. }
  split.
  { intros E now. unfold canExecute, time_Since. rewrite E.
    rewrite (saturate_gt _ _ Hto).
    split; intros Hd.
    - destruct (timeout cb <? now - lastFailureTime cb) eqn:E1;
        [lia|reflexivity].
    - destruct (timeout cb <? now - lastFailureTime cb) eqn:E1;
        [reflexivity|lia]. }
  split; [intros E now; unfold canExecute; now rewrite E|].
  split; [intros _; split; reflexivity|].
  intros E now. unfold onFailure, circuitBreakerFailureThreshold.
  cbn [failureCount lastFailureTime state]. rewrite Hwrap.
  split; [|reflexivity].
  destruct (5 <=? n + 1) eqn:E1; [reflexivity|].
  assert (state cb = CircuitClosed) as E' by (apply Hs; lia).
  rewrite E in E'. discriminate.
Qed.

(** Five failures in a row, then admission checks, on a breaker with the
    default 30 s timeout. *)
Lemma breaker_three_state_machine_witness :
  let tr := [Failure 1; Failure 2; Failure 3; Failure 4; Failure 5;
             Admission 6] in
  Z.of_nat (length tr) < Int64.max_int
  /\ failureCount (run tr (NewCircuitBreaker 30)) = consecutive_failures tr
  /\ (state (run tr (NewCircuitBreaker 30)) = CircuitClosed
      <-> consecutive_failures tr < 5).
Proof.
  intros tr.
  assert (H : Z.of_nat (length tr) < Int64.max_int) by (vm_compute; reflexivity).
  split; [exact H|].
  pose proof (breaker_three_state_machine 30 tr H) as T.
  cbv zeta in T.
  split; [exact (proj1 (proj2 T))|exact (proj1 (proj2 (proj2 T)))].
Defined.

End BreakerProperties.

(** ** The history only grows *)

Section History.
Import Errors World.
Context `{E : Env}.

Lemma grows_ret {A} (a : A) : grows (ret a).
Proof. intros h. reflexivity. Qed.

Lemma grows_panic {A} v : grows (@panic A v).
Proof. intros h. reflexivity. Qed.

Lemma grows_emit e : grows (emit e).
Proof. intros h. cbn. apply suffix_cons_r. reflexivity. Qed.

Lemma grows_ask {A} (f : list event -> A) : grows (ask f).
Proof. intros h. reflexivity. Qed.

Lemma grows_bind {A B} (m : M A) (k : A -> M B) :
  grows m -> (forall a, grows (k a)) -> grows (bind m k).
Proof.
  intros Hm Hk h. unfold bind. specialize (Hm h).
  destruct (m h) as [[a|v] h1]; cbn in *; [|exact Hm].
  etransitivity; [exact Hm|apply Hk].
Qed.

Lemma grows_selectTimer ctx d : grows (selectTimer ctx d).
Proof.
  unfold selectTimer. apply grows_bind; [apply grows_emit|].
  intros _. destruct ctx; [apply grows_ret|apply grows_ask].
Qed.

Lemma grows_httpDo {A} r (answer : list event -> reply A) :
  grows (httpDo r answer).
Proof.
  unfold httpDo. apply grows_bind; [apply grows_emit|].
  intros _. apply grows_ask.
Qed.

Lemma suffix_cons_cases {A} (l1 l : list A) (x : A) :
  l1 `suffix_of` x :: l -> l1 = x :: l \/ l1 `suffix_of` l.
Proof.
  intros [k Hk]. destruct k as [|y k]; cbn in Hk.
  - left. congruence.
  - right. exists k. congruence.
Qed.

(** Two suffixes of one list are comparable. *)
Lemma suffix_comparable {A} (l1 l2 l : list A) :
  l1 `suffix_of` l -> l2 `suffix_of` l ->
  l1 `suffix_of` l2 \/ l2 `suffix_of` l1.
Proof.
  induction l as [|x l IH]; intros H1 H2.
  - apply suffix_nil_inv in H1, H2. subst. left. reflexivity.
  - apply suffix_cons_cases in H1, H2.
    destruct H1 as [->|H1], H2 as [->|H2].
    + left. reflexivity.
    + right. now apply suffix_cons_r.
    + left. now apply suffix_cons_r.
    + now apply IH.
Qed.

Lemma suffix_cons_not {A} (x : A) (l k : list A) :
  (x :: l) `suffix_of` k -> k `suffix_of` l -> False.
Proof.
  intros H1 H2. apply suffix_length in H1, H2. cbn in *. lia.
Qed.

End History.

Create HintDb grows.
#[local] Hint Resolve grows_ret grows_panic grows_emit grows_ask
grows_selectTimer grows_httpDo : grows.

(** Splits a computation along its binds and case distinctions. *)
#[local] Ltac grows_step :=
match goal with
| |- World.grows (World.bind _ _) => apply grows_bind; [|intros ?]
| |- World.grows (match ?x with _ => _ end) => destruct x
| |- World.grows (if ?b then _ else _) => destruct b
| |- World.grows _ => solve [auto with grows]
end.

#[local] Ltac grows_tac := repeat grows_step.

(** ** Auth service *)

Section AuthProperties.
Import GoStrings Errors World Auth.
Context `{E : Env}.

Lemma grows_getCopilotToken cfg tok : grows (getCopilotToken cfg tok).
Proof. unfold getCopilotToken. grows_tac. Qed.

Lemma grows_updateTokenInDatabase email cfg :
  grows (updateTokenInDatabase email cfg).
Proof. unfold updateTokenInDatabase. grows_tac. Qed.

Lemma grows_fetchTokenFromDatabase email :
  grows (fetchTokenFromDatabase email).
Proof. unfold fetchTokenFromDatabase. grows_tac. Qed.

Hint Resolve grows_getCopilotToken grows_updateTokenInDatabase
  grows_fetchTokenFromDatabase : grows.

Lemma grows_refreshLoop n : forall attempt ctx email cfg,
  grows (refreshLoop n attempt ctx email cfg).
Proof.
  induction n as [|n IH]; intros attempt ctx email cfg; cbn [refreshLoop].
  - grows_tac.
  - apply grows_bind; [auto with grows|].
    intros [[[tok ex] ri] err]. grows_tac.
Qed.

Hint Resolve grows_refreshLoop : grows.

(** A call of [RefreshTokenWithContext] leaves its mark right after the
    history it started from. *)
Lemma RefreshTokenWithContext_enters s ctx email cfg h :
  exists added,
    snd (RefreshTokenWithContext s ctx email cfg h)
    = added ++ Entered "RefreshTokenWithContext" :: h.
Proof.
  unfold RefreshTokenWithContext, bind at 1. cbn [emit].
  match goal with
  | |- exists _, snd (?m ?h0) = _ =>
      assert (G : grows m) by grows_tac; destruct (G h0) as [k ->]
  end.
  now exists k.
Qed.

(** With a non-empty API token and a clock reading [now] such that
    [now + 300] is an [int64], [EnsureValidTokenWithConfig] calls the
    refresh routine iff [expires_at - now <= 300]; otherwise it returns the
    record as it is and does nothing else. *)
Lemma EnsureValidTokenWithConfig_boundary
  (s : AuthService) (email : string) (cfg : Config) (h : list event) :
  CopilotToken cfg <> ""%string ->
  Int64.in_range (clock h + 300) ->
  exists added,
    snd (EnsureValidTokenWithConfig s email cfg h) = added ++ h
    /\ (In (Entered "RefreshTokenWithContext") added
        <-> ExpiresAt cfg - clock h <= 300)
    /\ (300 < ExpiresAt cfg - clock h ->
        EnsureValidTokenWithConfig s email cfg h
        = (Ret (Some cfg, None), h)).
Proof.
  intros Htok Hnow.
  apply String.eqb_neq in Htok.
  assert (Heq : EnsureValidTokenWithConfig s email cfg h
                = if ExpiresAt cfg <=? clock h + 300
                  then bind (RefreshToken s email cfg)
                         (fun r => match snd r with
                                   | Some e => ret (None, Some e)
                                   | None => ret (Some (fst r), None)
                                   end) h
                  else (Ret (Some cfg, None), h)).
  { unfold EnsureValidTokenWithConfig, bind at 1, ask.
    rewrite Htok, (wrap_small _ Hnow).
    now destruct (ExpiresAt cfg <=? clock h + 300). }
  rewrite Heq. clear Heq.
  destruct (ExpiresAt cfg <=? clock h + 300) eqn:Hle.
  - unfold RefreshToken, bind at 1.
    destruct (RefreshTokenWithContext_enters s Background email cfg h)
      as [k Hk].
    destruct (RefreshTokenWithContext s Background email cfg h)
      as [[r|v] h1]; cbn [snd] in Hk; subst h1.
    + exists (k ++ [Entered "RefreshTokenWithContext"]).
      split; [|split].
      * destruct (snd r); cbn; now rewrite <- app_assoc.
      * split; [lia|]. intros _. apply in_or_app. right. now left.
      * lia.
    + exists (k ++ [Entered "RefreshTokenWithContext"]).
      split; [|split].
      * cbn. now rewrite <- app_assoc.
      * split; [lia|]. intros _. apply in_or_app. right. now left.
      * lia.
  - exists []. split; [reflexivity|]. split.
    + split; [intros []|lia].
    + reflexivity.
Qed.

(** C5.  For every clock reading [now] (with [now + 300] an [int64]) and
    every expiry, on a record with a non-empty API token,
    [EnsureValidTokenWithConfig] calls the refresh routine iff
    [expires_at - now <= 300]: it does 299 s and 300 s before expiry, it
    does not 301 s before, and whenever it does not, it returns the
    record unchanged and does nothing else. *)
Theorem ensure_valid_token_refresh_boundary
  (s : AuthService) (email : string) (cfg : Config) (h : list event) :
  CopilotToken cfg <> ""%string ->
  Int64.in_range (clock h + 300) ->
  exists added,
    snd (EnsureValidTokenWithConfig s email cfg h) = added ++ h
    /\ (In (Entered "RefreshTokenWithContext") added
        <-> ExpiresAt cfg - clock h <= 300)
    /\ (300 < ExpiresAt cfg - clock h ->
        EnsureValidTokenWithConfig s email cfg h
        = (Ret (Some cfg, None), h))
    /\ (ExpiresAt cfg - clock h = 299 ->
        In (Entered "RefreshTokenWithContext") added)
    /\ (ExpiresAt cfg - clock h = 300 ->
        In (Entered "RefreshTokenWithContext") added)
    /\ (ExpiresAt cfg - clock h = 301 ->
        ~ In (Entered "RefreshTokenWithContext") added
        /\ EnsureValidTokenWithConfig s email cfg h
           = (Ret (Some cfg, None), h)).
Proof.
  intros Htok Hnow.
  destruct (EnsureValidTokenWithConfig_boundary s email cfg h Htok Hnow)
    as (added & Hadd & Hiff & Hkeep).
  exists added. repeat split; try assumption.
  - now apply Hiff.
  - intros Hin. apply Hiff. exact Hin.
  - intros H299. apply Hiff. lia.
  - intros H300. apply Hiff. lia.
  - intros Hin. apply Hiff in Hin. lia.
  - apply Hkeep. lia.
Qed.

(** The same through [EnsureValidToken], on the record the credential
    store has on file: the clock is read after the store has answered,
    and the record that comes back is the stored one under the caller's
    settings. *)
Lemma EnsureValidToken_boundary
  (s : AuthService) (email : string) (base : Config) (d : storeData)
  (tx : error + string) (h : list event) :
  let h1 := Do (StoreFetch email) :: h in
  let cfg := {| Port := Port base; GitHubToken := sd_GithubToken d;
                CopilotToken := sd_CopilotToken d;
                ExpiresAt := sd_ExpiresAt d; RefreshIn := sd_RefreshIn d;
                AllowedModels := AllowedModels base;
                Headers := Headers base; CORS := CORS base;
                Timeouts := Timeouts base |} in
  newRequestErr (StoreFetch email) = None ->
  replyFetch h1 = Response 200 tx (inr (true, d)) ->
  sd_CopilotToken d <> ""%string ->
  Int64.in_range (clock h1 + 300) ->
  exists added,
    snd (EnsureValidToken s email (Some base) h) = added ++ h1
    /\ (In (Entered "RefreshTokenWithContext") added
        <-> sd_ExpiresAt d - clock h1 <= 300)
    /\ (300 < sd_ExpiresAt d - clock h1 ->
        EnsureValidToken s email (Some base) h = (Ret (Some cfg, None), h1)).
Proof.
  intros h1 cfg Hreq Hrep Htok Hnow.
  assert (Heq : EnsureValidToken s email (Some base) h
                = EnsureValidTokenWithConfig s email cfg h1).
  { unfold EnsureValidToken, bind at 1, fetchTokenFromDatabase.
    rewrite Hreq. unfold bind at 1, httpDo, bind at 1, emit, ask.
    fold h1. rewrite Hrep. reflexivity. }
  rewrite Heq.
  exact (EnsureValidTokenWithConfig_boundary s email cfg h1 Htok Hnow).
Qed.

End AuthProperties.

(** ** Refresh with backoff *)

Section RefreshProperties.
Import GoStrings Errors World Auth.
Context `{E : Env}.

Lemma count_app p k h : count p (k ++ h) = count p k + count p h.
Proof. induction k as [|e k IH]; cbn; lia. Qed.

Lemma count_nonneg p h : 0 <= count p h.
Proof. induction h as [|e h IH]; cbn; [lia|]. destruct (p e); lia. Qed.

Lemma waits_app k h : waits (k ++ h) = waits k ++ waits h.
Proof.
  induction k as [|e k IH]; [reflexivity|].
  destruct e; cbn; now rewrite ?IH.
Qed.

(** No wait of [k] can be found in [k ++ h] when [k] has none. *)
Lemma no_wait_suffix k h d pre :
  forallb (fun e => negb (isWait e)) k = true ->
  (Wait d :: pre) `suffix_of` (k ++ h) -> h `suffix_of` pre -> False.
Proof.
  induction k as [|e k IH]; cbn; intros Hk Hs Hh.
  - eapply suffix_cons_not; eassumption.
  - apply andb_prop in Hk as [He Hk].
    apply suffix_cons_cases in Hs as [Heq|Hs]; [|now apply IH].
    injection Heq as <- _. discriminate.
Qed.

Lemma getCopilotToken_result cfg tok h :
  (exists v, getCopilotToken cfg tok h = (Panic v, h))
  \/ (exists v, getCopilotToken cfg tok h
                = (Ret v, Do (GetCopilotToken tok (UserAgent (Headers cfg)))
                            :: h)).
Proof.
  unfold getCopilotToken.
  destruct (_ <? _)%nat; [left; eexists; reflexivity|right].
  unfold bind, httpDo, bind, emit, ask.
  destruct (replyCopilot _) as [e|st tx [e|c]];
    try destruct (negb _); eexists; reflexivity.
Qed.

Lemma updateTokenInDatabase_result email cfg h :
  exists v k,
    updateTokenInDatabase email cfg h = (Ret v, k ++ h)
    /\ (k = [] \/ exists r, k = [Do (StoreUpdate email r.1.1.1 r.1.1.2
                                       r.1.2 r.2)]).
Proof.
  unfold updateTokenInDatabase.
  destruct (newRequestErr _); [exists (false, Some e), []; auto|].
  unfold bind, httpDo, bind, emit, ask.
  destruct (replyUpdate _) as [e|st tx [e|[|]]];
    try destruct (negb (st =? 200)%Z);
    eexists; eexists [_]; (split; [reflexivity|right]);
    exists (GitHubToken cfg, CopilotToken cfg, ExpiresAt cfg, RefreshIn cfg);
    reflexivity.
Qed.

(** One turn of the refresh loop: it either stops without waiting, after
    at most one token request, or waits [backoff attempt] after a failed
    request and then stops on a done context or goes on with the next
    attempt. *)
Lemma refreshLoop_step n attempt ctx email cfg h :
  let res := refreshLoop (S n) attempt ctx email cfg h in
  (exists k, snd res = k ++ h
             /\ forallb (fun e => negb (isWait e)) k = true
             /\ count isCopilotRequest k <= 1)
  \/ (attempt <> maxRefreshRetries
      /\ exists r0,
          isCopilotRequest (Do r0) = true
          /\ let hw := Wait (backoff attempt) :: Do r0 :: h in
             match (match ctx with
                    | Background => None
                    | Cancellable => ctxDone hw
                    end) with
             | Some e => res = (Ret (cfg, Some e), hw)
             | None => res = refreshLoop n (attempt + 1) ctx email cfg hw
             end).
Proof.
  intros res.
  assert (Hres : res = refreshLoop (S n) attempt ctx email cfg h)
    by reflexivity.
  clearbody res. cbn [refreshLoop] in Hres. unfold bind at 1 in Hres.
  destruct (getCopilotToken_result cfg (GitHubToken cfg) h)
    as [[v Hv]|[[[[tok ex] ri] err] Hv]]; rewrite Hv in Hres.
  { left. exists []. subst res. cbn. repeat split; lia. }
  destruct err as [e|].
  - destruct (attempt =? maxRefreshRetries)%Z eqn:Ea.
    + left. eexists [_]. subst res. cbn.
      repeat split; (reflexivity || lia).
    + right. split; [lia|].
      exists (GetCopilotToken (GitHubToken cfg) (UserAgent (Headers cfg))).
      split; [reflexivity|].
      unfold bind, selectTimer, bind, emit in Hres. cbv zeta.
      destruct ctx; [exact Hres|]. unfold ask in Hres.
      destruct (ctxDone _); exact Hres.
  - left. unfold bind in Hres.
    destruct (updateTokenInDatabase_result email
                (setCopilotToken cfg tok ex ri)
                (Do (GetCopilotToken (GitHubToken cfg)
                       (UserAgent (Headers cfg))) :: h))
      as (v & k & Hu & Hk).
    rewrite Hu in Hres.
    exists (k ++ [Do (GetCopilotToken (GitHubToken cfg)
                        (UserAgent (Headers cfg)))]).
    split; [subst res; destruct (snd v); cbn; now rewrite <- app_assoc|].
    destruct Hk as [->|[r ->]]; cbn; split; (reflexivity || lia).
Qed.

Lemma refreshLoop_attempts n : forall attempt ctx email cfg h,
  count isCopilotRequest (snd (refreshLoop n attempt ctx email cfg h))
  <= count isCopilotRequest h + Z.of_nat n.
Proof.
  induction n as [|n IH]; intros attempt ctx email cfg h.
  - cbn. lia.
  - destruct (refreshLoop_step n attempt ctx email cfg h)
      as [(k & -> & _ & Hc)|(_ & r0 & Hr & Hw)].
    + rewrite count_app. lia.
    + cbv zeta in Hw.
      destruct (match ctx with Background => None | Cancellable => _ end).
      * rewrite Hw. cbn [snd count]. rewrite Hr. cbn. lia.
      * rewrite Hw. etransitivity; [apply IH|].
        cbn [count]. rewrite Hr. cbn. lia.
Qed.

Lemma refreshLoop_cancel n : forall attempt email cfg h d pre e,
  let res := refreshLoop n attempt Cancellable email cfg h in
  (Wait d :: pre) `suffix_of` snd res ->
  h `suffix_of` pre ->
  ctxDone (Wait d :: pre) = Some e ->
  res = (Ret (cfg, Some e), Wait d :: pre).
Proof.
  induction n as [|n IH]; intros attempt email cfg h d pre e res Hs Hh He.
  { exfalso. cbn in Hs. eapply suffix_cons_not; eassumption. }
  assert (Hhw : forall r0 k,
             (Wait d :: pre) `suffix_of` Wait k :: Do r0 :: h ->
             Wait d :: pre = Wait k :: Do r0 :: h).
  { intros r0 k H1.
    apply suffix_cons_cases in H1 as [H1|H1]; [exact H1|exfalso].
    apply suffix_cons_cases in H1 as [H1|H1]; [discriminate|].
    eapply suffix_cons_not; eassumption. }
  subst res.
  destruct (refreshLoop_step n attempt Cancellable email cfg h)
    as [(k & Hk & Hnw & _)|(_ & r0 & _ & Hw)].
  - exfalso. rewrite Hk in Hs. eapply no_wait_suffix; eassumption.
  - cbv zeta in Hw.
    destruct (ctxDone (Wait (backoff attempt) :: Do r0 :: h)) as [e'|] eqn:Hd.
    + rewrite Hw in Hs |- *. cbn [snd] in Hs.
      apply Hhw in Hs. rewrite <- Hs in Hd. congruence.
    + rewrite Hw in Hs |- *.
      pose proof (grows_refreshLoop n (attempt + 1) Cancellable email cfg
                    (Wait (backoff attempt) :: Do r0 :: h)) as Hg.
      destruct (suffix_comparable _ _ _ Hs Hg) as [H1|H1].
      * apply Hhw in H1. rewrite <- H1 in Hd. congruence.
      * apply suffix_cons_cases in H1 as [H1|H1].
        { rewrite H1 in Hd. congruence. }
        now apply IH.
Qed.

Lemma waits_no_wait k :
  forallb (fun e => negb (isWait e)) k = true -> waits k = [].
Proof.
  induction k as [|e k IH]; [reflexivity|]. cbn.
  intros [He Hk]%andb_prop. destruct e; try discriminate; auto.
Qed.

Lemma refreshLoop_waits_third ctx email cfg h :
  waits (snd (refreshLoop 1 3 ctx email cfg h)) = waits h.
Proof.
  destruct (refreshLoop_step 0 3 ctx email cfg h)
    as [(k & -> & Hk & _)|(Hne & _)].
  - now rewrite waits_app, waits_no_wait.
  - now contradict Hne.
Qed.

Lemma refreshLoop_waits_second ctx email cfg h :
  exists ws,
    waits (snd (refreshLoop 2 2 ctx email cfg h)) = ws ++ waits h
    /\ (ws = [] \/ ws = [8 * time_Second]).
Proof.
  destruct (refreshLoop_step 1 2 ctx email cfg h)
    as [(k & -> & Hk & _)|(_ & r0 & _ & Hw)].
  - exists []. split; [|now left]. now rewrite waits_app, waits_no_wait.
  - exists [8 * time_Second]. split; [|now right]. cbv zeta in Hw.
    destruct (match ctx with Background => None | Cancellable => _ end);
      rewrite Hw; [|change (2 + 1) with 3;
                    rewrite refreshLoop_waits_third];
      destruct r0; reflexivity.
Qed.

Lemma refreshLoop_waits_first ctx email cfg h :
  exists ws,
    waits (snd (refreshLoop 3 1 ctx email cfg h)) = ws ++ waits h
    /\ (ws = [] \/ ws = [2 * time_Second]
        \/ ws = [8 * time_Second; 2 * time_Second]).
Proof.
  destruct (refreshLoop_step 2 1 ctx email cfg h)
    as [(k & -> & Hk & _)|(_ & r0 & _ & Hw)].
  - exists []. split; [|now left]. now rewrite waits_app, waits_no_wait.
  - cbv zeta in Hw.
    destruct (match ctx with Background => None | Cancellable => _ end).
    + exists [2 * time_Second]. split; [|right; now left].
      rewrite Hw. destruct r0; reflexivity.
    + change (1 + 1) with 2 in Hw. rewrite Hw.
      destruct (refreshLoop_waits_second ctx email cfg
                  (Wait (backoff 1) :: Do r0 :: h)) as (ws & -> & Hws).
      exists (ws ++ [2 * time_Second]). split.
      * rewrite <- app_assoc. destruct r0; reflexivity.
      * destruct Hws as [->| ->]; [right; now left|right; now right].
Qed.

(** One turn of the refresh loop, by the outcome of its token request. *)
Lemma refreshLoop_turn n attempt ctx email cfg h :
  let req := Do (GetCopilotToken (GitHubToken cfg) (UserAgent (Headers cfg))) in
  let hw := Wait (backoff attempt) :: req :: h in
  let res := refreshLoop (S n) attempt ctx email cfg h in
  match fst (getCopilotToken cfg (GitHubToken cfg) h) with
  | Panic v => res = (Panic v, h)
  | Ret (_, Some e) =>
      if (attempt =? maxRefreshRetries)%Z
      then res = (Ret (cfg, Some e), req :: h)
      else match (match ctx with
                  | Background => None
                  | Cancellable => ctxDone hw
                  end) with
           | Some e' => res = (Ret (cfg, Some e'), hw)
           | None => res = refreshLoop n (attempt + 1) ctx email cfg hw
           end
  | Ret (_, None) =>
      exists k, snd res = k ++ req :: h
                /\ forallb (fun x => negb (isWait x)
                                     && negb (isCopilotRequest x)) k = true
  end.
Proof.
  intros req hw res.
  assert (Hres : res = refreshLoop (S n) attempt ctx email cfg h)
    by reflexivity.
  clearbody res. cbn [refreshLoop] in Hres. unfold bind at 1 in Hres.
  destruct (getCopilotToken_result cfg (GitHubToken cfg) h)
    as [[v Hv]|[[[[tok ex] ri] err] Hv]]; rewrite Hv in Hres |- *;
    cbn [fst]; [exact Hres|].
  destruct err as [e|].
  - destruct (attempt =? maxRefreshRetries)%Z; [exact Hres|].
    unfold bind, selectTimer, bind, emit in Hres.
    destruct ctx; [exact Hres|]. unfold ask in Hres.
    fold req in Hres. fold hw in Hres.
    destruct (ctxDone hw); exact Hres.
  - unfold bind in Hres.
    destruct (updateTokenInDatabase_result email
                (setCopilotToken cfg tok ex ri) (req :: h))
      as (v & k & Hu & Hk).
    fold req in Hres. rewrite Hu in Hres. exists k.
    split; [subst res; now destruct (snd v)|].
    now destruct Hk as [->|[r ->]].
Qed.

(** A token request of the loop is the first thing a turn does. *)
Lemma refreshLoop_request_located n : forall attempt ctx email cfg h pre,
  let req := Do (GetCopilotToken (GitHubToken cfg) (UserAgent (Headers cfg))) in
  (req :: pre) `suffix_of` snd (refreshLoop n attempt ctx email cfg h) ->
  h `suffix_of` pre ->
  exists j : nat,
    (j < n)%nat
    /\ count isCopilotRequest pre = count isCopilotRequest h + Z.of_nat j
    /\ refreshLoop n attempt ctx email cfg h
       = refreshLoop (n - j) (attempt + Z.of_nat j) ctx email cfg pre.
Proof.
  induction n as [|n IH]; intros attempt ctx email cfg h pre req Hs Hh.
  { exfalso. cbn in Hs. eapply suffix_cons_not; eassumption. }
  assert (Hhere : pre = h ->
            exists j : nat,
              (j < S n)%nat
              /\ count isCopilotRequest pre
                 = count isCopilotRequest h + Z.of_nat j
              /\ refreshLoop (S n) attempt ctx email cfg h
                 = refreshLoop (S n - j) (attempt + Z.of_nat j) ctx email cfg
                     pre).
  { intros ->. exists 0%nat. change (Z.of_nat 0) with 0.
    rewrite !Z.add_0_r. split; [lia|]. split; reflexivity. }
  assert (Hreq : (req :: pre) `suffix_of` (req :: h) -> pre = h).
  { intros H1. apply suffix_cons_cases in H1 as [H1|H1]; [congruence|].
    exfalso. eapply suffix_cons_not; eassumption. }
  pose proof (refreshLoop_turn n attempt ctx email cfg h) as Ht.
  cbv zeta in Ht. fold req in Ht.
  destruct (fst (getCopilotToken cfg (GitHubToken cfg) h))
    as [[v [e|]]|v].
  - destruct (attempt =? maxRefreshRetries)%Z.
    { rewrite Ht in Hs. auto. }
    set (hw := Wait (backoff attempt) :: req :: h) in *.
    assert (Hhw : (req :: pre) `suffix_of` hw -> pre = h).
    { intros H1. apply suffix_cons_cases in H1 as [H1|H1];
        [discriminate|auto]. }
    destruct (match ctx with Background => None | Cancellable => _ end).
    { rewrite Ht in Hs. auto. }
    rewrite Ht in Hs.
    pose proof (grows_refreshLoop n (attempt + 1) ctx email cfg hw) as Hg.
    destruct (suffix_comparable _ _ _ Hs Hg) as [H1|H1]; [auto|].
    apply suffix_cons_cases in H1 as [H1|H1]; [discriminate|].
    destruct (IH (attempt + 1) ctx email cfg hw pre Hs H1)
      as (j & Hj & Hc & Hr).
    exists (S j). split; [lia|]. split.
    + rewrite Hc. unfold hw. cbn. lia.
    + rewrite Ht, Hr. f_equal. lia.
  - destruct Ht as (k & Hk & Hno). rewrite Hk in Hs.
    apply Hhere. clear Hk. induction k as [|x k IHk]; [auto|].
    cbn in Hno. apply andb_prop in Hno as [Hx Hno].
    apply suffix_cons_cases in Hs as [H1|H1]; [|auto].
    injection H1 as <- _. now rewrite ?andb_false_r in Hx.
  - exfalso. rewrite Ht in Hs. eapply suffix_cons_not; eassumption.
Qed.

(** Whether [getCopilotToken] panics does not depend on the history. *)
Lemma getCopilotToken_returns cfg tok h h' v :
  fst (getCopilotToken cfg tok h) = Ret v ->
  exists v', getCopilotToken cfg tok h'
             = (Ret v', Do (GetCopilotToken tok (UserAgent (Headers cfg)))
                          :: h').
Proof.
  intros Hv.
  destruct (getCopilotToken_result cfg tok h') as [[w Hw]|Hw]; [|exact Hw].
  exfalso. revert Hv Hw. unfold getCopilotToken.
  destruct (_ <? _)%nat; [discriminate|].
  unfold bind, httpDo, bind, emit, ask.
  destruct (replyCopilot (_ :: h')) as [e|st tx [e|c]];
    try destruct (negb _); discriminate.
Qed.

(** A turn whose token request does not panic sends it. *)
Lemma refreshLoop_sends n attempt ctx email cfg h v :
  fst (getCopilotToken cfg (GitHubToken cfg) h) = Ret v ->
  (Do (GetCopilotToken (GitHubToken cfg) (UserAgent (Headers cfg))) :: h)
  `suffix_of` snd (refreshLoop (S n) attempt ctx email cfg h).
Proof.
  intros Hv. pose proof (refreshLoop_turn n attempt ctx email cfg h) as Ht.
  cbv zeta in Ht. rewrite Hv in Ht. destruct v as [v [e|]].
  - destruct (attempt =? maxRefreshRetries)%Z; [now rewrite Ht|].
    destruct (match ctx with Background => None | Cancellable => _ end);
      rewrite Ht.
    + now apply suffix_cons_r.
    + etransitivity; [|apply grows_refreshLoop].
      now apply suffix_cons_r.
  - destruct Ht as (k & -> & _). now apply suffix_app_r.
Qed.

(** A wait of the loop follows a failed token request of a turn that is
    not the last, lasts [backoff] of that turn, and is followed by the
    return of the context's error or by the next turn. *)
Lemma refreshLoop_wait_located n : forall attempt ctx email cfg h d pre,
  let req := Do (GetCopilotToken (GitHubToken cfg) (UserAgent (Headers cfg))) in
  (Wait d :: pre) `suffix_of` snd (refreshLoop n attempt ctx email cfg h) ->
  h `suffix_of` pre ->
  exists (j : nat) pre' v e,
    pre = req :: pre'
    /\ (j < n)%nat
    /\ attempt + Z.of_nat j <> maxRefreshRetries
    /\ count isCopilotRequest pre' = count isCopilotRequest h + Z.of_nat j
    /\ d = backoff (attempt + Z.of_nat j)
    /\ fst (getCopilotToken cfg (GitHubToken cfg) pre') = Ret (v, Some e)
    /\ refreshLoop n attempt ctx email cfg h
       = match (match ctx with
                | Background => None
                | Cancellable => ctxDone (Wait d :: pre)
                end) with
         | Some e' => (Ret (cfg, Some e'), Wait d :: pre)
         | None => refreshLoop (n - S j) (attempt + Z.of_nat (S j)) ctx email
                     cfg (Wait d :: pre)
         end.
Proof.
  induction n as [|n IH]; intros attempt ctx email cfg h d pre req Hs Hh.
  { exfalso. cbn in Hs. eapply suffix_cons_not; eassumption. }
  assert (Hreq : (Wait d :: pre) `suffix_of` (req :: h) -> False).
  { intros H1. apply suffix_cons_cases in H1 as [H1|H1]; [discriminate|].
    eapply suffix_cons_not; eassumption. }
  pose proof (refreshLoop_turn n attempt ctx email cfg h) as Ht.
  cbv zeta in Ht. fold req in Ht.
  destruct (fst (getCopilotToken cfg (GitHubToken cfg) h))
    as [[v [e|]]|v] eqn:Hv.
  - destruct (attempt =? maxRefreshRetries)%Z eqn:Ea.
    { exfalso. rewrite Ht in Hs. auto. }
    set (hw := Wait (backoff attempt) :: req :: h) in *.
    set (c := match ctx with Background => None | Cancellable => ctxDone hw
              end) in *.
    assert (Hhere : Wait d :: pre = hw ->
              exists (j : nat) pre' v e,
                pre = req :: pre'
                /\ (j < S n)%nat
                /\ attempt + Z.of_nat j <> maxRefreshRetries
                /\ count isCopilotRequest pre'
                   = count isCopilotRequest h + Z.of_nat j
                /\ d = backoff (attempt + Z.of_nat j)
                /\ fst (getCopilotToken cfg (GitHubToken cfg) pre')
                   = Ret (v, Some e)
                /\ refreshLoop (S n) attempt ctx email cfg h
                   = match (match ctx with
                            | Background => None
                            | Cancellable => ctxDone (Wait d :: pre)
                            end) with
                     | Some e' => (Ret (cfg, Some e'), Wait d :: pre)
                     | None => refreshLoop (S n - S j)
                                 (attempt + Z.of_nat (S j)) ctx email cfg
                                 (Wait d :: pre)
                     end).
    { intros Heq. rewrite Heq. injection Heq as -> ->.
      exists 0%nat, h, v, e. change (Z.of_nat 0) with 0.
      rewrite !Z.add_0_r. split; [reflexivity|]. split; [lia|].
      split; [lia|]. do 2 (split; [reflexivity|]). split; [exact Hv|].
      fold hw. fold c. change (Z.of_nat 1) with 1.
      replace (S n - 1)%nat with n by lia.
      now destruct c. }
    assert (Hhw : (Wait d :: pre) `suffix_of` hw -> Wait d :: pre = hw).
    { intros H1. apply suffix_cons_cases in H1 as [H1|H1]; [exact H1|].
      now exfalso. }
    destruct c as [e'|] eqn:Hc.
    { rewrite Ht in Hs. auto. }
    rewrite Ht in Hs.
    pose proof (grows_refreshLoop n (attempt + 1) ctx email cfg hw) as Hg.
    destruct (suffix_comparable _ _ _ Hs Hg) as [H1|H1]; [auto|].
    apply suffix_cons_cases in H1 as [H1|H1]; [auto|].
    destruct (IH (attempt + 1) ctx email cfg hw d pre Hs H1)
      as (j & pre' & v' & e' & Hp & Hj & Ha & Hn & Hd & Hf & Hr).
    exists (S j), pre', v', e'. split; [exact Hp|]. split; [lia|].
    replace (attempt + Z.of_nat (S j)) with (attempt + 1 + Z.of_nat j)
      by lia.
    split; [exact Ha|]. split; [rewrite Hn; unfold hw; cbn; lia|].
    split; [exact Hd|]. split; [exact Hf|].
    rewrite Ht, Hr.
    replace (attempt + 1 + Z.of_nat (S j)) with (attempt + Z.of_nat (S (S j)))
      by lia.
    reflexivity.
  - exfalso. destruct Ht as (k & Hk & Hno). rewrite Hk in Hs. clear Hk.
    induction k as [|x k IHk]; [auto|].
    cbn in Hno. apply andb_prop in Hno as [Hx Hno].
    apply suffix_cons_cases in Hs as [H1|H1]; [|auto].
    injection H1 as <- _. discriminate.
  - exfalso. rewrite Ht in Hs. eapply suffix_cons_not; eassumption.
Qed.

(** C6, as amended.  A call of [RefreshTokenWithContext] sends at most 3
    token requests.  When its n-th token request fails, it waits 2 s for
    n = 1 and 8 s for n = 2 right after that request, and for n = 3 it
    returns the error of the request at once; these are the only waits
    of the call, each follows a failed token request, and a wait during
    which the context is not done is followed by the next token request.
    When the context is done during a wait, the call returns the
    context's error with that wait as the last thing it did. *)
Theorem refresh_backoff_and_cancellation
  (s : AuthService) (ctx : Context) (email : string) (cfg : Config)
  (h : list event) :
  let res := RefreshTokenWithContext s ctx email cfg h in
  let req := Do (GetCopilotToken (GitHubToken cfg) (UserAgent (Headers cfg))) in
  count isCopilotRequest (snd res) <= count isCopilotRequest h + 3
  /\ (exists ws,
        waits (snd res) = ws ++ waits h
        /\ (ws = [] \/ ws = [2 * time_Second]
            \/ ws = [8 * time_Second; 2 * time_Second]))
  /\ (forall d pre e,
        ctx = Cancellable ->
        (Wait d :: pre) `suffix_of` snd res ->
        h `suffix_of` pre ->
        ctxDone (Wait d :: pre) = Some e ->
        res = (Ret (cfg, Some e), Wait d :: pre))
  /\ (forall pre v e,
        (req :: pre) `suffix_of` snd res ->
        h `suffix_of` pre ->
        fst (getCopilotToken cfg (GitHubToken cfg) pre) = Ret (v, Some e) ->
        let n := count isCopilotRequest (req :: pre)
                 - count isCopilotRequest h in
        (n = 1 \/ n = 2 \/ n = 3)
        /\ (n <> 3 ->
            (Wait (2 * n * n * time_Second) :: req :: pre)
            `suffix_of` snd res)
        /\ (n = 3 -> res = (Ret (cfg, Some e), req :: pre)))
  /\ (forall d pre,
        (Wait d :: pre) `suffix_of` snd res ->
        h `suffix_of` pre ->
        exists pre' v e,
          pre = req :: pre'
          /\ fst (getCopilotToken cfg (GitHubToken cfg) pre')
             = Ret (v, Some e)
          /\ (let n := count isCopilotRequest pre
                       - count isCopilotRequest h in
              (n = 1 \/ n = 2) /\ d = 2 * n * n * time_Second)
          /\ (ctx = Background \/ ctxDone (Wait d :: pre) = None ->
              (req :: Wait d :: pre) `suffix_of` snd res)).
Proof.
  intros res req.
  set (h1 := Entered "RefreshTokenWithContext" :: h).
  assert (Hres : res = match refreshFunc s with
                       | Some f => (Ret (f cfg), CalledRefreshFunc :: h1)
                       | None =>
                           if (GitHubToken cfg =? "")%string
                           then (Ret (cfg, Some (AuthenticationError
                                   "no GitHub token available for refresh"
                                   None)), h1)
                           else refreshLoop 3 1 ctx email cfg h1
                       end).
  { subst res. unfold RefreshTokenWithContext, bind at 1. cbn [emit].
    destruct (refreshFunc s); [reflexivity|].
    destruct (GitHubToken cfg =? "")%string; reflexivity. }
  clearbody res. subst res.
  assert (Hsuf : forall d pre k,
             forallb (fun e => negb (isWait e)) k = true ->
             (Wait d :: pre) `suffix_of` (k ++ h) -> h `suffix_of` pre ->
             False) by (intros; eapply no_wait_suffix; eassumption).
  assert (Hnone : forall pre k,
             forallb (fun e => negb (isCopilotRequest e)) k = true ->
             (req :: pre) `suffix_of` (k ++ h) -> h `suffix_of` pre ->
             False).
  { intros pre k. induction k as [|x k IHk]; cbn; intros Hk Hs Hh.
    - eapply suffix_cons_not; eassumption.
    - apply andb_prop in Hk as [Hx Hk].
      apply suffix_cons_cases in Hs as [Heq|Hs]; [|now apply IHk].
      injection Heq as <- _. discriminate. }
  destruct (refreshFunc s) as [f|].
  { cbn [snd]. split; [cbn; lia|]. split; [exists []; auto|].
    split; [|split].
    - intros d pre e _ Hs Hh _. exfalso.
      apply (Hsuf d pre
               [CalledRefreshFunc; Entered "RefreshTokenWithContext"]); auto.
    - intros pre v e Hs Hh _. exfalso.
      apply (Hnone pre
               [CalledRefreshFunc; Entered "RefreshTokenWithContext"]); auto.
    - intros d pre Hs Hh. exfalso.
      apply (Hsuf d pre
               [CalledRefreshFunc; Entered "RefreshTokenWithContext"]); auto. }
  destruct (GitHubToken cfg =? "")%string.
  { cbn [snd]. split; [cbn; lia|]. split; [exists []; auto|].
    split; [|split].
    - intros d pre e _ Hs Hh _. exfalso.
      apply (Hsuf d pre [Entered "RefreshTokenWithContext"]); auto.
    - intros pre v e Hs Hh _. exfalso.
      apply (Hnone pre [Entered "RefreshTokenWithContext"]); auto.
    - intros d pre Hs Hh. exfalso.
      apply (Hsuf d pre [Entered "RefreshTokenWithContext"]); auto. }
  pose proof (grows_refreshLoop 3 1 ctx email cfg h1) as Hg.
  assert (Hin : forall x pre,
             (x :: pre) `suffix_of` snd (refreshLoop 3 1 ctx email cfg h1) ->
             h `suffix_of` pre -> x <> Entered "RefreshTokenWithContext" ->
             h1 `suffix_of` pre).
  { intros x pre Hs Hh Hx.
    destruct (suffix_comparable _ _ _ Hs Hg) as [H1|H1].
    - exfalso. apply suffix_cons_cases in H1 as [H1|H1].
      + injection H1 as H1 _. auto.
      + eapply suffix_cons_not; eassumption.
    - apply suffix_cons_cases in H1 as [H1|H1]; [|exact H1].
      exfalso. injection H1 as H1 _. auto. }
  split; [|split; [|split; [|split]]].
  - etransitivity; [apply refreshLoop_attempts|]. cbn. lia.
  - destruct (refreshLoop_waits_first ctx email cfg h1) as (ws & -> & Hws).
    exists ws. split; [reflexivity|exact Hws].
  - intros d pre e -> Hs Hh He.
    apply refreshLoop_cancel; [exact Hs| |exact He].
    now apply (Hin (Wait d)).
  - intros pre v e Hs Hh Hf n.
    assert (H1 : h1 `suffix_of` pre) by now apply (Hin req).
    destruct (refreshLoop_request_located 3 1 ctx email cfg h1 pre Hs H1)
      as (j & Hj & Hc & Hr).
    assert (Hn : n = 1 + Z.of_nat j).
    { subst n. cbn [count]. rewrite Hc. unfold h1, req. cbn. lia. }
    rewrite Hr. clear Hr Hs.
    destruct j as [|[|[|j]]]; [| | |lia];
      cbn [Nat.sub] in *; cbn in Hn; rewrite Hn;
      (split; [lia|]);
      match goal with
      | |- context [refreshLoop (S ?m) ?a _ _ _ _] =>
          pose proof (refreshLoop_turn m a ctx email cfg pre) as Ht
      end;
      cbv zeta in Ht; rewrite Hf in Ht; fold req in Ht.
    + split; [intros _|lia]. change (1 + Z.of_nat 0) with 1 in *.
      change (1 =? maxRefreshRetries)%Z with false in Ht.
      change (backoff 1) with (2 * 1 * 1 * time_Second) in Ht.
      destruct (match ctx with Background => None | Cancellable => _ end);
        rewrite Ht; [reflexivity|apply grows_refreshLoop].
    + split; [intros _|lia]. change (1 + Z.of_nat 1) with 2 in *.
      change (2 =? maxRefreshRetries)%Z with false in Ht.
      change (backoff 2) with (2 * 2 * 2 * time_Second) in Ht.
      destruct (match ctx with Background => None | Cancellable => _ end);
        rewrite Ht; [reflexivity|apply grows_refreshLoop].
    + split; [lia|intros _]. exact Ht.
  - intros d pre Hs Hh.
    assert (H1 : h1 `suffix_of` pre) by now apply (Hin (Wait d)).
    destruct (refreshLoop_wait_located 3 1 ctx email cfg h1 d pre Hs H1)
      as (j & pre' & v & e & Hp & Hj & Ha & Hc & Hd & Hf & Hr).
    exists pre', v, e. split; [exact Hp|]. split; [exact Hf|].
    assert (Hn : count isCopilotRequest pre - count isCopilotRequest h
                 = 1 + Z.of_nat j).
    { rewrite Hp. cbn [count]. rewrite Hc. unfold h1, req. cbn. lia. }
    cbv zeta. rewrite Hn, Hr. clear Hr Hs.
    assert (Hj' : j = 0%nat \/ j = 1%nat)
      by (unfold maxRefreshRetries in Ha; lia).
    split.
    + destruct Hj' as [-> | ->]; rewrite Hd; (split; [lia|reflexivity]).
    + intros Hlive.
      assert (Hc' : match ctx with
                    | Background => None
                    | Cancellable => ctxDone (Wait d :: pre)
                    end = None) by (destruct ctx, Hlive; congruence).
      rewrite Hc'.
      destruct (getCopilotToken_returns cfg (GitHubToken cfg) pre'
                  (Wait d :: pre) _ Hf) as [v' Hv'].
      destruct Hj' as [-> | ->]; cbn [Nat.sub];
        eapply refreshLoop_sends; rewrite Hv'; reflexivity.
Qed.

End RefreshProperties.

(** ** Refresh: scenarios *)

Section RefreshScenarios.
Import GoStrings Errors World Auth Scenario.
Local Open Scope string_scope.

(** The boundary of proactive refresh at [expires_at - now = 300]. *)
Lemma ensure_valid_token_refresh_boundary_witness :
  exists added,
    snd (EnsureValidTokenWithConfig (E := unreachable 1000) service
           "u@x.com" (record 1300) []) = (added ++ [])%list
    /\ (In (Entered "RefreshTokenWithContext") added <-> 1300 - 1000 <= 300)
    /\ (300 < 1300 - 1000 ->
        EnsureValidTokenWithConfig (E := unreachable 1000) service
          "u@x.com" (record 1300) []
        = (Ret (Some (record 1300), None), [])).
Proof.
  destruct (ensure_valid_token_refresh_boundary (E := unreachable 1000)
              service "u@x.com" (record 1300) [])
    as (added & Hadd & Hiff & Hkeep & _).
  - discriminate.
  - unfold Int64.in_range, Int64.min_int, Int64.max_int. cbn. lia.
  - exists added. repeat split; try assumption; apply Hiff.
Defined.

(** Expiry 299 s and 300 s ahead: the refresh routine runs (and here
    exhausts its three attempts); 301 s ahead: the record comes back
    untouched and nothing is sent. *)
Example refresh_boundary_299_300_301 :
  let run e := EnsureValidTokenWithConfig (E := unreachable 1000) service
                 "u@x.com" (record e) [] in
  let req := Do (GetCopilotToken "gho_0123456789abcdef"
                   "GitHubCopilotChat/0.29.1") in
  let exhausted :=
    (Ret (None, Some (ErrorString "connection refused")),
     [req; Wait 8000000000; req; Wait 2000000000; req;
      Entered "RefreshTokenWithContext"]) in
  run 1299 = exhausted
  /\ run 1300 = exhausted
  /\ run 1301 = (Ret (Some (record 1301), None), []).
Proof. vm_compute. repeat split. Qed.

(** A context cancelled during the first backoff wait: the call returns
    the context's error there.  An upstream that cannot be reached: the
    second failed token request is followed by a wait of 8 s, the first
    wait by the second token request, and the third failed token request
    by the return of its error. *)
Lemma refresh_backoff_and_cancellation_witness :
  let req := Do (GetCopilotToken "gho_0123456789abcdef"
                   "GitHubCopilotChat/0.29.1") in
  let entered := Entered "RefreshTokenWithContext" in
  let res := RefreshTokenWithContext (E := unreachable 1000) service
               Cancellable "u@x.com" (record 1000) [] in
  RefreshTokenWithContext (E := cancelledInFirstWait) service Cancellable
    "u@x.com" (record 1000) []
  = (Ret (record 1000, Some context_Canceled),
     [Wait (2 * time_Second); req; entered])
  /\ [Wait (8 * time_Second); req; Wait (2 * time_Second); req; entered]
     `suffix_of` snd res
  /\ [req; Wait (2 * time_Second); req; entered] `suffix_of` snd res
  /\ res = (Ret (record 1000, Some (ErrorString "connection refused")),
            [req; Wait (8 * time_Second); req; Wait (2 * time_Second); req;
             entered]).
Proof.
  intros req entered res.
  split; [|split; [|split]].
  - apply (proj1 (proj2 (proj2 (refresh_backoff_and_cancellation
                                  (E := cancelledInFirstWait) service
                                  Cancellable "u@x.com" (record 1000) [])))).
    + reflexivity.
    + exists []. vm_compute. reflexivity.
    + eexists. symmetry. apply app_nil_r.
    + vm_compute. reflexivity.
  - destruct (proj1 (proj2 (proj2 (proj2
                (refresh_backoff_and_cancellation
                   (E := unreachable 1000) service Cancellable "u@x.com"
                   (record 1000) []))))
                [Wait (2 * time_Second); req; entered]
                ("", 0, 0) (ErrorString "connection refused"))
      as (_ & Hwait & _).
    + exists [req; Wait (8 * time_Second)]. vm_compute. reflexivity.
    + eexists. symmetry. apply app_nil_r.
    + vm_compute. reflexivity.
    + apply Hwait. vm_compute. discriminate.
  - destruct (proj2 (proj2 (proj2 (proj2
                (refresh_backoff_and_cancellation
                   (E := unreachable 1000) service Cancellable "u@x.com"
                   (record 1000) []))))
                (2 * time_Second) [req; entered])
      as (pre' & v & e & _ & _ & _ & Hnext).
    + exists [req; Wait (8 * time_Second); req]. vm_compute. reflexivity.
    + eexists. symmetry. apply app_nil_r.
    + apply Hnext. right. vm_compute. reflexivity.
  - destruct (proj1 (proj2 (proj2 (proj2
                (refresh_backoff_and_cancellation
                   (E := unreachable 1000) service Cancellable "u@x.com"
                   (record 1000) []))))
                [Wait (8 * time_Second); req; Wait (2 * time_Second); req;
                 entered]
                ("", 0, 0) (ErrorString "connection refused"))
      as (_ & _ & Hret).
    + exists []. vm_compute. reflexivity.
    + eexists. symmetry. apply app_nil_r.
    + vm_compute. reflexivity.
    + apply Hret. vm_compute. reflexivity.
Defined.

(** C6 as stated lists three waits (2 s, 8 s, 18 s).  When all three
    attempts fail, the routine has waited 2 s and 8 s only: the third
    failure returns at once. *)
Lemma refresh_waits_counterexample :
  let res := RefreshTokenWithContext (E := unreachable 1000) service
               Cancellable "u@x.com" (record 1000) [] in
  count isCopilotRequest (snd res) = 3
  /\ rev (waits (snd res)) = [2 * time_Second; 8 * time_Second]
  /\ rev (waits (snd res))
     <> [2 * time_Second; 8 * time_Second; 18 * time_Second]
  /\ fst res = Ret (record 1000, Some (ErrorString "connection refused")).
Proof. vm_compute. repeat split. discriminate. Qed.

End RefreshScenarios.

(** ** Device flow, stage 2: poll mode *)

Section PollProperties.
Import GoStrings Errors World Auth.
Context `{E : Env}.
Local Open Scope string_scope.

Variables (ctx : Context) (cfg : Config) (deviceCode : string) (interval : Z).

Let d : Z := Int64.wrap (interval * time_Second).
Let hw (h : list event) : list event := Wait d :: h.
Let hreq (h : list event) : list event :=
  Do (PostToken deviceCode (UserAgent (Headers cfg))) :: hw h.
Let ctxErr (h : list event) : option error :=
  match ctx with Background => None | Cancellable => ctxDone (hw h) end.

(** One iteration, response by response. *)
Lemma pollLoop_step n h :
  let it := pollLoop (S n) ctx cfg deviceCode interval h in
  let next := pollLoop n ctx cfg deviceCode interval (hreq h) in
  match ctxErr h with
  | Some e => it = (Ret ("", Some e), hw h)
  | None =>
      match replyToken (hreq h) with
      | DoError _ | Response _ _ (inl _) => it = next
      | Response _ _ (inr tr) =>
          if tr_Error tr =? "authorization_pending" then it = next
          else if negb (tr_Error tr =? "")
          then it = (Ret ("", Some (AuthenticationError
                                      ("authorization failed: " ++ tr_Error tr
                                       ++ " - " ++ ErrorDesc tr) None)),
                     hreq h)
          else if negb (AccessToken tr =? "")
          then it = (Ret (AccessToken tr, None), hreq h)
          else it = next
      end
  end.
Proof.
  cbv zeta. unfold ctxErr, hreq, hw, d.
  cbn [pollLoop]. unfold selectTimer, httpDo, bind, emit, ask, ret.
  destruct ctx; cbv beta iota zeta.
  2: destruct (ctxDone _); [reflexivity|].
  all: destruct (replyToken _) as [e|st tx [e|tr]]; try reflexivity.
  all: destruct (tr_Error _ =? "authorization_pending") eqn:Ep.
  all: destruct (tr_Error _ =? "") eqn:Ee; cbn [negb]; try reflexivity.
  all: try (apply String.eqb_eq in Ep, Ee; rewrite Ep in Ee; discriminate).
  all: destruct (AccessToken _ =? ""); reflexivity.
Qed.

Lemma pollLoop_cases n h :
  let it := pollLoop (S n) ctx cfg deviceCode interval h in
  (exists e, it = (Ret ("", Some e), hw h))
  \/ it = pollLoop n ctx cfg deviceCode interval (hreq h)
  \/ (exists v, it = (Ret v, hreq h)).
Proof.
  pose proof (pollLoop_step n h) as H. cbv zeta in *.
  destruct (ctxErr h); [left; eauto|].
  destruct (replyToken (hreq h)) as [e|st tx [e|tr]]; auto.
  destruct (tr_Error tr =? "authorization_pending"); auto.
  destruct (negb (tr_Error tr =? "")); [right; right; eauto|].
  destruct (negb (AccessToken tr =? "")); [right; right; eauto|auto].
Qed.

(** The loop waits before each request, [d] every time, and sends no more
    requests than it waited. *)
Lemma pollLoop_bound n : forall h,
  exists k,
    (k <= n)%nat
    /\ waits (snd (pollLoop n ctx cfg deviceCode interval h))
       = (repeat d k ++ waits h)%list
    /\ count isTokenRequest (snd (pollLoop n ctx cfg deviceCode interval h))
       <= count isTokenRequest h + Z.of_nat k.
Proof.
  induction n as [|n IH]; intros h.
  - exists 0%nat. cbn. repeat split; lia.
  - destruct (pollLoop_cases n h) as [[e ->]|[->|[v ->]]].
    + exists 1%nat. cbn. repeat split; lia.
    + destruct (IH (hreq h)) as (k & Hk & Hw & Hc).
      exists (S k). split; [lia|]. rewrite Hw. split.
      * unfold hreq, hw. cbn [waits repeat].
        rewrite repeat_cons, <- app_assoc. reflexivity.
      * etransitivity; [exact Hc|]. cbn. lia.
    + exists 1%nat. cbn. repeat split; lia.
Qed.

(** While the user has not authorised and the context lives, the loop
    uses up all its iterations. *)
Lemma pollLoop_pending n : forall h,
  (forall h', ctx = Cancellable -> ctxDone h' = None) ->
  (forall h', exists st tx tr,
      replyToken h' = Response st tx (inr tr)
      /\ tr_Error tr = "authorization_pending") ->
  count isTokenRequest (snd (pollLoop n ctx cfg deviceCode interval h))
  = count isTokenRequest h + Z.of_nat n
  /\ fst (pollLoop n ctx cfg deviceCode interval h)
     = Ret ("", Some (AuthenticationError "authentication timed out" None)).
Proof.
  intros h Hctx Hrep. revert h.
  induction n as [|n IH]; intros h.
  - cbn. split; [lia|reflexivity].
  - pose proof (pollLoop_step n h) as H. cbv zeta in H.
    assert (Hc : ctxErr h = None).
    { unfold ctxErr. destruct ctx; [reflexivity|]. now apply Hctx. }
    rewrite Hc in H.
    destruct (Hrep (hreq h)) as (st & tx & tr & Hr & Hp).
    rewrite Hr in H. cbv beta iota in H.
    rewrite Hp, String.eqb_refl in H. rewrite H.
    destruct (IH (hreq h)) as [IH1 IH2]. split; [|exact IH2].
    rewrite IH1. cbn. lia.
Qed.

End PollProperties.

Section PollTheorems.
Import GoStrings Errors World Auth.
Local Open Scope string_scope.

Lemma maxIterations_floor expiresIn interval :
  0 < interval -> 0 <= expiresIn < Int64.max_int ->
  maxIterations expiresIn interval = expiresIn / interval + 1.
Proof.
  intros Hi He. unfold maxIterations.
  rewrite Z.quot_div_nonneg by lia.
  assert (0 <= expiresIn / interval <= expiresIn).
  { split; [apply Z.div_pos; lia|].
    apply Z.div_le_upper_bound; [lia|]. nia. }
  rewrite (wrap_small (expiresIn / interval)), wrap_small;
    unfold Int64.in_range, Int64.min_int, Int64.max_int in *; lia.
Qed.

(** C7, as amended.  In poll mode, stage 2 runs at most
    [floor (expires_in / interval) + 1] iterations (the quotient is Go's
    integer division), each one a wait of [interval] seconds followed by
    one request to the token endpoint, and exactly that many while the
    answer stays [authorization_pending].  In every iteration: a context
    done during the wait ends the call with the context's error; an
    answer with error [authorization_pending] leads to the next iteration;
    any other non-empty error ends the call with an authentication error;
    an answer without error and with a non-empty access token ends it with
    that token. *)
Theorem poll_mode_token_completion `{E : Env}
  (ctx : Context) (cfg : Config) (deviceCode : string)
  (interval expiresIn : Z) (h : list event) :
  0 < interval -> 0 <= expiresIn < Int64.max_int ->
  let bound := expiresIn / interval + 1 in
  let d := Int64.wrap (interval * time_Second) in
  let res :=
    pollForGitHubTokenWithContext ctx cfg deviceCode interval expiresIn h in
  (exists k,
      Z.of_nat k <= bound
      /\ waits (snd res) = (repeat d k ++ waits h)%list
      /\ count isTokenRequest (snd res)
         <= count isTokenRequest h + Z.of_nat k)
  /\ ((forall h', ctx = Cancellable -> ctxDone h' = None) ->
      (forall h', exists st tx tr,
          replyToken h' = Response st tx (inr tr)
          /\ tr_Error tr = "authorization_pending") ->
      count isTokenRequest (snd res) = count isTokenRequest h + bound
      /\ fst res = Ret ("", Some (AuthenticationError
                                   "authentication timed out" None)))
  /\ (forall n h0,
        let hw := Wait d :: h0 in
        let hreq := Do (PostToken deviceCode (UserAgent (Headers cfg))) :: hw in
        let it := pollLoop (S n) ctx cfg deviceCode interval h0 in
        let next := pollLoop n ctx cfg deviceCode interval hreq in
        (forall e, ctx = Cancellable -> ctxDone hw = Some e ->
                   it = (Ret ("", Some e), hw))
        /\ (forall st tx tr,
              (ctx = Cancellable -> ctxDone hw = None) ->
              replyToken hreq = Response st tx (inr tr) ->
              (tr_Error tr = "authorization_pending" -> it = next)
              /\ (tr_Error tr <> "" ->
                  tr_Error tr <> "authorization_pending" ->
                  it = (Ret ("", Some (AuthenticationError
                                         ("authorization failed: "
                                          ++ tr_Error tr ++ " - "
                                          ++ ErrorDesc tr) None)), hreq))
              /\ (tr_Error tr = "" -> AccessToken tr <> "" ->
                  it = (Ret (AccessToken tr, None), hreq)))).
Proof.
  intros Hi He bound d res.
  assert (Hb : 0 <= expiresIn / interval) by (apply Z.div_pos; lia).
  assert (Hres : res = pollLoop (Z.to_nat bound) ctx cfg deviceCode interval h).
  { subst res. unfold pollForGitHubTokenWithContext.
    destruct (interval =? 0)%Z eqn:E0; [lia|].
    now rewrite maxIterations_floor. }
  rewrite Hres. clear Hres res.
  split; [|split].
  - destruct (pollLoop_bound ctx cfg deviceCode interval (Z.to_nat bound) h)
      as (k & Hk & Hw & Hc).
    exists k. repeat split; [lia|exact Hw|exact Hc].
  - intros Hctx Hrep.
    destruct (pollLoop_pending ctx cfg deviceCode interval (Z.to_nat bound) h
                Hctx Hrep) as [H1 H2].
    split; [rewrite H1; unfold bound; lia|exact H2].
  - intros n h0. subst d. cbv zeta.
    pose proof (pollLoop_step ctx cfg deviceCode interval n h0) as H.
    cbv beta zeta in H.
    split.
    + intros e Hctx Hd. subst ctx. rewrite Hd in H. exact H.
    + intros st tx tr Hlive Hr.
      assert (Hc : match ctx with
                   | Background => None
                   | Cancellable =>
                       ctxDone (Wait (Int64.wrap (interval * time_Second))
                                  :: h0)
                   end = None) by (destruct ctx; auto).
      rewrite Hc, Hr in H. clear Hc.
      split; [|split].
      * intros Hp. now rewrite Hp, String.eqb_refl in H.
      * intros Hne Hnp.
        apply String.eqb_neq in Hne, Hnp. now rewrite Hne, Hnp in H.
      * intros Hee Hat. apply String.eqb_neq in Hat.
        rewrite Hee, Hat in H. exact H.
Qed.

(** Expiry after 10 s, polled every 3 s, never authorised. *)
Lemma poll_mode_token_completion_witness :
  let res := pollForGitHubTokenWithContext (E := Scenario.pending) Background
               (Scenario.record 0) "device" 3 10 [] in
  count isTokenRequest (snd res) = 0 + (10 / 3 + 1)
  /\ fst res = Ret ("", Some (AuthenticationError "authentication timed out"
                                None)).
Proof.
  apply (proj1 (proj2 (poll_mode_token_completion (E := Scenario.pending)
                         Background (Scenario.record 0) "device" 3 10 []
                         ltac:(lia)
                         ltac:(unfold Int64.max_int; lia)))).
  - discriminate.
  - intros h'. do 3 eexists. split; reflexivity.
Defined.

(** C7 as stated has [ceil (expires_in / interval) + 1] iterations.  With
    [expires_in = 10] and [interval = 3] that would be 5; the code polls
    4 times and gives up. *)
Lemma poll_iterations_counterexample :
  let res := pollForGitHubTokenWithContext (E := Scenario.pending) Background
               (Scenario.record 0) "device" 3 10 [] in
  count isTokenRequest (snd res) = 4
  /\ count isWait (snd res) = 4
  /\ fst res = Ret ("", Some (AuthenticationError "authentication timed out"
                                None))
  /\ spec_maxIterations 10 3 = 5.
Proof. vm_compute. repeat split. Qed.

End PollTheorems.

(** ** Device flow, stage 2: single check *)

Section Silence.
Import Errors World.
Context `{E : Env}.
Variable p : event -> bool.

Lemma silent_ret {A} (a : A) : silent p (ret a).
Proof. intros h. reflexivity. Qed.

Lemma silent_panic {A} v : silent p (@panic A v).
Proof. intros h. reflexivity. Qed.

Lemma silent_ask {A} (f : list event -> A) : silent p (ask f).
Proof. intros h. reflexivity. Qed.

Lemma silent_emit e : p e = false -> silent p (emit e).
Proof. intros He h. cbn. now rewrite He. Qed.

Lemma silent_bind {A B} (m : M A) (k : A -> M B) :
  silent p m -> (forall a, silent p (k a)) -> silent p (bind m k).
Proof.
  intros Hm Hk h. unfold bind. specialize (Hm h).
  destruct (m h) as [[a|v] h1]; cbn in *; [|exact Hm].
  now rewrite Hk.
Qed.

Lemma silent_httpDo {A} r (answer : list event -> reply A) :
  p (Do r) = false -> silent p (httpDo r answer).
Proof.
  intros Hr. unfold httpDo. apply silent_bind; [now apply silent_emit|].
  intros _. apply silent_ask.
Qed.

End Silence.

Create HintDb silent.
#[local] Hint Resolve silent_ret silent_panic silent_ask : silent.
#[local] Hint Extern 1 (World.silent _ (World.httpDo _ _)) =>
  apply silent_httpDo; reflexivity : silent.
#[local] Hint Extern 1 (World.silent _ (World.emit _)) =>
  apply silent_emit; reflexivity : silent.

#[local] Ltac silent_step :=
  match goal with
  | |- World.silent _ (World.bind _ _) => apply silent_bind; [|intros ?]
  | |- World.silent _ (match ?x with _ => _ end) => destruct x
  | |- World.silent _ (if ?b then _ else _) => destruct b
  | |- World.silent _ _ => solve [auto with silent]
  end.

#[local] Ltac silent_tac := repeat silent_step.

Section ContainsFacts.
Import GoStrings.
Local Open Scope string_scope.

Lemma prefix_refl s : String.prefix s s = true.
Proof.
  induction s as [|c s IH]; [reflexivity|]. cbn.
  destruct (Ascii.ascii_dec c c); [exact IH|congruence].
Qed.

Lemma prefix_app s t : String.prefix s (s ++ t) = true.
Proof.
  induction s as [|c s IH]; [now destruct t|]. simpl.
  destruct (Ascii.ascii_dec c c); [exact IH|congruence].
Qed.

Lemma Contains_self s : Contains s s = true.
Proof.
  destruct s; [reflexivity|]. cbn [Contains]. now rewrite prefix_refl.
Qed.

Lemma prefix_app_l sub : forall s t,
  String.prefix sub s = true -> String.prefix sub (s ++ t) = true.
Proof.
  induction sub as [|x sub IH]; intros s t H; [now destruct (s ++ t)|].
  destruct s as [|y s]; [discriminate|]. simpl in *.
  destruct (Ascii.ascii_dec x y); [now apply IH|discriminate].
Qed.

Lemma Contains_app_l s t sub :
  Contains s sub = true -> Contains (s ++ t) sub = true.
Proof.
  induction s as [|c s IH]; intros H.
  - cbn [Contains] in H. rewrite orb_false_r in H.
    destruct sub; [|discriminate]. now destruct t.
  - change (String c s ++ t) with (String c (s ++ t)).
    cbn [Contains] in *. apply orb_prop in H as [H|H]; apply orb_true_iff.
    + left. now apply (prefix_app_l sub (String c s) t).
    + right. now apply IH.
Qed.

Lemma Contains_app_r p s sub :
  Contains s sub = true -> Contains (p ++ s) sub = true.
Proof.
  intros H. induction p as [|c p IH]; [exact H|].
  change (String c p ++ s) with (String c (p ++ s)).
  cbn [Contains]. rewrite IH. apply orb_true_r.
Qed.

End ContainsFacts.

Section Stage2Properties.
Import GoStrings Errors World Auth AuthAPI.
Context `{E : Env} `{T : ErrorText} `{L : Lib}.
Local Open Scope string_scope.

Lemma silent_getCopilotToken cfg tok :
  silent isTokenRequest (getCopilotToken cfg tok).
Proof. unfold getCopilotToken. silent_tac. Qed.

Lemma silent_updateTokenInDatabase email cfg :
  silent isTokenRequest (updateTokenInDatabase email cfg).
Proof. unfold updateTokenInDatabase. silent_tac. Qed.

Lemma silent_fetchTokenFromDatabase email :
  silent isTokenRequest (fetchTokenFromDatabase email).
Proof. unfold fetchTokenFromDatabase. silent_tac. Qed.

Hint Resolve silent_getCopilotToken silent_updateTokenInDatabase
  silent_fetchTokenFromDatabase : silent.

(** The single check sends one request to the token endpoint, whatever
    the answer; [authorization_pending] comes back as the message of an
    authentication error. *)
Lemma checkGitHubTokenOnce_result cfg deviceCode h :
  let hreq := Do (PostToken deviceCode (UserAgent (Headers cfg))) :: h in
  exists v,
    checkGitHubTokenOnce cfg deviceCode h = (Ret v, hreq)
    /\ (forall st tx tr,
          replyToken hreq = Response st tx (inr tr) ->
          tr_Error tr = "authorization_pending" ->
          v = ("", Some (AuthenticationError "authorization_pending" None))).
Proof.
  cbv zeta. unfold checkGitHubTokenOnce, httpDo, bind, emit, ask, ret.
  destruct (replyToken _) as [e|st tx [e|tr]] eqn:Hr;
    try (eexists; split; [reflexivity|]; intros; discriminate).
  destruct (tr_Error tr =? "") eqn:Ee; cbn [negb].
  - destruct (negb (AccessToken tr =? ""));
      (eexists; split; [reflexivity|]);
      intros st' tx' tr' [= _ _ <-] Hp;
      rewrite Hp in Ee; discriminate.
  - eexists; split; [reflexivity|].
    intros st' tx' tr' [= _ _ <-] Hp. now rewrite Hp.
Qed.

Lemma silent_afterCheck email cfg tok :
  silent isTokenRequest (afterCheck email cfg tok).
Proof.
  unfold afterCheck. apply silent_bind; [auto with silent|].
  intros [[[a b] c] d]. silent_tac.
Qed.

Lemma AuthenticateStage2_single email deviceCode interval expiresIn cfg h :
  let hreq := Do (PostToken deviceCode (UserAgent (Headers cfg))) :: h in
  exists v,
    checkGitHubTokenOnce cfg deviceCode h = (Ret v, hreq)
    /\ AuthenticateStage2 email deviceCode interval expiresIn cfg false h
       = match snd v with
         | Some e =>
             (Ret (cfg, Some (Wrapped "failed to check GitHub token: " e)),
              hreq)
         | None => afterCheck email cfg (fst v) hreq
         end.
Proof.
  cbv zeta.
  destruct (checkGitHubTokenOnce_result cfg deviceCode h) as (v & Hv & _).
  exists v. split; [exact Hv|].
  unfold AuthenticateStage2. unfold bind at 1 2. rewrite Hv.
  destruct v as [tok [e|]]; reflexivity.
Qed.

Lemma Stage2Handler_valid s config r body req h :
  Method r = "POST" -> Body r = inr body -> unmarshalStage2 body = inr req ->
  Email req <> "" -> isValidEmail (Email req) = true ->
  DeviceCode req <> "" -> 0 < Interval req ->
  Stage2Handler s config r h
  = match AuthenticateStage2 (Email req) (DeviceCode req) (Interval req)
            (ExpiresIn req) config (PollMode req) h with
    | (Panic v, h') => (Panic v, h')
    | (Ret (cfg', Some err), h') =>
        (Ret (if negb (PollMode req)
                 && Contains (Error err) "authorization_pending"
              then sendStage2PendingResponse
              else sendStage2ErrorResponse 500 (Error err), cfg'), h')
    | (Ret (cfg', None), h') =>
        match fetchTokenFromDatabase (Email req) h' with
        | (Panic v, h'') => (Panic v, h'')
        | (Ret (Some cfg, None), h'') =>
            (Ret ({| StatusCode := 200; Success := true;
                     Message := "authentication completed successfully";
                     resp_Error := "";
                     Data := Some (Email req, CopilotToken cfg,
                                   ExpiresAt cfg, RefreshIn cfg) |}, cfg'),
             h'')
        | (Ret _, h'') =>
            (Ret (sendStage2ErrorResponse 500
                    "authentication succeeded but failed to retrieve token info",
                  cfg'), h'')
        end
    end.
Proof.
  intros Hm Hb Hu He Hv Hd Hi.
  apply String.eqb_neq in He, Hd.
  unfold Stage2Handler. rewrite Hm, Hb, Hu, He, Hv, Hd. cbn [negb].
  change ("POST" =? "POST") with true. cbn [negb].
  destruct (Interval req <=? 0)%Z eqn:Ei; [lia|].
  unfold bind at 1.
  destruct (AuthenticateStage2 _ _ _ _ _ _ h) as [[[cfg' [err|]]|v] h'];
    try reflexivity.
  - cbn [fst snd]. now destruct (_ && _).
  - cbn [fst snd]. unfold bind.
    destruct (fetchTokenFromDatabase _ h') as [[[[c|] [e|]]|v] h''];
      reflexivity.
Qed.


End Stage2Properties.

Section Stage2Scenarios.
Import GoStrings Errors World Auth AuthAPI Scenario.
Local Open Scope string_scope.

Lemma specErrorText_contains m c :
  Contains (authErrorText (ErrorText := specErrorText) m c) m = true.
Proof.
  cbn. assert (H : Contains ("authentication error: " ++ m) m = true)
    by (apply Contains_app_r, Contains_self).
  destruct c; [now apply Contains_app_l|exact H].
Qed.


End Stage2Scenarios.

(** ** Proxy handler: request-body limit *)

Section BodyLimit.
Import GoStrings Errors World Auth Breaker Proxy.
Context `{E : Env} `{T : ErrorText} `{P : ProxyLib}.
Local Open Scope string_scope.

Lemma readBody_too_large r body :
  Body r = inr body -> maxRequestBodySize < Z.of_nat (length body) ->
  readBody r = inl (ErrorString "http: request body too large").
Proof.
  intros Hb Hlen. unfold readBody. rewrite Hb.
  destruct (maxRequestBodySize <? Z.of_nat (length body))%Z eqn:El;
    [reflexivity|lia].
Qed.

(** The error of a body over the cap falls through the handler's switch. *)
Lemma statusOfError_payload_too_large :
  statusOfError
    (Error (Wrapped "payload too large: "
              (ErrorString "http: request body too large"))) = 500.
Proof. vm_compute. reflexivity. Qed.

Lemma processProxyRequest_too_large s ctx r st body h :
  Method r = "POST" -> Body r = inr body ->
  maxRequestBodySize < Z.of_nat (length body) ->
  processProxyRequest s ctx r st h
  = (Ret (Some (Wrapped "payload too large: "
                  (ErrorString "http: request body too large")), st), h).
Proof.
  intros Hm Hb Hlen. unfold processProxyRequest.
  rewrite Hm, (readBody_too_large r body Hb Hlen).
  change ("POST" =? "POST") with true. cbn [negb].
  change (Contains (Error (ErrorString "http: request body too large"))
            "http: request body too large")
    with (Contains "http: request body too large"
            "http: request body too large").
  now rewrite Contains_self.
Qed.

(** C1, on the code.  A POST whose body is over the 5 MiB cap, admitted by
    the breaker: the worker sends nothing upstream, and the handler
    answers 500 when it gets the worker's error, never 413. *)
Theorem handler_body_too_large s r cb body h :
  Method r = "POST" -> Body r = inr body ->
  maxRequestBodySize < Z.of_nat (length body) ->
  fst (canExecute (nanotime h) cb) = true ->
  Handler s DoneReceived r cb h
  = (Ret (Some 500, snd (canExecute (nanotime h) cb)), h)
  /\ forall sel, exists status cb',
       Handler s sel r cb h = (Ret (status, cb'), h)
       /\ status <> Some 413.
Proof.
  intros Hm Hb Hlen Hadm.
  assert (Hdone : Handler s DoneReceived r cb h
                  = (Ret (Some 500, snd (canExecute (nanotime h) cb)), h)).
  { unfold Handler, bind at 1, ask.
    destruct (canExecute (nanotime h) cb) as [admitted cb1].
    cbn [fst snd] in *. subst admitted. cbn [negb].
    unfold bind, job.
    rewrite (processProxyRequest_too_large s Cancellable r _ body h Hm Hb Hlen).
    cbn [headersSent negb http_Error wroteHeader circuitBreaker].
    now rewrite statusOfError_payload_too_large. }
  split; [exact Hdone|].
  intros [|sent].
  - do 2 eexists. split; [exact Hdone|discriminate].
  - unfold Handler, bind at 1, ask.
    destruct (canExecute (nanotime h) cb) as [admitted cb1].
    cbn [fst] in Hadm. subst admitted. cbn [negb].
    destruct sent; cbn; do 2 eexists; (split; [reflexivity|discriminate]).
Qed.

End BodyLimit.

Section BodyLimitScenario.
Import GoStrings Errors World Auth Breaker Proxy Scenario.
Local Open Scope string_scope.

(** A body of 5 MiB + 1 byte, breaker closed: 500, nothing sent upstream. *)
Lemma handler_body_too_large_witness :
  Handler (E := unreachable 1000) (T := specErrorText) (P := proxyLib)
    proxyService DoneReceived oversized (NewCircuitBreaker 30) []
  = (Ret (Some 500, NewCircuitBreaker 30), []).
Proof.
  apply (proj1 (handler_body_too_large (E := unreachable 1000)
                  (T := specErrorText) (P := proxyLib)
                  proxyService oversized (NewCircuitBreaker 30)
                  oversizedBody [] eq_refl eq_refl
                  ltac:(unfold oversizedBody; rewrite repeat_length;
                        vm_compute; reflexivity)
                  eq_refl)).
Defined.

End BodyLimitScenario.

(** ** Proxy retry loop *)

Section RetryProperties.
Import GoStrings Errors World Auth Proxy.
Context `{E : Env}.
Local Open Scope string_scope.

Variables (ctx : Context) (req : request).
Hypothesis Hbuild : newRequestErr req = None.

(** One turn of the retry loop. *)
Lemma retryLoop_step n attempt lastResp lastErr h :
  let hreq := Do req :: h in
  let hw := Wait (retryDelay attempt) :: hreq in
  let ctxErr := match ctx with
                | Background => None
                | Cancellable => ctxDone hw
                end in
  let it := retryLoop (S n) attempt ctx req lastResp lastErr h in
  match replyUpstream hreq with
  | UpstreamError err =>
      if (attempt =? maxChatRetries)%Z
      then it = (Ret (None, Some err), hreq)
      else match ctxErr with
           | Some ce => it = (Ret (None, Some ce), hw)
           | None => it = retryLoop n (attempt + 1) ctx req lastResp
                            (Some err) hw
           end
  | UpstreamResponse status =>
      if negb (isRetriableError status None)
      then it = (Ret (Some status, None), hreq)
      else if (attempt =? maxChatRetries)%Z
      then it = (Ret (Some status, None), hreq)
      else match ctxErr with
           | Some ce => it = (Ret (None, Some ce), hw)
           | None => it = retryLoop n (attempt + 1) ctx req (Some status)
                            lastErr hw
           end
  end.
Proof.
  cbv zeta. cbn [retryLoop]. rewrite Hbuild.
  unfold selectTimer, bind, emit, ask, ret.
  destruct (replyUpstream _) as [err|status].
  - destruct (attempt =? maxChatRetries)%Z; [reflexivity|].
    destruct ctx; [reflexivity|]. destruct (ctxDone _); reflexivity.
  - destruct (negb _); [reflexivity|].
    destruct (attempt =? maxChatRetries)%Z; [reflexivity|].
    destruct ctx; [reflexivity|]. destruct (ctxDone _); reflexivity.
Qed.

Lemma grows_retryLoop n : forall attempt lastResp lastErr,
  grows (retryLoop n attempt ctx req lastResp lastErr).
Proof.
  induction n as [|n IH]; intros attempt lastResp lastErr;
    cbn [retryLoop]; grows_tac.
Qed.

(** A turn of the loop starts with a request. *)
Lemma retryLoop_requests_first n attempt lastResp lastErr h :
  (Do req :: h) `suffix_of`
    snd (retryLoop (S n) attempt ctx req lastResp lastErr h).
Proof.
  cbn [retryLoop]. rewrite Hbuild. unfold bind at 1. cbn [emit].
  match goal with
  | |- _ `suffix_of` snd (?m ?h0) =>
      assert (G : grows m); [|exact (G h0)]
  end.
  pose proof grows_retryLoop. grows_tac.
Qed.

Lemma retryLoop_attempts n : forall attempt lastResp lastErr h,
  count isRequest (snd (retryLoop n attempt ctx req lastResp lastErr h))
  <= count isRequest h + Z.of_nat n.
Proof.
  induction n as [|n IH]; intros attempt lastResp lastErr h.
  - cbn. lia.
  - pose proof (retryLoop_step n attempt lastResp lastErr h) as H.
    cbv zeta in H.
    assert (Hn : forall lr le,
               count isRequest
                 (snd (retryLoop n (attempt + 1) ctx req lr le
                         (Wait (retryDelay attempt) :: Do req :: h)))
               <= count isRequest h + Z.of_nat (S n)).
    { intros lr le. etransitivity; [apply IH|]. cbn. lia. }
    destruct (replyUpstream _) as [err|status].
    + destruct (attempt =? maxChatRetries)%Z; [rewrite H; cbn; lia|].
      destruct (match ctx with Background => None | Cancellable => _ end);
        rewrite H; [cbn; lia|apply Hn].
    + destruct (negb _); [rewrite H; cbn; lia|].
      destruct (attempt =? maxChatRetries)%Z; [rewrite H; cbn; lia|].
      destruct (match ctx with Background => None | Cancellable => _ end);
        rewrite H; [cbn; lia|apply Hn].
Qed.

End RetryProperties.

Section RetryTheorems.
Import GoStrings Errors World Auth Proxy.
Local Open Scope string_scope.

Lemma isRetriableError_spec status :
  isRetriableError status None = true
  <-> 500 <= status \/ status = 429 \/ status = 408.
Proof.
  unfold isRetriableError, statusCodeServerError, statusCodeTooManyRequests,
    statusCodeRequestTimeout.
  rewrite !orb_true_iff, Z.leb_le, !Z.eqb_eq. tauto.
Qed.



(** Three 500s in a row: the client gets the last 500, after waits of 1 s
    and 4 s. *)
Example retry_three_server_errors :
  makeRequestWithRetry (E := Scenario.serverError) Cancellable
    Scenario.chatRequest []
  = (Ret (Some 500, None),
     [Do Scenario.chatRequest; Wait 4000000000;
      Do Scenario.chatRequest; Wait 1000000000;
      Do Scenario.chatRequest]).
Proof. vm_compute. reflexivity. Qed.

End RetryTheorems.

(** ** Worker pool *)

Section WorkerPoolProperties.
Import GoStrings Errors World Auth Proxy WorkerPool.
Context `{E : Env} `{T : ErrorText} `{P : ProxyLib}.
Local Open Scope string_scope.

(** The handler's job turns a panic into the answer it gives. *)
Lemma job_recovers s ctx r st h :
  match processProxyRequest s ctx r st h with
  | (Ret res, h') => job s ctx r st h = (Ret res, h')
  | (Panic v, h') =>
      job s ctx r st h
      = (Ret (Some (ProxyError "request_processing"
                      "worker panic during request processing"
                      (Some (ErrorString ("panic: " ++ v)))), st), h')
  end.
Proof.
  unfold job. destruct (processProxyRequest s ctx r st h) as [[res|v] h'];
    reflexivity.
Qed.

Lemma closure_returns s ctx r st h :
  exists err h',
    closure s ctx r st h = (Ret tt, DoneSent err :: h').
Proof.
  unfold closure, bind, emit. pose proof (job_recovers s ctx r st h) as H.
  destruct (processProxyRequest s ctx r st h) as [[res|v] h'];
    rewrite H; eauto.
Qed.

(** C9, as amended.  The jobs the proxy handler submits never panic out
    of the worker: after any number of them, the worker goes on with the
    jobs that follow; and when the processing of a request panics, the
    job itself recovers and records the panic as a proxy error sent on
    the [done] channel of the request. *)
Theorem worker_serves_handler_jobs
  (reqs : list (ProxyService * proxyRequest * requestState))
  (rest : list Job) (h : list event) :
  (exists h',
      worker (map (fun q => closure q.1.1 Cancellable q.1.2 q.2) reqs
              ++ rest) h
      = worker rest h')
  /\ (forall s ctx r st h0 v h1,
        processProxyRequest s ctx r st h0 = (Panic v, h1) ->
        closure s ctx r st h0
        = (Ret tt,
           DoneSent (Some (ProxyError "request_processing"
                             "worker panic during request processing"
                             (Some (ErrorString ("panic: " ++ v)))))
           :: h1)).
Proof.
  split.
  - revert h. induction reqs as [|[[s r] st] reqs IH]; intros h.
    + exists h. reflexivity.
    + cbn [map app worker fst snd]. unfold bind at 1.
      destruct (closure_returns s Cancellable r st h) as (err & h1 & ->).
      apply IH.
  - intros s ctx r st h0 v h1 Hp. unfold closure, bind, emit.
    pose proof (job_recovers s ctx r st h0) as H. rewrite Hp in H.
    now rewrite H.
Qed.

End WorkerPoolProperties.

Section WorkerPoolScenarios.
Import GoStrings Errors World Auth Proxy WorkerPool Scenario.
Local Open Scope string_scope.

(** A request whose token check panics: the job answers on [done]. *)
Lemma worker_serves_handler_jobs_witness :
  closure (E := unreachable 1000) (T := specErrorText) (P := proxyLib)
    panickingService Cancellable chatPost freshState []
  = (Ret tt,
     [DoneSent (Some (ProxyError "request_processing"
                        "worker panic during request processing"
                        (Some (ErrorString
                                 "panic: runtime error: slice bounds out of range"))))]).
Proof.
  apply (proj2 (worker_serves_handler_jobs (E := unreachable 1000)
                  (T := specErrorText) (P := proxyLib) [] [] [])).
  vm_compute. reflexivity.
Defined.

(** C9 as stated has the worker recover.  A job that panics without a
    [recover] of its own takes the worker down with it: the job after it
    is never run. *)
Lemma worker_panic_counterexample :
  worker [panic "boom"; emit (Do chatRequest)] [] = (Panic "boom", [])
  /\ worker [emit (Do chatRequest)] [] = (Ret tt, [Do chatRequest]).
Proof. split; reflexivity. Qed.

End WorkerPoolScenarios.

(** ** Coalescing cache *)

Section CoalescingProperties.
Import Coalescing Scenario.
Local Open Scope string_scope.

(** The digest is the one of FIPS 180-4 on its test messages. *)
Example sha256_test_vectors :
  hex_EncodeToString (SHA256.digest (list_byte_of_string "abc"))
  = "ba7816bf8f01cfea414140de5dae2223b00361a396177a9cb410ff61f20015ad"
  /\ hex_EncodeToString (SHA256.digest [])
     = "e3b0c44298fc1c149afbf4c8996fb92427ae41e4649b934ca495991b7852b855"
  /\ hex_EncodeToString
       (SHA256.digest
          (list_byte_of_string
             "abcdbcdecdefdefgefghfghighijhijkijkljklmklmnlmnomnopnopq"))
     = "248d6a61d20638b8e5c026930c3e6039a33ce45964ff2167f6ecedd419db06c1".
Proof. vm_compute. repeat split. Qed.

(** A caller that finds its key in the cache waits on the channel filed
    under it, and its own [fn] is not called. *)
Lemma step_start_in_flight callers i key result st ch :
  callers !! i = Some (key, result) ->
  threads st !! i = Some Start ->
  requests st !! key = Some ch ->
  step callers i st = Some (setThread i (Waiting ch) st).
Proof. intros Hc Ht Hr. unfold step. now rewrite Hc, Ht, Hr. Qed.

(** C10.  The key is the hex digest of the octets of the method followed
    by those of the URL followed by those of a [[]byte] body, with nothing
    in between; any other body, [nil] included, adds nothing.  Inputs with
    the same octets have the same key, for instance [GET] with
    [/v1/models] and [GE] with [T/v1/models]; and a caller whose key is
    the one of a request in flight waits for that request's result. *)
Theorem request_key_bare_concatenation :
  (forall method url body,
      GetRequestKey method url body
      = hex_EncodeToString
          (SHA256.digest
             (list_byte_of_string method ++ list_byte_of_string url
              ++ match body with Bytes b => b | _ => [] end)))
  /\ (forall method url body,
        (forall b, body <> Bytes b) ->
        GetRequestKey method url body = GetRequestKey method url Nil)
  /\ (forall m1 u1 b1 m2 u2 b2,
        keyOctets m1 u1 b1 = keyOctets m2 u2 b2 ->
        GetRequestKey m1 u1 b1 = GetRequestKey m2 u2 b2)
  /\ (("GET", "/v1/models") <> ("GE", "T/v1/models")
      /\ GetRequestKey "GET" "/v1/models" Nil
         = GetRequestKey "GE" "T/v1/models" Nil)
  /\ (forall callers i j m1 u1 b1 m2 u2 b2 r1 r2 st ch,
        keyOctets m1 u1 b1 = keyOctets m2 u2 b2 ->
        callers !! i = Some (GetRequestKey m1 u1 b1, r1) ->
        callers !! j = Some (GetRequestKey m2 u2 b2, r2) ->
        requests st !! GetRequestKey m1 u1 b1 = Some ch ->
        threads st !! j = Some Start ->
        step callers j st = Some (setThread j (Waiting ch) st)).
Proof.
  split; [reflexivity|].
  split.
  { intros method url body Hb. unfold GetRequestKey, keyOctets.
    destruct body as [|b| |]; try reflexivity.
    exfalso. exact (Hb b eq_refl). }
  split.
  { intros m1 u1 b1 m2 u2 b2 Ho. unfold GetRequestKey. now rewrite Ho. }
  split.
  { split; [discriminate|]. unfold GetRequestKey. do 2 f_equal. }
  intros callers i j m1 u1 b1 m2 u2 b2 r1 r2 st ch Ho Hi Hj Hr Ht.
  apply (step_start_in_flight callers j _ r2 st ch Hj Ht).
  unfold GetRequestKey in *. now rewrite <- Ho.
Qed.

(** The shifted split, and a string body against no body. *)
Lemma request_key_bare_concatenation_witness :
  GetRequestKey "GET" "/v1/models" Nil = GetRequestKey "GE" "T/v1/models" Nil
  /\ GetRequestKey "GET" "/v1/models" (Str "{}")
     = GetRequestKey "GET" "/v1/models" Nil.
Proof.
  destruct request_key_bare_concatenation as (_ & Hnil & Heq & _).
  split.
  - apply Heq. vm_compute. reflexivity.
  - apply Hnil. discriminate.
Defined.

(** Two different requests under one key: the second caller gets the
    result computed for the first. *)
Example shifted_split_is_coalesced :
  let callers := [(GetRequestKey "GET" "/v1/models" Nil, Other 1);
                  (GetRequestKey "GE" "T/v1/models" Nil, Other 2)] in
  exists st,
    run callers [0; 1; 0; 0; 0; 0; 1]%nat (initial callers) = Some st
    /\ results st = [Some (Other 1); Some (Other 1)]
    /\ invocations st = 1%nat.
Proof. eexists. vm_compute. repeat split. Qed.

(** Three callers arrive while the computation is in flight: [fn] runs
    once, the caller that runs it and the first waiter get its result,
    and the second waiter gets [nil] from the closed channel. *)
Example coalesce_three_callers :
  let callers := [(modelsKey, modelList); (modelsKey, modelList);
                  (modelsKey, modelList)] in
  exists st,
    run callers [0; 1; 2; 0; 0; 0; 0; 1; 2]%nat (initial callers) = Some st
    /\ invocations st = 1%nat
    /\ results st = [Some modelList; Some modelList; Some Nil]
    /\ requests st !! modelsKey = None.
Proof. eexists. vm_compute. repeat split. Qed.

Lemma stepsLeft_insert (l : list pc) : forall i p p',
  l !! i = Some p ->
  (totalWeight (<[i := p']> l) + weight p
   = totalWeight l + weight p')%nat.
Proof.
  induction l as [|q l IH]; intros [|i] p p' Hl; try discriminate.
  - injection Hl as ->. cbn. lia.
  - change (<[S i := p']> (q :: l)) with (q :: <[i := p']> l).
    cbn [totalWeight]. specialize (IH i p p' Hl). lia.
Qed.

(** Every step uses up one of the steps left. *)
Lemma step_stepsLeft callers i st st' :
  step callers i st = Some st' -> (stepsLeft st' < stepsLeft st)%nat.
Proof.
  unfold step, stepsLeft.
  destruct (callers !! i) as [[key result]|]; [|discriminate].
  destruct (threads st !! i) as [p|] eqn:Hp; [|discriminate].
  intros Hs.
  assert (H : forall p', (weight p' < weight p)%nat ->
              (totalWeight (<[i := p']> (threads st))
               < totalWeight (threads st))%nat).
  { intros p' Hw. pose proof (stepsLeft_insert (threads st) i p p' Hp). lia. }
  destruct p as [|ch|ch|ch r|ch r|ch r|v]; try discriminate.
  - destruct (requests st !! key); injection Hs as <-; apply H; cbn; lia.
  - destruct (chans st !! ch) as [[[|v rest] [|]]|]; try discriminate;
      injection Hs as <-; apply H; cbn; lia.
  - injection Hs as <-. apply H. cbn. lia.
  - destruct (chans st !! ch) as [[[|v rest] [|]]|]; try discriminate.
    injection Hs as <-. apply H. cbn. lia.
  - destruct (chans st !! ch); try discriminate.
    injection Hs as <-. apply H. cbn. lia.
  - injection Hs as <-. apply H. cbn. lia.
Qed.

Lemma run_length callers schedule : forall st st',
  run callers schedule st = Some st' ->
  (length schedule + stepsLeft st' <= stepsLeft st)%nat.
Proof.
  induction schedule as [|i rest IH]; intros st st' Hr; cbn in Hr.
  - injection Hr as ->. cbn. lia.
  - destruct (step callers i st) as [st1|] eqn:Hs; [|discriminate].
    apply step_stepsLeft in Hs. apply IH in Hr. cbn. lia.
Qed.

Lemma in_omap {A B} (f : A -> option B) (l : list A) x y :
  In x l -> f x = Some y -> In y (omap f l).
Proof.
  induction l as [|a l IH]; intros Hin Hf; [destruct Hin|].
  destruct Hin as [<-|Hin]; cbn.
  - rewrite Hf. now left.
  - destruct (f a); [right|]; now apply IH.
Qed.

Lemma omap_none {A B} (f : A -> option B) (l : list A) :
  (forall x, f x = None) -> omap f l = [].
Proof.
  intros Hf. induction l as [|a l IH]; [reflexivity|]. cbn.
  now rewrite Hf.
Qed.

(** [explore] finds the end of every schedule that fits its fuel. *)
Lemma run_explore callers schedule : forall fuel st st',
  run callers schedule st = Some st' ->
  (forall i, step callers i st' = None) ->
  (length schedule <= fuel)%nat ->
  In st' (explore callers fuel st).
Proof.
  induction schedule as [|i rest IH]; intros fuel st st' Hr Hend Hf;
    cbn in Hr.
  - injection Hr as ->.
    destruct fuel as [|f]; cbn; [now left|].
    unfold enabled. rewrite omap_none by exact Hend. now left.
  - destruct (step callers i st) as [st1|] eqn:Hs; [|discriminate].
    destruct fuel as [|f]; cbn in Hf; [lia|]. cbn [explore].
    assert (Hin : In st1 (enabled callers st)).
    { unfold enabled. apply (in_omap _ _ i); [|exact Hs].
      apply in_seq. split; [lia|]. cbn.
      unfold step in Hs.
      destruct (callers !! i) eqn:Hc; [|discriminate].
      now apply lookup_lt_Some in Hc. }
    destruct (enabled callers st) as [|s0 succs] eqn:He; [destruct Hin|].
    apply in_flat_map. exists st1. split; [exact Hin|].
    apply IH; [exact Hr|exact Hend|lia].
Qed.

(** C4, on the code.  On every schedule of three callers of the models
    key: when no goroutine can step any more, all three have returned;
    and when [fn] was called once only, that is when the three calls were
    coalesced, exactly one caller holds [nil] instead of the model list
    [fn] returned. *)
Theorem coalesce_three_callers_every_schedule :
  let callers := [(modelsKey, modelList); (modelsKey, modelList);
                  (modelsKey, modelList)] in
  forall schedule st,
    run callers schedule (initial callers) = Some st ->
    (forall i, step callers i st = None) ->
    forallb hasReturned (threads st) = true
    /\ (invocations st = 1%nat ->
        length (List.filter gotNil (threads st)) = 1%nat).
Proof.
  intros callers schedule st Hr Hend.
  assert (Hlen : (length schedule <= 15)%nat).
  { apply run_length in Hr. change (stepsLeft (initial callers)) with 15%nat in Hr.
    lia. }
  pose proof (run_explore callers schedule 15 _ st Hr Hend Hlen) as Hin.
  assert (Hall : forallb
                   (fun s => forallb hasReturned (threads s)
                             && (negb (invocations s =? 1)%nat
                                 || (length (List.filter gotNil (threads s))
                                     =? 1)%nat))
                   (explore callers 15 (initial callers)) = true)
    by (vm_compute; reflexivity).
  rewrite forallb_forall in Hall. specialize (Hall st Hin).
  apply andb_prop in Hall as [H1 H2]. split; [exact H1|].
  intros Hi. rewrite Hi in H2. cbn in H2. now apply Nat.eqb_eq in H2.
Qed.

(** The schedule of [coalesce_three_callers]. *)
Lemma coalesce_three_callers_every_schedule_witness :
  let callers := [(modelsKey, modelList); (modelsKey, modelList);
                  (modelsKey, modelList)] in
  match run callers [0; 1; 2; 0; 0; 0; 0; 1; 2]%nat (initial callers) with
  | Some st =>
      forallb hasReturned (threads st) = true
      /\ (invocations st = 1%nat ->
          length (List.filter gotNil (threads st)) = 1%nat)
  | None => False
  end.
Proof.
  intros callers.
  destruct (run callers [0; 1; 2; 0; 0; 0; 0; 1; 2]%nat (initial callers))
    as [st|] eqn:Hrun; [|vm_compute in Hrun; discriminate].
  apply (coalesce_three_callers_every_schedule
           [0; 1; 2; 0; 0; 0; 0; 1; 2]%nat st Hrun).
  vm_compute in Hrun. injection Hrun as <-.
  intros [|[|[|i]]]; reflexivity.
Defined.

(** With one waiter only the value arrives, and a caller that comes after
    the clean-up computes afresh. *)
Example coalesce_two_callers_and_late_arrival :
  let callers := [(modelsKey, modelList); (modelsKey, modelList);
                  (modelsKey, modelList)] in
  exists st,
    run callers [0; 1; 0; 0; 0; 0; 1; 2; 2; 2; 2; 2]%nat (initial callers)
    = Some st
    /\ invocations st = 2%nat
    /\ results st = [Some modelList; Some modelList; Some modelList].
Proof. eexists. vm_compute. repeat split. Qed.

End CoalescingProperties.

(** ** The proxy handler, request by request *)

Section SubstringFacts.
Import GoStrings.
Local Open Scope string_scope.

Lemma prefix_split sub : forall s,
  String.prefix sub s = true -> exists t, s = sub ++ t.
Proof.
  induction sub as [|x sub IH]; intros s H; [now exists s|].
  destruct s as [|y s]; [discriminate|]. simpl in H.
  destruct (Ascii.ascii_dec x y) as [->|]; [|discriminate].
  destruct (IH s H) as [t ->]. now exists t.
Qed.

(** A substring of a substring is a substring. *)
Lemma Contains_trans s sub x :
  Contains s sub = true -> Contains sub x = true -> Contains s x = true.
Proof.
  intros Hs Hx. induction s as [|c s IH].
  - cbn [Contains] in Hs. rewrite orb_false_r in Hs.
    destruct (prefix_split _ _ Hs) as [t Ht]. rewrite Ht.
    now apply Contains_app_l.
  - cbn [Contains] in Hs. apply orb_prop in Hs as [Hs|Hs].
    + destruct (prefix_split _ _ Hs) as [t ->]. now apply Contains_app_l.
    + cbn [Contains]. rewrite (IH Hs). apply orb_true_r.
Qed.

(** A text without a blank has no substring with one. *)
Lemma Contains_blank m sub :
  Contains m " " = false -> Contains sub " " = true ->
  Contains m sub = false.
Proof.
  intros Hm Hsub. destruct (Contains m sub) eqn:Hc; [|reflexivity].
  now rewrite (Contains_trans m sub " " Hc Hsub) in Hm.
Qed.

Lemma append_cons c s t : String c s ++ t = String c (s ++ t).
Proof. reflexivity. Qed.

Lemma append_nil t : EmptyString ++ t = t.
Proof. reflexivity. Qed.

Lemma Contains_cons c s sub :
  Contains (String c s) sub = String.prefix sub (String c s) || Contains s sub.
Proof. reflexivity. Qed.

End SubstringFacts.

Section ServingProperties.
Import GoStrings Errors World Auth Breaker Proxy Serving.
Context `{E : Env} `{T : ErrorText} `{P : ProxyLib}.
Local Open Scope string_scope.

Lemma statusOfError_cases msg :
  statusOfError msg = 400 \/ statusOfError msg = 401
  \/ statusOfError msg = 405 \/ statusOfError msg = 500.
Proof.
  unfold statusOfError. repeat destruct (Contains msg _); auto.
Qed.

(** A status the client asked for with a bad request: 400, unless the
    text of the error reads like an authentication failure. *)
Lemma statusOfError_bad_request msg :
  Contains msg "bad request" = true ->
  statusOfError msg
  = if Contains msg "authentication error"
       || Contains msg "token validation failed"
    then 401 else 400.
Proof.
  intros H. unfold statusOfError. rewrite H.
  now repeat destruct (Contains msg _).
Qed.

Lemma statusOfError_method m :
  Contains m " " = false ->
  statusOfError ("method not allowed: " ++ m) = 405.
Proof.
  intros Hm. unfold statusOfError.
  assert (Hno : forall sub, Contains sub " " = true ->
                  Contains m sub = false)
    by (intros sub; now apply Contains_blank).
  assert (H1 : Contains ("method not allowed: " ++ m) "authentication error"
               = false).
  { rewrite !append_cons, append_nil, !Contains_cons.
    simpl String.prefix. cbn [orb].
    now rewrite (Hno "authentication error"). }
  assert (H2 : Contains ("method not allowed: " ++ m)
                 "token validation failed" = false).
  { rewrite !append_cons, append_nil, !Contains_cons.
    simpl String.prefix. cbn [orb].
    now rewrite (Hno "token validation failed"). }
  assert (H3 : Contains ("method not allowed: " ++ m) "bad request" = false).
  { rewrite !append_cons, append_nil, !Contains_cons.
    simpl String.prefix. cbn [orb].
    now rewrite (Hno "bad request"). }
  rewrite H1, H2, H3.
  now rewrite (Contains_app_l "method not allowed: " m "method not allowed").
Qed.

(** The handler when the breaker admits the request and the worker's
    answer arrives before the deadline. *)
Lemma Handler_done s r cb h err st h' :
  fst (canExecute (nanotime h) cb) = true ->
  processProxyRequest s Cancellable r
    {| circuitBreaker := snd (canExecute (nanotime h) cb);
       headersSent := false; wroteHeader := None |} h
  = (Ret (err, st), h') ->
  Handler s DoneReceived r cb h
  = (Ret (match err with
          | Some e =>
              if negb (headersSent st)
              then wroteHeader (http_Error (statusOfError (Error e)) st)
              else wroteHeader st
          | None => wroteHeader st
          end, circuitBreaker st), h').
Proof.
  intros Hadm Hp. unfold Handler, bind at 1, ask.
  destruct (canExecute (nanotime h) cb) as [admitted cb1].
  cbn [fst snd] in *. subst admitted. cbn [negb].
  unfold bind, job. rewrite Hp.
  destruct err as [e|]; [|reflexivity].
  now destruct (negb (headersSent st)).
Qed.

(** The handler on an open breaker whose timeout has not passed. *)
Lemma Handler_open s sel r cb h :
  state cb = CircuitOpen ->
  time_Since (nanotime h) (lastFailureTime cb) <= timeout cb ->
  Handler s sel r cb h = (Ret (Some 503, cb), h).
Proof.
  intros Hs Ht. unfold Handler, bind at 1, ask, canExecute. rewrite Hs.
  destruct (timeout cb <? _)%Z eqn:El; [lia|]. reflexivity.
Qed.

Lemma processProxyRequest_unchecked s ctx r st h :
  checked s r = None ->
  exists e, processProxyRequest s ctx r st h = (Ret (Some e, st), h).
Proof.
  unfold checked, processProxyRequest. destruct (negb _); [eauto|].
  destruct (readBody r) as [err|body]; [destruct (Contains _ _); eauto|].
  destruct (length body =? 0)%nat; [eauto|].
  destruct (unmarshalModel body) as [jsonErr|model]; [eauto|].
  destruct (_ && _); [eauto|discriminate].
Qed.

(** From the token check on. *)
Lemma processProxyRequest_checked s ctx r st body h :
  checked s r = Some body ->
  processProxyRequest s ctx r st h
  = match ensureValidToken s (config s) h with
    | (Panic v, h1) => (Panic v, h1)
    | (Ret (Some e), h1) =>
        (Ret (Some (AuthenticationError "token validation failed" (Some e)),
              st), h1)
    | (Ret None, h1) =>
        match targetURL (Path r) with
        | None =>
            (Ret (Some (ErrorString ("unsupported proxy path: " ++ Path r)),
                  st), h1)
        | Some url =>
            match newRequestErr (upstreamRequest s r url body) with
            | Some err =>
                (Ret (Some (ProxyError "create_request"
                              "failed to create proxy request" (Some err)),
                      st), h1)
            | None =>
                match makeRequestWithRetry ctx (upstreamRequest s r url body)
                        h1 with
                | (Panic v, h2) => (Panic v, h2)
                | (Ret (_, Some err), h2) =>
                    (Ret (Some (NetworkError "proxy_request" url
                                  "failed to complete request after retries"
                                  (Some err)),
                          withBreaker
                            (onFailure (nanotime h2) (circuitBreaker st)) st),
                     h2)
                | (Ret (None, None), h2) =>
                    (Panic "runtime error: nil pointer dereference", h2)
                | (Ret (Some status, None), h2) =>
                    (Ret (copyBody h2,
                          WriteHeader status
                            (withBreaker
                               (if (status <? statusCodeServerError)%Z
                                then onSuccess (circuitBreaker st)
                                else onFailure (nanotime h2)
                                       (circuitBreaker st)) st)), h2)
                end
            end
        end
    end.
Proof.
  unfold checked, processProxyRequest, targetURL, upstreamRequest.
  destruct (negb _); [discriminate|].
  destruct (readBody r) as [err|b]; [discriminate|].
  destruct (length b =? 0)%nat; [discriminate|].
  destruct (unmarshalModel b) as [jsonErr|model]; [discriminate|].
  destruct (_ && _); [discriminate|]. intros [= ->].
  unfold bind at 1.
  destruct (ensureValidToken s (config s) h) as [[[e|]|v] h1];
    try reflexivity.
  destruct (Path r =? "/v1/completions");
    [|destruct (Path r =? "/v1/chat/completions"); [|reflexivity]];
    (destruct (newRequestErr _); [reflexivity|]);
    unfold bind, ask, panic, ret;
    (destruct (makeRequestWithRetry _ _ h1) as [[[[status|] [err|]]|v] h2];
     reflexivity).
Qed.

(** X1.  A request that fails one of the checks made before the token
    check (method, body read under the cap, empty body, JSON, allow-list)
    is answered with an error status, one of 400, 401, 405 and 500, and
    leaves everything as it was: the token check is not run, nothing is
    sent upstream, and the breaker records neither a success nor a
    failure. *)
Theorem rejected_request_touches_nothing s r cb h :
  fst (canExecute (nanotime h) cb) = true ->
  checked s r = None ->
  exists status,
    Handler s DoneReceived r cb h
    = (Ret (Some status, snd (canExecute (nanotime h) cb)), h)
    /\ (status = 400 \/ status = 401 \/ status = 405 \/ status = 500).
Proof.
  intros Hadm Hc.
  destruct (processProxyRequest_unchecked s Cancellable r
              {| circuitBreaker := snd (canExecute (nanotime h) cb);
                 headersSent := false; wroteHeader := None |} h Hc)
    as [e He].
  exists (statusOfError (Error e)). split.
  - now rewrite (Handler_done s r cb h _ _ _ Hadm He).
  - apply statusOfError_cases.
Qed.

(** X2.  A request whose method is not POST is answered 405.  (A method
    is a token: it has no blank in it.) *)
Theorem method_not_allowed s r cb h :
  fst (canExecute (nanotime h) cb) = true ->
  Method r <> "POST" -> Contains (Method r) " " = false ->
  Handler s DoneReceived r cb h
  = (Ret (Some 405, snd (canExecute (nanotime h) cb)), h).
Proof.
  intros Hadm Hm Hb. apply String.eqb_neq in Hm.
  rewrite (Handler_done s r cb h
             (Some (ErrorString ("method not allowed: " ++ Method r)))
             {| circuitBreaker := snd (canExecute (nanotime h) cb);
                headersSent := false; wroteHeader := None |} h Hadm).
  - cbn [headersSent negb http_Error wroteHeader circuitBreaker Error].
    now rewrite statusOfError_method.
  - unfold processProxyRequest. now rewrite Hm.
Qed.

(** X3.  A POST with an empty body is answered 400.  A body that is not
    JSON, or that names a model outside a non-empty allow-list, is
    answered 400 as well, unless the text of the error contains
    [authentication error] or [token validation failed]: then the
    answer is 401. *)
Theorem bad_request_statuses s r cb h :
  fst (canExecute (nanotime h) cb) = true ->
  Method r = "POST" ->
  let cb1 := snd (canExecute (nanotime h) cb) in
  let status msg :=
    if Contains msg "authentication error"
       || Contains msg "token validation failed"
    then 401 else 400 in
  (Body r = inr [] ->
   Handler s DoneReceived r cb h = (Ret (Some 400, cb1), h))
  /\ (forall body jsonErr,
        readBody r = inr body -> body <> [] ->
        unmarshalModel body = inl jsonErr ->
        Handler s DoneReceived r cb h
        = (Ret (Some (status ("bad request: invalid JSON: "
                              ++ Error jsonErr)), cb1), h))
  /\ (forall body model,
        readBody r = inr body -> body <> [] ->
        unmarshalModel body = inr model ->
        AllowedModels (config s) <> [] ->
        ~ In model (AllowedModels (config s)) ->
        Handler s DoneReceived r cb h
        = (Ret (Some (status
                        ("bad request: model '" ++ model
                         ++ "' is not allowed by allowed_models in config")),
                cb1), h)).
Proof.
  intros Hadm Hm cb1 status.
  set (st0 := {| circuitBreaker := cb1; headersSent := false;
                 wroteHeader := None |}).
  assert (Hdone : forall e,
             processProxyRequest s Cancellable r st0 h
             = (Ret (Some e, st0), h) ->
             Contains (Error e) "bad request" = true ->
             Handler s DoneReceived r cb h
             = (Ret (Some (status (Error e)), cb1), h)).
  { intros e He Hbad.
    rewrite (Handler_done s r cb h _ _ _ Hadm He).
    cbn [st0 headersSent negb http_Error wroteHeader circuitBreaker].
    now rewrite (statusOfError_bad_request _ Hbad). }
  assert (Hlen : forall body : list Byte.byte,
             body <> [] -> (length body =? 0)%nat = false).
  { intros [|b body] Hne; [congruence|reflexivity]. }
  split; [|split].
  - intros Hb.
    apply (Hdone (ErrorString "bad request: empty request body"));
      [|reflexivity].
    unfold processProxyRequest, readBody. rewrite Hm, Hb. reflexivity.
  - intros body jsonErr Hb Hne Hu.
    apply (Hdone (Wrapped "bad request: invalid JSON: " jsonErr)).
    + unfold processProxyRequest. rewrite Hm, Hb, (Hlen body Hne), Hu.
      reflexivity.
    + cbn [Error]. now apply Contains_app_l.
  - intros body model Hb Hne Hu Hal Hnin.
    apply (Hdone (ErrorString
                    ("bad request: model '" ++ model
                     ++ "' is not allowed by allowed_models in config"))).
    + unfold processProxyRequest. rewrite Hm, Hb, (Hlen body Hne), Hu.
      change ("POST" =? "POST") with true. cbn [negb].
      destruct (AllowedModels (config s)) as [|a l] eqn:Ea; [congruence|].
      destruct (existsb (String.eqb model) (a :: l)) eqn:Ex.
      * exfalso. apply Hnin. apply existsb_exists in Ex as (x & Hx & Hxe).
        apply String.eqb_eq in Hxe. now subst x.
      * reflexivity.
    + cbn [Error].
      now apply (Contains_app_l "bad request: model '").
Qed.

(** X4.  When the token check fails, the request is answered 401; what
    the token check did is all that was done: nothing is sent upstream,
    and the breaker records nothing.  The text of an authentication error
    is assumed to contain the message it was built with. *)
Theorem token_failure_unauthorized s r cb body e h h1 :
  (forall m c, Contains (authErrorText m c) m = true) ->
  fst (canExecute (nanotime h) cb) = true ->
  checked s r = Some body ->
  ensureValidToken s (config s) h = (Ret (Some e), h1) ->
  Handler s DoneReceived r cb h
  = (Ret (Some 401, snd (canExecute (nanotime h) cb)), h1).
Proof.
  intros Hauth Hadm Hc Htok.
  rewrite (Handler_done s r cb h
             (Some (AuthenticationError "token validation failed" (Some e)))
             {| circuitBreaker := snd (canExecute (nanotime h) cb);
                headersSent := false; wroteHeader := None |} h1 Hadm).
  - cbn [headersSent negb http_Error wroteHeader circuitBreaker Error].
    unfold statusOfError. rewrite (Hauth "token validation failed").
    now destruct (Contains _ "authentication error").
  - rewrite (processProxyRequest_checked s _ r _ body h Hc). now rewrite Htok.
Qed.

(** X5.  An upstream answer that is not retriable (below 500 and neither
    429 nor 408) reaches the client with its status after a single
    upstream request, and closes the breaker with its counter at 0.  A
    failure of the copy of the body changes none of this: the status is
    already on the wire. *)
Theorem upstream_status_passes_through s r cb body url status h h1 :
  fst (canExecute (nanotime h) cb) = true ->
  checked s r = Some body ->
  ensureValidToken s (config s) h = (Ret None, h1) ->
  targetURL (Path r) = Some url ->
  let req := upstreamRequest s r url body in
  newRequestErr req = None ->
  replyUpstream (Do req :: h1) = UpstreamResponse status ->
  isRetriableError status None = false ->
  Handler s DoneReceived r cb h
  = (Ret (Some status, onSuccess (snd (canExecute (nanotime h) cb))),
     Do req :: h1).
Proof.
  intros Hadm Hc Htok Hurl req Hbuild Hr Hret.
  assert (Hlt : (status <? statusCodeServerError)%Z = true).
  { unfold isRetriableError, statusCodeServerError in *.
    apply orb_false_iff in Hret as [Hret _].
    apply orb_false_iff in Hret as [Hret _]. lia. }
  pose proof (retryLoop_step Cancellable req Hbuild 2 1 None None h1) as Hs.
  cbv zeta in Hs. rewrite Hr, Hret in Hs. cbn [negb] in Hs.
  set (st0 := {| circuitBreaker := snd (canExecute (nanotime h) cb);
                 headersSent := false; wroteHeader := None |}).
  rewrite (Handler_done s r cb h (copyBody (Do req :: h1))
             (WriteHeader status (withBreaker (onSuccess (circuitBreaker st0))
                                    st0))
             (Do req :: h1) Hadm).
  - cbn. now destruct (copyBody _).
  - rewrite (processProxyRequest_checked s _ r _ body h Hc).
    rewrite Htok, Hurl. fold req. rewrite Hbuild.
    unfold makeRequestWithRetry.
    change (Z.to_nat maxChatRetries) with 3%nat.
    rewrite Hs, Hlt. reflexivity.
Qed.

End ServingProperties.

Section ServingScenarios.
Import GoStrings Errors World Auth Breaker Proxy Serving Scenario Cases.
Local Open Scope string_scope.

(** An oversized body, once more: 500, and nothing has happened. *)
Lemma rejected_request_touches_nothing_witness :
  exists status,
    Handler (E := unreachable 1000) (T := specErrorText) (P := proxyLib)
      proxyService DoneReceived oversized (NewCircuitBreaker 30) []
    = (Ret (Some status, NewCircuitBreaker 30), [])
    /\ (status = 400 \/ status = 401 \/ status = 405 \/ status = 500).
Proof.
  apply (rejected_request_touches_nothing (E := unreachable 1000)
           (T := specErrorText) (P := proxyLib)
           proxyService oversized (NewCircuitBreaker 30) []).
  - reflexivity.
  - unfold checked, readBody. cbn [Method Body oversized].
    change ("POST" =? "POST") with true. cbn [negb].
    unfold oversizedBody. rewrite repeat_length. vm_compute. reflexivity.
Defined.

(** A GET on the chat endpoint. *)
Lemma method_not_allowed_witness :
  Handler (E := unreachable 1000) (T := specErrorText) (P := proxyLib)
    proxyService DoneReceived chatGet (NewCircuitBreaker 30) []
  = (Ret (Some 405, NewCircuitBreaker 30), []).
Proof.
  apply (method_not_allowed (E := unreachable 1000) (T := specErrorText)
           (P := proxyLib) proxyService chatGet (NewCircuitBreaker 30) []).
  - reflexivity.
  - discriminate.
  - vm_compute. reflexivity.
Defined.

(** A POST without a body. *)
Lemma bad_request_statuses_witness :
  Handler (E := unreachable 1000) (T := specErrorText) (P := proxyLib)
    proxyService DoneReceived emptyPost (NewCircuitBreaker 30) []
  = (Ret (Some 400, NewCircuitBreaker 30), []).
Proof.
  apply (proj1 (bad_request_statuses (E := unreachable 1000)
                  (T := specErrorText) (P := proxyLib)
                  proxyService emptyPost (NewCircuitBreaker 30) []
                  eq_refl eq_refl)).
  reflexivity.
Defined.

(** A token that cannot be refreshed. *)
Lemma token_failure_unauthorized_witness :
  Handler (E := unreachable 1000) (T := specErrorText) (P := proxyLib)
    expiredService DoneReceived chatPost (NewCircuitBreaker 30) []
  = (Ret (Some 401, NewCircuitBreaker 30), []).
Proof.
  apply (token_failure_unauthorized (E := unreachable 1000)
           (T := specErrorText) (P := proxyLib)
           expiredService chatPost (NewCircuitBreaker 30)
           [Byte.x7b; Byte.x7d] (ErrorString "token refresh failed") [] []
           specErrorText_contains eq_refl eq_refl eq_refl).
Defined.

(** A 404 of the upstream, with a client that hangs up during the copy. *)
Lemma upstream_status_passes_through_witness :
  Handler (E := notFound) (T := specErrorText) (P := proxyLib)
    proxyService DoneReceived chatPost probing []
  = (Ret (Some 404, onSuccess probing),
     [Do (upstreamRequest proxyService chatPost
            "https://api.githubcopilot.com/chat/completions"
            [Byte.x7b; Byte.x7d])]).
Proof.
  apply (upstream_status_passes_through (E := notFound)
           (T := specErrorText) (P := proxyLib)
           proxyService chatPost probing [Byte.x7b; Byte.x7d]
           "https://api.githubcopilot.com/chat/completions" 404 [] []);
    reflexivity.
Defined.

End ServingScenarios.

(** ** Retries of one request, failures of several *)

Section ChatRetry.
Import GoStrings Errors World Auth Breaker Proxy Serving.
Context `{E : Env}.
Local Open Scope string_scope.

Variable req : request.

Lemma retryDelay_values :
  retryDelay 1 = 1 * time_Second /\ retryDelay 2 = 4 * time_Second.
Proof. split; vm_compute; reflexivity. Qed.

(** One turn of the retry loop: it stops without waiting, or it waits
    [retryDelay attempt] after its request and then stops on a done
    context or goes on with the next attempt. *)
Lemma retryLoop_turn ctx n attempt lr le h :
  let res := retryLoop (S n) attempt ctx req lr le h in
  (exists k, snd res = (k ++ h)%list
             /\ forallb (fun e => negb (isWait e)) k = true)
  \/ (attempt <> maxChatRetries
      /\ let hw := Wait (retryDelay attempt) :: Do req :: h in
         match (match ctx with
                | Background => None
                | Cancellable => ctxDone hw
                end) with
         | Some e => res = (Ret (None, Some e), hw)
         | None => exists lr' le',
                     res = retryLoop n (attempt + 1) ctx req lr' le' hw
         end).
Proof.
  intros res. destruct (newRequestErr req) as [err|] eqn:Hbuild.
  { left. exists []. subst res. cbn [retryLoop]. rewrite Hbuild.
    split; reflexivity. }
  pose proof (retryLoop_step ctx req Hbuild n attempt lr le h) as H.
  cbv zeta in H. fold res in H.
  assert (Hstop : forall v, res = (Ret v, Do req :: h) ->
            exists k, snd res = (k ++ h)%list
                      /\ forallb (fun e => negb (isWait e)) k = true).
  { intros v ->. exists [Do req]. split; reflexivity. }
  destruct (replyUpstream _) as [err|status].
  - destruct (attempt =? maxChatRetries)%Z eqn:Ea; [left; eauto|].
    right. split; [lia|]. cbv zeta.
    destruct (match ctx with Background => None | Cancellable => _ end);
      eauto.
  - destruct (negb _); [left; eauto|].
    destruct (attempt =? maxChatRetries)%Z eqn:Ea; [left; eauto|].
    right. split; [lia|]. cbv zeta.
    destruct (match ctx with Background => None | Cancellable => _ end);
      eauto.
Qed.

Lemma retryLoop_grows ctx n : forall attempt lr le,
  grows (retryLoop n attempt ctx req lr le).
Proof.
  induction n as [|n IH]; intros attempt lr le; cbn [retryLoop]; grows_tac.
Qed.

Lemma retryLoop_cancel n : forall attempt lr le h d pre e,
  let res := retryLoop n attempt Cancellable req lr le h in
  (Wait d :: pre) `suffix_of` snd res ->
  h `suffix_of` pre ->
  ctxDone (Wait d :: pre) = Some e ->
  res = (Ret (None, Some e), Wait d :: pre).
Proof.
  induction n as [|n IH]; intros attempt lr le h d pre e res Hs Hh He.
  { exfalso. cbn in Hs. eapply suffix_cons_not; eassumption. }
  assert (Hhw : forall k,
             (Wait d :: pre) `suffix_of` Wait k :: Do req :: h ->
             Wait d :: pre = Wait k :: Do req :: h).
  { intros k H1.
    apply suffix_cons_cases in H1 as [H1|H1]; [exact H1|exfalso].
    apply suffix_cons_cases in H1 as [H1|H1]; [discriminate|].
    eapply suffix_cons_not; eassumption. }
  subst res.
  destruct (retryLoop_turn Cancellable n attempt lr le h)
    as [(k & Hk & Hnw)|(_ & Hw)].
  - exfalso. rewrite Hk in Hs. eapply no_wait_suffix; eassumption.
  - cbv zeta in Hw.
    destruct (ctxDone (Wait (retryDelay attempt) :: Do req :: h))
      as [e'|] eqn:Hd.
    + rewrite Hw in Hs |- *. cbn [snd] in Hs.
      apply Hhw in Hs. rewrite <- Hs in Hd. congruence.
    + destruct Hw as (lr' & le' & Hw). rewrite Hw in Hs |- *.
      pose proof (retryLoop_grows Cancellable n (attempt + 1) lr' le'
                    (Wait (retryDelay attempt) :: Do req :: h)) as Hg.
      destruct (suffix_comparable _ _ _ Hs Hg) as [H1|H1].
      * apply Hhw in H1. rewrite <- H1 in Hd. congruence.
      * apply suffix_cons_cases in H1 as [H1|H1].
        { rewrite H1 in Hd. congruence. }
        now apply IH.
Qed.

Lemma retryLoop_waits_third ctx lr le h :
  waits (snd (retryLoop 1 3 ctx req lr le h)) = waits h.
Proof.
  destruct (retryLoop_turn ctx 0 3 lr le h) as [(k & -> & Hk)|(Hne & _)].
  - now rewrite waits_app, waits_no_wait.
  - now contradict Hne.
Qed.

Lemma retryLoop_waits_second ctx lr le h :
  exists ws,
    waits (snd (retryLoop 2 2 ctx req lr le h)) = (ws ++ waits h)%list
    /\ (ws = [] \/ ws = [4 * time_Second]).
Proof.
  destruct (retryLoop_turn ctx 1 2 lr le h) as [(k & -> & Hk)|(_ & Hw)].
  - exists []. split; [|now left]. now rewrite waits_app, waits_no_wait.
  - exists [4 * time_Second]. split; [|now right]. cbv zeta in Hw.
    rewrite (proj2 retryDelay_values) in Hw.
    destruct (match ctx with Background => None | Cancellable => _ end).
    + rewrite Hw. reflexivity.
    + destruct Hw as (lr' & le' & ->). change (2 + 1) with 3.
      rewrite retryLoop_waits_third. reflexivity.
Qed.

Lemma retryLoop_waits_first ctx lr le h :
  exists ws,
    waits (snd (retryLoop 3 1 ctx req lr le h)) = (ws ++ waits h)%list
    /\ (ws = [] \/ ws = [1 * time_Second]
        \/ ws = [4 * time_Second; 1 * time_Second]).
Proof.
  destruct (retryLoop_turn ctx 2 1 lr le h) as [(k & -> & Hk)|(_ & Hw)].
  - exists []. split; [|now left]. now rewrite waits_app, waits_no_wait.
  - cbv zeta in Hw. rewrite (proj1 retryDelay_values) in Hw.
    destruct (match ctx with Background => None | Cancellable => _ end).
    + exists [1 * time_Second]. split; [|right; now left].
      rewrite Hw. reflexivity.
    + destruct Hw as (lr' & le' & ->). change (1 + 1) with 2.
      destruct (retryLoop_waits_second ctx lr' le'
                  (Wait (1 * time_Second) :: Do req :: h))
        as (ws & -> & Hws).
      exists (ws ++ [1 * time_Second])%list. split.
      * now rewrite <- app_assoc.
      * destruct Hws as [->| ->]; [right; now left|right; now right].
Qed.

(** The loop, entered at an attempt it can still make, ends with a
    response or with an error, never with neither. *)
Lemma retryLoop_result ctx n : forall attempt lr le h,
  Z.of_nat (S n) + attempt = maxChatRetries + 1 ->
  exists h',
    (exists status,
        retryLoop (S n) attempt ctx req lr le h
        = (Ret (Some status, None), h'))
    \/ (exists err,
          retryLoop (S n) attempt ctx req lr le h
          = (Ret (None, Some err), h')).
Proof.
  unfold maxChatRetries.
  induction n as [|n IH]; intros attempt lr le h Hn.
  - destruct (newRequestErr req) as [err|] eqn:Hbuild.
    { exists h. right. exists err. cbn [retryLoop]. now rewrite Hbuild. }
    pose proof (retryLoop_step ctx req Hbuild 0 attempt lr le h) as H.
    cbv zeta in H. unfold maxChatRetries in H.
    replace (attempt =? 3)%Z with true in H by lia.
    destruct (replyUpstream _) as [err|status].
    + eexists. right. eexists. exact H.
    + eexists. left. eexists. destruct (negb _); exact H.
  - destruct (newRequestErr req) as [err|] eqn:Hbuild.
    { exists h. right. exists err. cbn [retryLoop]. now rewrite Hbuild. }
    pose proof (retryLoop_step ctx req Hbuild (S n) attempt lr le h) as H.
    cbv zeta in H. unfold maxChatRetries in H.
    replace (attempt =? 3)%Z with false in H by lia.
    destruct (replyUpstream _) as [err|status].
    + destruct (match ctx with Background => None | Cancellable => _ end).
      * eexists. right. eexists. exact H.
      * rewrite H. apply IH. lia.
    + destruct (negb _); [eexists; left; eexists; exact H|].
      destruct (match ctx with Background => None | Cancellable => _ end).
      * eexists. right. eexists. exact H.
      * rewrite H. apply IH. lia.
Qed.

(** Three retriable answers in a row, with a context that stays live. *)
Lemma makeRequestWithRetry_retriable h :
  newRequestErr req = None ->
  (forall h', ctxDone h' = None) ->
  (forall h', exists status,
      replyUpstream h' = UpstreamResponse status
      /\ isRetriableError status None = true) ->
  let hf := Do req :: Wait (4 * time_Second) :: Do req
            :: Wait (1 * time_Second) :: Do req :: h in
  exists status,
    replyUpstream hf = UpstreamResponse status
    /\ isRetriableError status None = true
    /\ makeRequestWithRetry Cancellable req h = (Ret (Some status, None), hf).
Proof.
  intros Hbuild Hlive Hr hf.
  unfold makeRequestWithRetry. change (Z.to_nat maxChatRetries) with 3%nat.
  pose proof (retryLoop_step Cancellable req Hbuild 2 1 None None h) as H1.
  cbv zeta in H1. destruct (Hr (Do req :: h)) as (s1 & Hs1 & Hret1).
  rewrite Hs1, Hret1, Hlive in H1. cbn [negb] in H1.
  change (1 =? maxChatRetries)%Z with false in H1. rewrite H1.
  rewrite (proj1 retryDelay_values). change (1 + 1) with 2.
  set (h2 := Wait (1 * time_Second) :: Do req :: h).
  pose proof (retryLoop_step Cancellable req Hbuild 1 2 (Some s1) None h2)
    as H2.
  cbv zeta in H2. destruct (Hr (Do req :: h2)) as (s2 & Hs2 & Hret2).
  rewrite Hs2, Hret2, Hlive in H2. cbn [negb] in H2.
  change (2 =? maxChatRetries)%Z with false in H2. rewrite H2.
  rewrite (proj2 retryDelay_values). change (2 + 1) with 3.
  fold hf.
  set (h3 := Wait (4 * time_Second) :: Do req :: h2).
  pose proof (retryLoop_step Cancellable req Hbuild 0 3 (Some s2) None h3)
    as H3.
  cbv zeta in H3. destruct (Hr (Do req :: h3)) as (s3 & Hs3 & Hret3).
  rewrite Hs3, Hret3 in H3. cbn [negb] in H3.
  change (3 =? maxChatRetries)%Z with true in H3.
  exists s3. repeat split; assumption.
Qed.

(** A request of the loop is the first thing a turn does. *)
Lemma retryLoop_request_located ctx n : forall attempt lr le h pre,
  (Do req :: pre) `suffix_of` snd (retryLoop n attempt ctx req lr le h) ->
  h `suffix_of` pre ->
  newRequestErr req = None
  /\ exists (j : nat) lr' le',
       (j < n)%nat
       /\ count isRequest pre = count isRequest h + Z.of_nat j
       /\ retryLoop n attempt ctx req lr le h
          = retryLoop (n - j) (attempt + Z.of_nat j) ctx req lr' le' pre.
Proof.
  induction n as [|n IH]; intros attempt lr le h pre Hs Hh.
  { exfalso. cbn in Hs. eapply suffix_cons_not; eassumption. }
  destruct (newRequestErr req) as [err|] eqn:Hbuild.
  { exfalso. cbn [retryLoop] in Hs. rewrite Hbuild in Hs. cbn in Hs.
    eapply suffix_cons_not; eassumption. }
  split; [reflexivity|].
  set (hw := Wait (retryDelay attempt) :: Do req :: h).
  assert (Hhere : pre = h ->
            exists (j : nat) lr' le',
              (j < S n)%nat
              /\ count isRequest pre = count isRequest h + Z.of_nat j
              /\ retryLoop (S n) attempt ctx req lr le h
                 = retryLoop (S n - j) (attempt + Z.of_nat j) ctx req lr' le'
                     pre).
  { intros ->. exists 0%nat, lr, le. change (Z.of_nat 0) with 0.
    rewrite !Z.add_0_r. split; [lia|]. split; reflexivity. }
  assert (Hreq : (Do req :: pre) `suffix_of` (Do req :: h) -> pre = h).
  { intros H1. apply suffix_cons_cases in H1 as [H1|H1]; [congruence|].
    exfalso. eapply suffix_cons_not; eassumption. }
  assert (Hhw : (Do req :: pre) `suffix_of` hw -> pre = h).
  { intros H1. apply suffix_cons_cases in H1 as [H1|H1];
      [discriminate|auto]. }
  assert (Hrec : forall lr1 le1,
            retryLoop (S n) attempt ctx req lr le h
            = retryLoop n (attempt + 1) ctx req lr1 le1 hw ->
            exists (j : nat) lr' le',
              (j < S n)%nat
              /\ count isRequest pre = count isRequest h + Z.of_nat j
              /\ retryLoop (S n) attempt ctx req lr le h
                 = retryLoop (S n - j) (attempt + Z.of_nat j) ctx req lr' le'
                     pre).
  { intros lr1 le1 Ht. rewrite Ht in Hs.
    pose proof (retryLoop_grows ctx n (attempt + 1) lr1 le1 hw) as Hg.
    destruct (suffix_comparable _ _ _ Hs Hg) as [H1|H1]; [auto|].
    apply suffix_cons_cases in H1 as [H1|H1]; [discriminate|].
    destruct (IH (attempt + 1) lr1 le1 hw pre Hs H1)
      as (_ & j & lr' & le' & Hj & Hc & Hr).
    exists (S j), lr', le'. split; [lia|]. split.
    - rewrite Hc. unfold hw. cbn. lia.
    - rewrite Ht, Hr.
      replace (attempt + 1 + Z.of_nat j) with (attempt + Z.of_nat (S j))
        by lia.
      reflexivity. }
  pose proof (retryLoop_step ctx req Hbuild n attempt lr le h) as Ht.
  cbv zeta in Ht. fold hw in Ht.
  destruct (replyUpstream _) as [err|status].
  - destruct (attempt =? maxChatRetries)%Z.
    { rewrite Ht in Hs. auto. }
    destruct (match ctx with Background => None | Cancellable => _ end);
      [rewrite Ht in Hs|]; eauto.
  - destruct (negb _).
    { rewrite Ht in Hs. auto. }
    destruct (attempt =? maxChatRetries)%Z.
    { rewrite Ht in Hs. auto. }
    destruct (match ctx with Background => None | Cancellable => _ end);
      [rewrite Ht in Hs|]; eauto.
Qed.

(** A wait of the loop follows a request of a turn that is not the last
    and whose answer asks for a retry, lasts [retryDelay] of that turn,
    and is followed by the return of the context's error or by the next
    turn. *)
Lemma retryLoop_wait_located ctx n : forall attempt lr le h d pre,
  (Wait d :: pre) `suffix_of` snd (retryLoop n attempt ctx req lr le h) ->
  h `suffix_of` pre ->
  newRequestErr req = None
  /\ exists (j : nat) pre',
       pre = Do req :: pre'
       /\ (j < n)%nat
       /\ attempt + Z.of_nat j <> maxChatRetries
       /\ count isRequest pre' = count isRequest h + Z.of_nat j
       /\ d = retryDelay (attempt + Z.of_nat j)
       /\ (forall status,
             replyUpstream pre = UpstreamResponse status ->
             isRetriableError status None = true)
       /\ match (match ctx with
                 | Background => None
                 | Cancellable => ctxDone (Wait d :: pre)
                 end) with
          | Some e' =>
              retryLoop n attempt ctx req lr le h
              = (Ret (None, Some e'), Wait d :: pre)
          | None =>
              exists lr' le',
                retryLoop n attempt ctx req lr le h
                = retryLoop (n - S j) (attempt + Z.of_nat (S j)) ctx req
                    lr' le' (Wait d :: pre)
          end.
Proof.
  induction n as [|n IH]; intros attempt lr le h d pre Hs Hh.
  { exfalso. cbn in Hs. eapply suffix_cons_not; eassumption. }
  destruct (newRequestErr req) as [err|] eqn:Hbuild.
  { exfalso. cbn [retryLoop] in Hs. rewrite Hbuild in Hs. cbn in Hs.
    eapply suffix_cons_not; eassumption. }
  split; [reflexivity|].
  set (hw := Wait (retryDelay attempt) :: Do req :: h).
  set (c := match ctx with Background => None | Cancellable => ctxDone hw
            end).
  assert (Hreq : (Wait d :: pre) `suffix_of` (Do req :: h) -> False).
  { intros H1. apply suffix_cons_cases in H1 as [H1|H1]; [discriminate|].
    eapply suffix_cons_not; eassumption. }
  assert (Hhw : (Wait d :: pre) `suffix_of` hw -> Wait d :: pre = hw).
  { intros H1. apply suffix_cons_cases in H1 as [H1|H1]; [exact H1|].
    now exfalso. }
  pose proof (retryLoop_step ctx req Hbuild n attempt lr le h) as Ht.
  cbv zeta in Ht. fold hw in Ht. fold c in Ht.
  assert (Hgo : attempt <> maxChatRetries ->
            (forall status,
                replyUpstream (Do req :: h) = UpstreamResponse status ->
                isRetriableError status None = true) ->
            match c with
            | Some ce => retryLoop (S n) attempt ctx req lr le h
                         = (Ret (None, Some ce), hw)
            | None => exists lr1 le1,
                        retryLoop (S n) attempt ctx req lr le h
                        = retryLoop n (attempt + 1) ctx req lr1 le1 hw
            end ->
            exists (j : nat) pre',
              pre = Do req :: pre'
              /\ (j < S n)%nat
              /\ attempt + Z.of_nat j <> maxChatRetries
              /\ count isRequest pre' = count isRequest h + Z.of_nat j
              /\ d = retryDelay (attempt + Z.of_nat j)
              /\ (forall status,
                    replyUpstream pre = UpstreamResponse status ->
                    isRetriableError status None = true)
              /\ match (match ctx with
                        | Background => None
                        | Cancellable => ctxDone (Wait d :: pre)
                        end) with
                 | Some e' =>
                     retryLoop (S n) attempt ctx req lr le h
                     = (Ret (None, Some e'), Wait d :: pre)
                 | None =>
                     exists lr' le',
                       retryLoop (S n) attempt ctx req lr le h
                       = retryLoop (S n - S j) (attempt + Z.of_nat (S j)) ctx
                           req lr' le' (Wait d :: pre)
                 end).
  { intros Ha Hretry Hc.
    assert (Hhere : Wait d :: pre = hw ->
              exists (j : nat) pre',
                pre = Do req :: pre'
                /\ (j < S n)%nat
                /\ attempt + Z.of_nat j <> maxChatRetries
                /\ count isRequest pre' = count isRequest h + Z.of_nat j
                /\ d = retryDelay (attempt + Z.of_nat j)
                /\ (forall status,
                      replyUpstream pre = UpstreamResponse status ->
                      isRetriableError status None = true)
                /\ match (match ctx with
                          | Background => None
                          | Cancellable => ctxDone (Wait d :: pre)
                          end) with
                   | Some e' =>
                       retryLoop (S n) attempt ctx req lr le h
                       = (Ret (None, Some e'), Wait d :: pre)
                   | None =>
                       exists lr' le',
                         retryLoop (S n) attempt ctx req lr le h
                         = retryLoop (S n - S j) (attempt + Z.of_nat (S j))
                             ctx req lr' le' (Wait d :: pre)
                   end).
    { intros Heq. rewrite Heq. injection Heq as -> ->.
      exists 0%nat, h. change (Z.of_nat 0) with 0. rewrite !Z.add_0_r.
      split; [reflexivity|]. split; [lia|]. split; [exact Ha|].
      do 2 (split; [reflexivity|]). split; [exact Hretry|].
      fold hw. fold c. change (Z.of_nat 1) with 1.
      replace (S n - 1)%nat with n by lia. exact Hc. }
    destruct c as [ce|].
    { rewrite Hc in Hs. auto. }
    destruct Hc as (lr1 & le1 & Hc). rewrite Hc in Hs.
    pose proof (retryLoop_grows ctx n (attempt + 1) lr1 le1 hw) as Hg.
    destruct (suffix_comparable _ _ _ Hs Hg) as [H1|H1]; [auto|].
    apply suffix_cons_cases in H1 as [H1|H1]; [auto|].
    destruct (IH (attempt + 1) lr1 le1 hw d pre Hs H1)
      as (_ & j & pre' & Hp & Hj & Ha' & Hn & Hd & Hf & Hr).
    exists (S j), pre'. split; [exact Hp|]. split; [lia|].
    replace (attempt + Z.of_nat (S j)) with (attempt + 1 + Z.of_nat j)
      by lia.
    split; [exact Ha'|]. split; [rewrite Hn; unfold hw; cbn; lia|].
    split; [exact Hd|]. split; [exact Hf|].
    rewrite Hc.
    replace (attempt + Z.of_nat (S (S j)))
      with (attempt + 1 + Z.of_nat (S j)) by lia.
    exact Hr. }
  destruct (replyUpstream (Do req :: h)) as [err|status] eqn:Hrep.
  - destruct (attempt =? maxChatRetries)%Z eqn:Ea.
    { exfalso. rewrite Ht in Hs. auto. }
    apply Hgo; [lia|discriminate|]. destruct c; eauto.
  - destruct (isRetriableError status None) eqn:Hret; cbn [negb] in Ht.
    2:{ exfalso. rewrite Ht in Hs. auto. }
    destruct (attempt =? maxChatRetries)%Z eqn:Ea.
    { exfalso. rewrite Ht in Hs. auto. }
    apply Hgo; [lia|congruence|]. destruct c; eauto.
Qed.

(** X6.  When the n-th request of [makeRequestWithRetry] gets a
    transport error or a retriable status, the routine waits 1 s for
    n = 1 and 4 s for n = 2 right after it, and for n = 3 it stops there.
    These are the only waits of the call, each follows such an answer,
    and a wait during which the context is not done is followed by the
    next request.  When the context of the request is done during a
    wait, the routine returns the context's error with that wait as the
    last thing it did. *)
Theorem chat_retry_backoff_and_cancellation (ctx : Context)
  (h : list World.event) :
  let res := makeRequestWithRetry ctx req h in
  (exists ws,
      waits (snd res) = (ws ++ waits h)%list
      /\ (ws = [] \/ ws = [1 * time_Second]
          \/ ws = [4 * time_Second; 1 * time_Second]))
  /\ (forall d pre e,
        ctx = Cancellable ->
        (Wait d :: pre) `suffix_of` snd res ->
        h `suffix_of` pre ->
        ctxDone (Wait d :: pre) = Some e ->
        res = (Ret (None, Some e), Wait d :: pre))
  /\ (forall pre,
        (Do req :: pre) `suffix_of` snd res ->
        h `suffix_of` pre ->
        (forall status,
            replyUpstream (Do req :: pre) = UpstreamResponse status ->
            isRetriableError status None = true) ->
        let n := count isRequest (Do req :: pre) - count isRequest h in
        (n = 1 \/ n = 2 \/ n = 3)
        /\ (n <> 3 ->
            (Wait (n * n * time_Second) :: Do req :: pre)
            `suffix_of` snd res)
        /\ (n = 3 -> snd res = Do req :: pre))
  /\ (forall d pre,
        (Wait d :: pre) `suffix_of` snd res ->
        h `suffix_of` pre ->
        exists pre',
          pre = Do req :: pre'
          /\ (forall status,
                replyUpstream pre = UpstreamResponse status ->
                isRetriableError status None = true)
          /\ (let n := count isRequest pre - count isRequest h in
              (n = 1 \/ n = 2) /\ d = n * n * time_Second)
          /\ (ctx = Background \/ ctxDone (Wait d :: pre) = None ->
              (Do req :: Wait d :: pre) `suffix_of` snd res)).
Proof.
  intros res. subst res. unfold makeRequestWithRetry.
  change (Z.to_nat maxChatRetries) with 3%nat.
  split; [apply retryLoop_waits_first|].
  split; [intros d pre e -> Hs Hh He; now apply retryLoop_cancel|].
  split.
  - intros pre Hs Hh Hretry.
    set (n := count isRequest (Do req :: pre) - count isRequest h).
    destruct (retryLoop_request_located ctx 3 1 None None h pre Hs Hh)
      as (Hbuild & j & lr & le & Hj & Hc & Hr).
    assert (Hn : n = 1 + Z.of_nat j) by (subst n; cbn [count]; cbn; lia).
    rewrite Hr. clear Hr Hs.
    assert (Hturn : forall m a,
              (a =? maxChatRetries)%Z = false ->
              (Wait (retryDelay a) :: Do req :: pre)
              `suffix_of` snd (retryLoop (S m) a ctx req lr le pre)).
    { intros m a Ha.
      pose proof (retryLoop_step ctx req Hbuild m a lr le pre) as Ht.
      cbv zeta in Ht. rewrite Ha in Ht.
      destruct (replyUpstream _) as [err|status].
      - destruct (match ctx with Background => None | Cancellable => _ end);
          rewrite Ht; [reflexivity|apply retryLoop_grows].
      - rewrite (Hretry status eq_refl) in Ht. cbn [negb] in Ht.
        destruct (match ctx with Background => None | Cancellable => _ end);
          rewrite Ht; [reflexivity|apply retryLoop_grows]. }
    destruct j as [|[|[|j]]]; [| | |lia];
      cbn [Nat.sub] in *; cbn in Hn; rewrite Hn; (split; [lia|]).
    + split; [intros _|lia]. exact (Hturn 2%nat 1 eq_refl).
    + split; [intros _|lia]. exact (Hturn 1%nat 2 eq_refl).
    + split; [lia|intros _].
      pose proof (retryLoop_step ctx req Hbuild 0 3 lr le pre) as Ht.
      cbv zeta in Ht. change (3 =? maxChatRetries)%Z with true in Ht.
      change (1 + Z.of_nat 2) with 3.
      destruct (replyUpstream _) as [err|status]; [now rewrite Ht|].
      destruct (negb _); now rewrite Ht.
  - intros d pre Hs Hh.
    destruct (retryLoop_wait_located ctx 3 1 None None h d pre Hs Hh)
      as (Hbuild & j & pre' & Hp & Hj & Ha & Hc & Hd & Hf & Hr).
    exists pre'. split; [exact Hp|]. split; [exact Hf|].
    assert (Hn : count isRequest pre - count isRequest h = 1 + Z.of_nat j)
      by (rewrite Hp; cbn [count]; cbn; lia).
    cbv zeta. rewrite Hn. clear Hs.
    assert (Hj' : j = 0%nat \/ j = 1%nat)
      by (unfold maxChatRetries in Ha; lia).
    split.
    + destruct Hj' as [-> | ->]; rewrite Hd; (split; [lia|reflexivity]).
    + intros Hlive.
      assert (Hc' : match ctx with
                    | Background => None
                    | Cancellable => ctxDone (Wait d :: pre)
                    end = None) by (destruct ctx, Hlive; congruence).
      rewrite Hc' in Hr. destruct Hr as (lr' & le' & ->).
      destruct Hj' as [-> | ->]; cbn [Nat.sub];
        now apply retryLoop_requests_first.
Qed.

End ChatRetry.

Section ServingRuns.
Import GoStrings Errors World Auth Breaker Proxy Serving.
Context `{E : Env} `{T : ErrorText} `{P : ProxyLib}.
Local Open Scope string_scope.

(** X7.  The worker's processing of a request panics only when the token
    check does: [makeRequestWithRetry] always hands back a response or
    an error, so the status of the response is there to be read. *)
Theorem processing_panics_only_in_token_check s ctx r st h v h' :
  processProxyRequest s ctx r st h = (Panic v, h') ->
  ensureValidToken s (config s) h = (Panic v, h').
Proof.
  intros Hp. destruct (checked s r) as [body|] eqn:Hc.
  - rewrite (processProxyRequest_checked s ctx r st body h Hc) in Hp.
    destruct (ensureValidToken s (config s) h) as [[[e|]|v0] h1];
      [discriminate| |now injection Hp as -> ->].
    destruct (targetURL (Path r)) as [url|]; [|discriminate].
    destruct (newRequestErr _) eqn:Hb; [discriminate|].
    unfold makeRequestWithRetry in Hp.
    change (Z.to_nat maxChatRetries) with 3%nat in Hp.
    destruct (retryLoop_result (upstreamRequest s r url body) ctx 2 1
                None None h1 eq_refl) as (h2 & [(status & Hr)|(err & Hr)]);
      rewrite Hr in Hp; discriminate.
  - destruct (processProxyRequest_unchecked s ctx r st h Hc) as [e He].
    rewrite He in Hp. discriminate.
Qed.

(** X8.  When every attempt of a request gets a retriable answer (500 or
    above, 429, 408) the client gets the status of the third answer,
    after three upstream requests and waits of 1 s and 4 s; the breaker
    records one failure for the request, not three, when that status is
    500 or above, and a success when it is 429 or 408. *)
Theorem retriable_answers_count_once s r cb body url h h1 :
  fst (canExecute (nanotime h) cb) = true ->
  checked s r = Some body ->
  ensureValidToken s (config s) h = (Ret None, h1) ->
  targetURL (Path r) = Some url ->
  let req := upstreamRequest s r url body in
  newRequestErr req = None ->
  (forall h', ctxDone h' = None) ->
  (forall h', exists status,
      replyUpstream h' = UpstreamResponse status
      /\ isRetriableError status None = true) ->
  let cb1 := snd (canExecute (nanotime h) cb) in
  let hf := Do req :: Wait (4 * time_Second) :: Do req
            :: Wait (1 * time_Second) :: Do req :: h1 in
  exists status,
    replyUpstream hf = UpstreamResponse status
    /\ Handler s DoneReceived r cb h
       = (Ret (Some status,
               if (status <? 500)%Z then onSuccess cb1
               else onFailure (nanotime hf) cb1), hf).
Proof.
  intros Hadm Hc Htok Hurl req Hbuild Hlive Hr cb1 hf.
  destruct (makeRequestWithRetry_retriable req h1 Hbuild Hlive Hr)
    as (status & Hs & _ & Hm).
  exists status. split; [exact Hs|].
  set (st0 := {| circuitBreaker := cb1; headersSent := false;
                 wroteHeader := None |}).
  rewrite (Handler_done s r cb h (copyBody hf)
             (WriteHeader status
                (withBreaker (if (status <? statusCodeServerError)%Z
                              then onSuccess (circuitBreaker st0)
                              else onFailure (nanotime hf)
                                     (circuitBreaker st0)) st0))
             hf Hadm).
  - cbn. now destruct (copyBody _).
  - rewrite (processProxyRequest_checked s _ r _ body h Hc).
    rewrite Htok, Hurl. fold req. rewrite Hbuild. fold hf in Hm.
    now rewrite Hm.
Qed.

Variable s : ProxyService.
Hypothesis Htok : forall h, ensureValidToken s (config s) h = (Ret None, h).
Hypothesis Hbuild : forall req, newRequestErr req = None.
Hypothesis Hlive : forall h, ctxDone h = None.
Hypothesis Hdown : forall h, exists status,
  replyUpstream h = UpstreamResponse status /\ 500 <= status.

(** A request served by a closed breaker while the upstream is down. *)
Lemma Handler_failing r cb h :
  state cb = CircuitClosed ->
  (exists body url, checked s r = Some body /\ targetURL (Path r) = Some url) ->
  exists status h',
    500 <= status
    /\ Handler s DoneReceived r cb h
       = (Ret (Some status, onFailure (nanotime h') cb), h')
    /\ count isRequest h' = count isRequest h + 3.
Proof.
  intros Hst (body & url & Hc & Hurl).
  assert (Hcan : canExecute (nanotime h) cb = (true, cb))
    by (unfold canExecute; now rewrite Hst).
  assert (Hr : forall h', exists status,
             replyUpstream h' = UpstreamResponse status
             /\ isRetriableError status None = true).
  { intros h'. destruct (Hdown h') as (st & H1 & H2). exists st.
    split; [exact H1|]. apply isRetriableError_spec. now left. }
  destruct (retriable_answers_count_once s r cb body url h h
              ltac:(now rewrite Hcan) Hc (Htok h) Hurl (Hbuild _) Hlive Hr)
    as (status & Hs & HH).
  destruct (Hdown (Do (upstreamRequest s r url body)
                   :: Wait (4 * time_Second)
                   :: Do (upstreamRequest s r url body)
                   :: Wait (1 * time_Second)
                   :: Do (upstreamRequest s r url body) :: h))
    as (st' & Hs' & Hge).
  rewrite Hs in Hs'. injection Hs' as <-.
  rewrite Hcan in HH. cbn [snd] in HH.
  destruct (status <? 500)%Z eqn:El; [lia|].
  do 2 eexists. split; [exact Hge|]. split; [exact HH|].
  cbn. lia.
Qed.

Lemma serve_failing rs : forall cb h,
  0 <= failureCount cb ->
  state cb
  = (if (5 <=? failureCount cb)%Z then CircuitOpen else CircuitClosed) ->
  failureCount cb + Z.of_nat (length rs) <= 5 ->
  Forall (fun r => exists body url,
            checked s r = Some body /\ targetURL (Path r) = Some url) rs ->
  exists statuses cb' h',
    serve s rs cb h = (Ret (statuses, cb'), h')
    /\ Forall (fun st => exists c, st = Some c /\ 500 <= c) statuses
    /\ failureCount cb' = failureCount cb + Z.of_nat (length rs)
    /\ state cb'
       = (if (5 <=? failureCount cb')%Z then CircuitOpen else CircuitClosed)
    /\ timeout cb' = timeout cb
    /\ (rs <> [] -> lastFailureTime cb' = nanotime h')
    /\ count isRequest h' = count isRequest h + 3 * Z.of_nat (length rs).
Proof.
  induction rs as [|r rs IH]; intros cb h Hnn Hst Hle Hall.
  - exists [], cb, h. cbn. repeat split; try (lia || assumption || constructor).
    congruence.
  - inversion Hall as [|r0 rs0 Hr Hrs]; subst.
    cbn [length] in Hle.
    assert (Hclosed : state cb = CircuitClosed)
      by (rewrite Hst; destruct (5 <=? failureCount cb)%Z eqn:El; [lia|easy]).
    destruct (Handler_failing r cb h Hclosed Hr)
      as (status & h1 & Hge & HH & Hcnt).
    set (cb1 := onFailure (nanotime h1) cb) in *.
    assert (Hc1 : failureCount cb1 = failureCount cb + 1).
    { cbn. apply wrap_small.
      unfold Int64.in_range, Int64.min_int, Int64.max_int. cbn. lia. }
    assert (Hs1 : state cb1
                  = (if (5 <=? failureCount cb1)%Z then CircuitOpen
                     else CircuitClosed)).
    { rewrite Hc1. cbn [cb1 onFailure state].
      unfold circuitBreakerFailureThreshold.
      rewrite wrap_small
        by (unfold Int64.in_range, Int64.min_int, Int64.max_int; cbn; lia).
      now rewrite Hclosed. }
    destruct (IH cb1 h1 ltac:(lia) Hs1 ltac:(lia) Hrs)
      as (sts & cb' & h' & Hserve & Hsts & Hcount & Hstate & Htime & Hlast
          & Hreq).
    exists (Some status :: sts), cb', h'.
    split; [|split; [|split; [|split; [|split; [|split]]]]].
    + cbn [serve]. unfold bind at 1. rewrite HH. cbn [fst snd].
      unfold bind at 1. fold cb1. rewrite Hserve. reflexivity.
    + constructor; [eauto|exact Hsts].
    + cbn [length]. lia.
    + exact Hstate.
    + rewrite Htime. reflexivity.
    + intros _. destruct rs as [|r' rs'].
      * cbn [serve] in Hserve. injection Hserve as _ <- <-. reflexivity.
      * apply Hlast. discriminate.
    + cbn [length]. lia.
Qed.

(** X9.  With the upstream down (every answer 500 or above), five
    requests in a row served by a fresh breaker each get the upstream's
    status, after three upstream requests each; they open the breaker,
    and from then on, until the timeout has passed since the fifth
    failure, every request is answered 503 with nothing done for it. *)
Theorem five_failures_open_the_breaker rs secs h :
  Forall (fun r => exists body url,
            checked s r = Some body /\ targetURL (Path r) = Some url) rs ->
  length rs = 5%nat ->
  exists statuses cb' h',
    serve s rs (NewCircuitBreaker secs) h = (Ret (statuses, cb'), h')
    /\ Forall (fun st => exists c, st = Some c /\ 500 <= c) statuses
    /\ state cb' = CircuitOpen /\ failureCount cb' = 5
    /\ count isRequest h' = count isRequest h + 15
    /\ forall sel r h6,
         time_Since (nanotime h6) (nanotime h') <= timeout cb' ->
         Handler s sel r cb' h6 = (Ret (Some 503, cb'), h6).
Proof.
  intros Hall Hlen.
  destruct (serve_failing rs (NewCircuitBreaker secs) h)
    as (sts & cb' & h' & Hserve & Hsts & Hcount & Hstate & _ & Hlast & Hreq);
    [cbn; lia|reflexivity|cbn; lia|exact Hall|].
  cbn [NewCircuitBreaker failureCount] in Hcount. rewrite Hlen in Hcount, Hreq.
  rewrite Hcount in Hstate. cbn in Hstate.
  exists sts, cb', h'.
  split; [exact Hserve|]. split; [exact Hsts|]. split; [exact Hstate|].
  split; [lia|]. split; [lia|].
  intros sel r h6 Ht. apply Handler_open; [exact Hstate|].
  rewrite Hlast; [exact Ht|]. destruct rs; [discriminate|discriminate].
Qed.

End ServingRuns.

Section ServingRunScenarios.
Import GoStrings Errors World Auth Breaker Proxy Serving Scenario Cases.
Local Open Scope string_scope.

(** A context cancelled during the wait after the first attempt: the
    routine returns the context's error there.  An upstream that cannot
    be reached: the second request is followed by a wait of 4 s and the
    first wait by the second request. *)
Lemma chat_retry_backoff_and_cancellation_witness :
  let res := makeRequestWithRetry (E := unreachable 1000) Cancellable
               chatRequest [] in
  makeRequestWithRetry (E := cancelledInFirstWait) Cancellable chatRequest []
  = (Ret (None, Some context_Canceled),
     [Wait (1 * Auth.time_Second); Do chatRequest])
  /\ [Wait (4 * Auth.time_Second); Do chatRequest;
      Wait (1 * Auth.time_Second); Do chatRequest] `suffix_of` snd res
  /\ [Do chatRequest; Wait (1 * Auth.time_Second); Do chatRequest]
     `suffix_of` snd res.
Proof.
  intros res. split; [|split].
  - apply (proj1 (proj2 (chat_retry_backoff_and_cancellation
                           (E := cancelledInFirstWait) chatRequest
                           Cancellable []))).
    + reflexivity.
    + exists []. vm_compute. reflexivity.
    + eexists. symmetry. apply app_nil_r.
    + vm_compute. reflexivity.
  - destruct (proj1 (proj2 (proj2 (chat_retry_backoff_and_cancellation
                                     (E := unreachable 1000) chatRequest
                                     Cancellable [])))
                [Wait (1 * Auth.time_Second); Do chatRequest])
      as (_ & Hwait & _).
    + exists [Do chatRequest; Wait (4 * Auth.time_Second)].
      vm_compute. reflexivity.
    + eexists. symmetry. apply app_nil_r.
    + intros status Hs. vm_compute in Hs. discriminate.
    + apply Hwait. vm_compute. discriminate.
  - destruct (proj2 (proj2 (proj2 (chat_retry_backoff_and_cancellation
                                     (E := unreachable 1000) chatRequest
                                     Cancellable [])))
                (1 * Auth.time_Second) [Do chatRequest])
      as (pre' & _ & _ & _ & Hnext).
    + exists [Do chatRequest; Wait (4 * Auth.time_Second); Do chatRequest].
      vm_compute. reflexivity.
    + eexists. symmetry. apply app_nil_r.
    + apply Hnext. right. vm_compute. reflexivity.
Defined.

(** The token check that panics, found again from the panic of the
    processing. *)
Lemma processing_panics_only_in_token_check_witness :
  ensureValidToken panickingService (config panickingService) []
  = (Panic "runtime error: slice bounds out of range", []).
Proof.
  apply (processing_panics_only_in_token_check (E := unreachable 1000)
           (T := specErrorText) (P := proxyLib)
           panickingService Cancellable chatPost freshState []).
  vm_compute. reflexivity.
Defined.

Lemma serverError_retriable h :
  exists status,
    replyUpstream (Env := serverError) h = UpstreamResponse status
    /\ isRetriableError status None = true.
Proof. exists 500. split; reflexivity. Qed.

Lemma serverError_down h :
  exists status,
    replyUpstream (Env := serverError) h = UpstreamResponse status
    /\ 500 <= status.
Proof. exists 500. split; [reflexivity|lia]. Qed.

Lemma chatPost_checked :
  exists body url,
    checked (P := proxyLib) proxyService chatPost = Some body
    /\ targetURL (Path chatPost) = Some url.
Proof. do 2 eexists. split; reflexivity. Qed.

(** Three 500s for one request: one failure on the breaker. *)
Lemma retriable_answers_count_once_witness :
  let req := upstreamRequest proxyService chatPost
               "https://api.githubcopilot.com/chat/completions"
               [Byte.x7b; Byte.x7d] in
  let hf := [Do req; Wait (4 * Auth.time_Second); Do req;
             Wait (1 * Auth.time_Second); Do req] in
  exists status,
    replyUpstream (Env := serverError) hf = UpstreamResponse status
    /\ Handler (E := serverError) (T := specErrorText) (P := proxyLib)
         proxyService DoneReceived chatPost (NewCircuitBreaker 30) []
       = (Ret (Some status,
               if (status <? 500)%Z then onSuccess (NewCircuitBreaker 30)
               else onFailure (nanotime (Env := serverError) hf)
                      (NewCircuitBreaker 30)), hf).
Proof.
  apply (retriable_answers_count_once (E := serverError)
           (T := specErrorText) (P := proxyLib)
           proxyService chatPost (NewCircuitBreaker 30)
           [Byte.x7b; Byte.x7d]
           "https://api.githubcopilot.com/chat/completions" [] []
           eq_refl eq_refl eq_refl eq_refl eq_refl
           (fun _ => eq_refl) serverError_retriable).
Defined.

(** Five requests against an upstream that answers 500. *)
Lemma five_failures_open_the_breaker_witness :
  exists statuses cb' h',
    serve (E := serverError) (T := specErrorText) (P := proxyLib)
      proxyService (repeat chatPost 5) (NewCircuitBreaker 30) []
    = (Ret (statuses, cb'), h')
    /\ Forall (fun st => exists c, st = Some c /\ 500 <= c) statuses
    /\ state cb' = CircuitOpen /\ failureCount cb' = 5
    /\ count isRequest h' = count isRequest [] + 15
    /\ forall sel r h6,
         time_Since (nanotime (Env := serverError) h6)
           (nanotime (Env := serverError) h') <= timeout cb' ->
         Handler (E := serverError) (T := specErrorText) (P := proxyLib)
           proxyService sel r cb' h6 = (Ret (Some 503, cb'), h6).
Proof.
  apply (five_failures_open_the_breaker (E := serverError)
           (T := specErrorText) (P := proxyLib) proxyService
           (fun _ => eq_refl) (fun _ => eq_refl) (fun _ => eq_refl)
           serverError_down (repeat chatPost 5) 30 []).
  - cbn [repeat]. repeat constructor; apply chatPost_checked.
  - reflexivity.
Defined.

End ServingRunScenarios.

(** ** Refresh: what the record and the caller get *)

Section RefreshRuns.
Import GoStrings Errors World Auth.
Context `{E : Env}.
Local Open Scope string_scope.

(** A token request in the history of a refresh was sent by the loop. *)
Lemma RefreshTokenWithContext_loop s ctx email cfg (h : list World.event)
  pre x :
  (x :: pre) `suffix_of` snd (RefreshTokenWithContext s ctx email cfg h) ->
  h `suffix_of` pre ->
  isCopilotRequest x = true ->
  RefreshTokenWithContext s ctx email cfg h
  = refreshLoop 3 1 ctx email cfg (Entered "RefreshTokenWithContext" :: h)
  /\ (Entered "RefreshTokenWithContext" :: h) `suffix_of` pre.
Proof.
  intros Hs Hh Hx.
  set (h1 := Entered "RefreshTokenWithContext" :: h).
  assert (Hres : RefreshTokenWithContext s ctx email cfg h
                 = match refreshFunc s with
                   | Some f => (Ret (f cfg), CalledRefreshFunc :: h1)
                   | None =>
                       if GitHubToken cfg =? ""
                       then (Ret (cfg, Some (AuthenticationError
                               "no GitHub token available for refresh"
                               None)), h1)
                       else refreshLoop 3 1 ctx email cfg h1
                   end).
  { unfold RefreshTokenWithContext, bind at 1. cbn [emit].
    destruct (refreshFunc s); [reflexivity|].
    destruct (GitHubToken cfg =? ""); reflexivity. }
  rewrite Hres in Hs |- *.
  assert (Hnone : forall k,
             forallb (fun e => negb (isCopilotRequest e)) k = true ->
             (x :: pre) `suffix_of` (k ++ h)%list -> False).
  { intros k. induction k as [|y k IHk]; cbn; intros Hk Hs'.
    - eapply suffix_cons_not; eassumption.
    - apply andb_prop in Hk as [Hy Hk].
      apply suffix_cons_cases in Hs' as [Heq|Hs']; [|now apply IHk].
      injection Heq as <- _. now rewrite Hx in Hy. }
  destruct (refreshFunc s) as [f|].
  { exfalso. apply (Hnone [CalledRefreshFunc;
                           Entered "RefreshTokenWithContext"]); auto. }
  destruct (GitHubToken cfg =? "").
  { exfalso. apply (Hnone [Entered "RefreshTokenWithContext"]); auto. }
  split; [reflexivity|].
  pose proof (grows_refreshLoop 3 1 ctx email cfg h1) as Hg.
  destruct (suffix_comparable _ _ _ Hs Hg) as [H1|H1].
  - exfalso. apply (Hnone [Entered "RefreshTokenWithContext"]); auto.
  - apply suffix_cons_cases in H1 as [H1|H1]; [|exact H1].
    exfalso. injection H1 as H1 _. now rewrite <- H1 in Hx.
Qed.

(** X10.  Whichever attempt of a refresh gets a token from upstream, the
    record then carries the new token, its expiry and its refresh time,
    also when the credential store cannot be updated; the outcome of the
    store update alone decides between success and the error
    [failed to update token in database: ...], and nothing is done after
    it. *)
Theorem refresh_success_keeps_new_token s ctx email cfg
  (h pre : list World.event) tok ex ri :
  let res := RefreshTokenWithContext s ctx email cfg h in
  let req := Do (GetCopilotToken (GitHubToken cfg) (UserAgent (Headers cfg))) in
  let cfg' := setCopilotToken cfg tok ex ri in
  (req :: pre) `suffix_of` snd res ->
  h `suffix_of` pre ->
  fst (getCopilotToken cfg (GitHubToken cfg) pre) = Ret (tok, ex, ri, None) ->
  exists u h',
    updateTokenInDatabase email cfg' (req :: pre) = (Ret u, h')
    /\ res = (Ret (cfg',
                   match snd u with
                   | Some e =>
                       Some (Wrapped "failed to update token in database: " e)
                   | None => None
                   end), h')
    /\ CopilotToken cfg' = tok /\ ExpiresAt cfg' = ex /\ RefreshIn cfg' = ri.
Proof.
  intros res req cfg' Hs Hh Hf.
  destruct (RefreshTokenWithContext_loop s ctx email cfg h pre req Hs Hh
              eq_refl) as [Hres H1].
  subst res. rewrite Hres in Hs |- *.
  destruct (refreshLoop_request_located 3 1 ctx email cfg _ pre Hs H1)
    as (j & Hj & _ & Hr).
  rewrite Hr. clear Hr Hs Hres.
  destruct (updateTokenInDatabase_result email cfg' (req :: pre))
    as (u & k & Hu & _).
  exists u, (k ++ req :: pre)%list. split; [exact Hu|].
  split; [|now split].
  destruct (getCopilotToken_result cfg (GitHubToken cfg) pre)
    as [[v Hv]|[v Hv]]; rewrite Hv in Hf; cbn [fst] in Hf; [discriminate|].
  injection Hf as ->.
  destruct (3 - j)%nat as [|m] eqn:Em; [lia|].
  cbn [refreshLoop]. unfold bind at 1. rewrite Hv.
  unfold bind. fold req. fold cfg'. rewrite Hu.
  now destruct (snd u).
Qed.

(** The loop leaves every field of the record but the Copilot token, its
    expiry and its refresh time as it found it. *)
Lemma refreshLoop_record n : forall attempt ctx email cfg
  (h : list World.event),
  match fst (refreshLoop n attempt ctx email cfg h) with
  | Ret (c, _) =>
      Port c = Port cfg /\ GitHubToken c = GitHubToken cfg
      /\ AllowedModels c = AllowedModels cfg /\ Headers c = Headers cfg
      /\ CORS c = CORS cfg /\ Timeouts c = Timeouts cfg
  | Panic _ => True
  end.
Proof.
  induction n as [|n IH]; intros attempt ctx email cfg h.
  { cbn. repeat split. }
  cbn [refreshLoop]. unfold bind at 1.
  destruct (getCopilotToken_result cfg (GitHubToken cfg) h)
    as [[v Hv]|[[[[tok ex] ri] err] Hv]]; rewrite Hv; [exact I|].
  destruct err as [e|].
  - destruct (attempt =? maxRefreshRetries)%Z; [cbn; repeat split|].
    unfold bind, selectTimer, bind, emit.
    destruct ctx; [apply IH|]. unfold ask.
    destruct (ctxDone _); [cbn; repeat split|apply IH].
  - unfold bind.
    destruct (updateTokenInDatabase_result email
                (setCopilotToken cfg tok ex ri)
                (Do (GetCopilotToken (GitHubToken cfg)
                       (UserAgent (Headers cfg))) :: h))
      as (u & k & Hu & _).
    rewrite Hu. destruct (snd u); cbn; repeat split.
Qed.

(** X11.  A record whose Copilot token is about to expire and whose
    GitHub token has fewer than 10 characters makes the token check
    panic (on the slice of the token it logs) before any request is
    sent; it does not return an error. *)
Theorem short_github_token_panics s email cfg (h : list World.event) :
  refreshFunc s = None ->
  CopilotToken cfg <> "" ->
  (0 < String.length (GitHubToken cfg) < 10)%nat ->
  ExpiresAt cfg <= Int64.wrap (clock h + 300) ->
  EnsureValidTokenWithConfig s email cfg h
  = (Panic "runtime error: slice bounds out of range",
     Entered "RefreshTokenWithContext" :: h).
Proof.
  intros Hf Htok Hlen Hexp.
  unfold EnsureValidTokenWithConfig, bind at 1, ask.
  apply String.eqb_neq in Htok. rewrite Htok.
  apply Z.leb_le in Hexp. rewrite Hexp.
  unfold bind at 1, RefreshToken, RefreshTokenWithContext, bind at 1.
  cbn [emit]. rewrite Hf.
  assert (Hne : (GitHubToken cfg =? "") = false).
  { apply String.eqb_neq. intros Heq. rewrite Heq in Hlen. cbn in Hlen.
    lia. }
  rewrite Hne. change (Z.to_nat maxRefreshRetries) with 3%nat.
  cbn [refreshLoop]. unfold bind at 1, getCopilotToken.
  assert (Hlt : (String.length (GitHubToken cfg) <? 10)%nat = true)
    by (apply Nat.ltb_lt; lia).
  now rewrite Hlt.
Qed.

(** X12.  A configuration that [EnsureValidToken] returns comes without
    an error, has its port, allow-list of models, headers, CORS settings
    and timeouts from the base configuration, and its GitHub token from
    the record of the credential store, whether or not the Copilot token
    was refreshed on the way. *)
Theorem ensure_valid_token_keeps_settings s email base
  (h h' : list World.event) cfg' err :
  refreshFunc s = None ->
  EnsureValidToken s email (Some base) h = (Ret (Some cfg', err), h') ->
  err = None
  /\ Port cfg' = Port base /\ AllowedModels cfg' = AllowedModels base
  /\ Headers cfg' = Headers base /\ CORS cfg' = CORS base
  /\ Timeouts cfg' = Timeouts base
  /\ exists tx d,
       replyFetch (Do (StoreFetch email) :: h) = Response 200 tx (inr (true, d))
       /\ GitHubToken cfg' = sd_GithubToken d.
Proof.
  intros Hf. unfold EnsureValidToken, bind at 1, fetchTokenFromDatabase.
  destruct (newRequestErr (StoreFetch email)); [discriminate|].
  unfold bind at 1, httpDo, bind at 1, emit, ask.
  destruct (replyFetch (Do (StoreFetch email) :: h))
    as [e|status tx [e|[success d]]] eqn:Hrep; try discriminate.
  { destruct (status =? 404)%Z; [discriminate|].
    destruct (negb (status =? 200)%Z); discriminate. }
  destruct (status =? 404)%Z; [discriminate|].
  destruct (status =? 200)%Z eqn:Est; cbn [negb]; [|discriminate].
  apply Z.eqb_eq in Est. subst status.
  destruct success; cbn [negb]; [|discriminate].
  set (h1 := Do (StoreFetch email) :: h).
  unfold ret at 1. cbv iota beta.
  match goal with
  | |- EnsureValidTokenWithConfig _ _ ?c _ = _ -> _ => set (cfg := c)
  end.
  unfold EnsureValidTokenWithConfig, bind at 1, ask.
  destruct (CopilotToken cfg =? ""); [discriminate|].
  destruct (ExpiresAt cfg <=? _)%Z.
  - unfold bind, RefreshToken, RefreshTokenWithContext, bind. cbn [emit].
    rewrite Hf.
    destruct (GitHubToken cfg =? ""); [discriminate|].
    change (Z.to_nat maxRefreshRetries) with 3%nat.
    pose proof (refreshLoop_record 3 1 Background email cfg
                  (Entered "RefreshTokenWithContext" :: h1)) as Hrec.
    destruct (refreshLoop 3 1 Background email cfg _)
      as [[[c oe]|v] h2]; [|discriminate].
    cbn [fst snd] in *. destruct oe; [discriminate|].
    intros [= <- <- <-].
    destruct Hrec as (Hp & Hg & Ha & Hh & Hc & Ht).
    split; [reflexivity|].
    repeat (split; [assumption|]). exists tx, d. split; [reflexivity|exact Hg].
  - intros [= <- <- <-]. split; [reflexivity|].
    repeat (split; [reflexivity|]). exists tx, d. split; reflexivity.
Qed.

End RefreshRuns.

Section RefreshRunScenarios.
Import GoStrings Errors World Auth Scenario Cases.
Local Open Scope string_scope.

(** A store that cannot be written: the record has the new token, and
    the error is the one of the store. *)
Lemma refresh_success_keeps_new_token_witness :
  RefreshTokenWithContext (E := storeReadOnly) service Cancellable "u@x.com"
    (record 1100) []
  = (Ret (setCopilotToken (record 1100) "tid=fedcba9876" 2800 1500,
          Some (Wrapped "failed to update token in database: "
                  (ErrorString "connection refused"))),
     [Do (StoreUpdate "u@x.com" "gho_0123456789abcdef" "tid=fedcba9876"
            2800 1500);
      Do (GetCopilotToken "gho_0123456789abcdef" "GitHubCopilotChat/0.29.1");
      Entered "RefreshTokenWithContext"]).
Proof.
  destruct (refresh_success_keeps_new_token (E := storeReadOnly) service
              Cancellable "u@x.com" (record 1100) []
              [Entered "RefreshTokenWithContext"] "tid=fedcba9876" 2800 1500)
    as (u & h' & Hu & Hres & _).
  - eexists [_]. vm_compute. reflexivity.
  - eexists. symmetry. apply app_nil_r.
  - vm_compute. reflexivity.
  - vm_compute in Hu. injection Hu as <- <-. exact Hres.
Defined.

Lemma short_github_token_panics_witness :
  EnsureValidTokenWithConfig (E := unreachable 1000) service "u@x.com"
    shortRecord []
  = (Panic "runtime error: slice bounds out of range",
     [Entered "RefreshTokenWithContext"]).
Proof.
  apply (short_github_token_panics (E := unreachable 1000)).
  - reflexivity.
  - discriminate.
  - vm_compute. lia.
  - vm_compute. discriminate.
Defined.

(** A refresh on the way: the configuration that comes back has the
    settings of the base configuration and the token upstream issued. *)
Lemma ensure_valid_token_keeps_settings_witness :
  exists c h',
    EnsureValidToken (E := storeUp) service "u@x.com" (Some (record 0)) []
    = (Ret (Some c, None), h')
    /\ CopilotToken c = "tid=fedcba9876"
    /\ Port c = 8081 /\ Headers c = defaultHeaders
    /\ GitHubToken c = "gho_0123456789abcdef".
Proof.
  assert (Heq : EnsureValidToken (E := storeUp) service "u@x.com"
                  (Some (record 0)) []
                = (Ret (Some (setCopilotToken (record 1100) "tid=fedcba9876"
                                2800 1500), None),
                   [Do (StoreUpdate "u@x.com" "gho_0123456789abcdef"
                          "tid=fedcba9876" 2800 1500);
                    Do (GetCopilotToken "gho_0123456789abcdef"
                          "GitHubCopilotChat/0.29.1");
                    Entered "RefreshTokenWithContext";
                    Do (StoreFetch "u@x.com")]))
    by (vm_compute; reflexivity).
  destruct (ensure_valid_token_keeps_settings (E := storeUp) service
              "u@x.com" (record 0) [] _ _ _ eq_refl Heq)
    as (_ & Hp & _ & Hh & _ & _ & tx & d & Hd & Hg).
  eexists _, _. split; [exact Heq|]. split; [reflexivity|].
  split; [exact Hp|]. split; [exact Hh|].
  rewrite Hg. vm_compute in Hd. now injection Hd as _ <-.
Defined.

End RefreshRunScenarios.
